(** * TrafficLab-3D: ground projection and track kinematics

    A shallow embedding of the numeric core of the repository:

    - [gui/core/g_projection.py]: [GProjection] (matrix set-up, parallax
      model) and [SVGParser.get_nearest_heading];
    - [gui/core/kinematics.py]: [TrackSmoother].

    Python [float]s and NumPy [float64]s are read as real numbers: the
    development states what the code computes in exact arithmetic.  Rounding,
    signed zeros, infinities and NaN are outside the model.  Library calls are
    given their mathematical meaning ([math.atan2], [math.degrees],
    [np.linalg.norm], [np.clip], the float [%] operator, [np.linalg.inv] on
    an invertible matrix); [cv2.fitLine] and what [np.linalg.inv] makes of a
    singular matrix, which rounding decides, are kept abstract. *)

From Stdlib Require Import String Reals Lra Lia List Bool ZArith.
Import ListNotations.

Open Scope R_scope.

(** ** Python numerics *)

Module Py.

(** [math.floor] on a real. *)
Definition floor (x : R) : Z := Int_part x.

(** The float [%] operator: the result has the sign of the divisor,
    [x % m = x - m * floor (x / m)]. *)
Definition mod_ (x m : R) : R := x - m * IZR (floor (x / m)).

(** [math.degrees] and [math.radians]. *)
Definition degrees (x : R) : R := x * 180 / PI.
Definition radians (d : R) : R := d * PI / 180.

(** [math.atan2 y x], the angle of the vector [(x, y)] in (-pi, pi]. *)
Definition atan2 (y x : R) : R :=
  if Rlt_dec 0 x then atan (y / x)
  else if Rlt_dec x 0 then
    if Rle_dec 0 y then atan (y / x) + PI else atan (y / x) - PI
  else
    if Rlt_dec 0 y then PI / 2
    else if Rlt_dec y 0 then - (PI / 2)
    else 0.

(** Comparisons as booleans, for [if] and [and]/[or] conditions. *)
Definition ltb (x y : R) : bool := if Rlt_dec x y then true else false.
Definition gtb (x y : R) : bool := ltb y x.
Definition eqb (x y : R) : bool := if Req_dec_T x y then true else false.

(** Truthiness of [x if x else d] on an optional float: [None] and [0.0]
    are both falsy. *)
Definition or_else (x : option R) (d : R) : R :=
  match x with
  | Some v => if eqb v 0 then d else v
  | None => d
  end.

(** [dict.get(key, default)] on a key that may be absent. *)
Definition get {A : Type} (x : option A) (d : A) : A :=
  match x with Some v => v | None => d end.

End Py.

(** ** Plane vectors as NumPy uses them *)

Definition Vec2 : Type := (R * R)%type.

Module Np.

Definition add (a b : Vec2) : Vec2 := (fst a + fst b, snd a + snd b).
Definition sub (a b : Vec2) : Vec2 := (fst a - fst b, snd a - snd b).
Definition scale (k : R) (a : Vec2) : Vec2 := (k * fst a, k * snd a).
Definition div (a : Vec2) (k : R) : Vec2 := (fst a / k, snd a / k).
Definition neg (a : Vec2) : Vec2 := (- fst a, - snd a).
Definition dot (a b : Vec2) : R := fst a * fst b + snd a * snd b.

(** [np.linalg.norm] of a 2-vector. *)
Definition norm (a : Vec2) : R := sqrt (fst a * fst a + snd a * snd a).

(** [np.clip x lo hi], which NumPy computes as [minimum (maximum x lo) hi]. *)
Definition clip (x lo hi : R) : R := Rmin (Rmax x lo) hi.

End Np.

(** [vec[1], vec[0]] to compass degrees: [TrackSmoother._vec_to_deg]. *)
Definition vec_to_deg (vec : Vec2) : R :=
  Py.mod_ (Py.degrees (Py.atan2 (snd vec) (fst vec)) + 360) 360.

(** ** Exceptions

    A raised Python exception, by class name and message; a call either
    raises or returns. *)

Record exn : Type := Raise { exn_class : string; exn_msg : string }.

Definition result (A : Type) : Type := (exn + A)%type.

Definition ret {A : Type} (a : A) : result A := inr a.
Definition raise {A : Type} (e : exn) : result A := inl e.
Definition bind {A B : Type} (m : result A) (k : A -> result B) : result B :=
  match m with
  | inl e => inl e
  | inr a => k a
  end.

Notation "x <- m ;; k" := (bind m (fun x => k))
  (at level 61, m at next level, right associativity).

(** ** 3x3 matrices *)

Module Mat3.

(** A 3x3 matrix, row by row. *)
Record t : Type := mk {
  m00 : R; m01 : R; m02 : R;
  m10 : R; m11 : R; m12 : R;
  m20 : R; m21 : R; m22 : R
}.

Definition identity : t := mk 1 0 0 0 1 0 0 0 1.

Definition det (a : t) : R :=
  m00 a * (m11 a * m22 a - m12 a * m21 a)
  - m01 a * (m10 a * m22 a - m12 a * m20 a)
  + m02 a * (m10 a * m21 a - m11 a * m20 a).

Definition matmul (a b : t) : t :=
  mk
    (m00 a * m00 b + m01 a * m10 b + m02 a * m20 b)
    (m00 a * m01 b + m01 a * m11 b + m02 a * m21 b)
    (m00 a * m02 b + m01 a * m12 b + m02 a * m22 b)
    (m10 a * m00 b + m11 a * m10 b + m12 a * m20 b)
    (m10 a * m01 b + m11 a * m11 b + m12 a * m21 b)
    (m10 a * m02 b + m11 a * m12 b + m12 a * m22 b)
    (m20 a * m00 b + m21 a * m10 b + m22 a * m20 b)
    (m20 a * m01 b + m21 a * m11 b + m22 a * m21 b)
    (m20 a * m02 b + m21 a * m12 b + m22 a * m22 b).

Definition adjugate (a : t) : t :=
  mk
    (m11 a * m22 a - m12 a * m21 a)
    (m02 a * m21 a - m01 a * m22 a)
    (m01 a * m12 a - m02 a * m11 a)
    (m12 a * m20 a - m10 a * m22 a)
    (m00 a * m22 a - m02 a * m20 a)
    (m02 a * m10 a - m00 a * m12 a)
    (m10 a * m21 a - m11 a * m20 a)
    (m01 a * m20 a - m00 a * m21 a)
    (m00 a * m11 a - m01 a * m10 a).

Definition mscale (k : R) (a : t) : t :=
  mk (k * m00 a) (k * m01 a) (k * m02 a)
       (k * m10 a) (k * m11 a) (k * m12 a)
       (k * m20 a) (k * m21 a) (k * m22 a).

End Mat3.

(** ** The guideline index: [SVGParser] *)

Module SVGParser.

(** The fields [get_nearest_heading] reads: whether the document loaded, and
    the guideline segments in map pixels. *)
Record t : Type := Build {
  valid : bool;
  orientation_segments : list (Vec2 * Vec2)
}.

(** The field [M_align] that [__init__] sets from [alignment_matrix_A], the
    2x3 layout alignment of the calibration, when it is given. *)
Definition M_align (alignment_matrix_A : option ((R * R * R) * (R * R * R))) : Mat3.t :=
  match alignment_matrix_A with
  | None => Mat3.identity
  | Some ((a00, a01, a02), (a10, a11, a12)) =>
      Mat3.mk a00 a01 a02 a10 a11 a12 0 0 1
  end.

(** [min_d] starts at [float('inf')]. *)
Inductive dist : Type :=
| Inf : dist
| Fin : R -> dist.

Definition lt_dist (d : R) (min_d : dist) : bool :=
  match min_d with
  | Inf => true
  | Fin m => Py.ltb d m
  end.

(** The closest point of segment [sp1 sp2] to [pt], by clamped scalar
    projection. *)
Definition closest_point (pt sp1 sp2 : Vec2) : Vec2 :=
  let ab := Np.sub sp2 sp1 in
  let ab_sq := Np.dot ab ab in
  let ap := Np.sub pt sp1 in
  let t := Np.dot ap ab / ab_sq in
  Np.add sp1 (Np.scale (Np.clip t 0 1) ab).

(** One iteration of the loop over the segments; the loop state is
    [(min_d, best_ang)]. *)
Definition scan_segment (pt : Vec2) (st : dist * option R) (seg : Vec2 * Vec2)
  : dist * option R :=
  let '(sp1, sp2) := seg in
  let ab := Np.sub sp2 sp1 in
  let ab_sq := Np.dot ab ab in
  if Py.ltb ab_sq 1e-6 then st
  else
    let closest := closest_point pt sp1 sp2 in
    let d := Np.norm (Np.sub pt closest) in
    if lt_dist d (fst st)
    then (Fin d, Some (Py.degrees (Py.atan2 (snd ab) (fst ab))))
    else st.

Definition scan (pt : Vec2) (segs : list (Vec2 * Vec2)) : dist * option R :=
  fold_left (scan_segment pt) segs (Inf, None).

Definition get_nearest_heading (self : t) (pt : Vec2) : option R :=
  if negb (valid self)
     || (match orientation_segments self with [] => true | _ => false end)
  then None
  else
    match snd (scan pt (orientation_segments self)) with
    | Some best_ang => Some (Py.mod_ (best_ang + 360) 360)
    | None => None
    end.

(** Vocabulary for the loop's result: a segment's direction, whether the
    loop skips it, its distance to [pt] and the angle of its direction. *)
Definition direction (seg : Vec2 * Vec2) : Vec2 := Np.sub (snd seg) (fst seg).

Definition skipped (seg : Vec2 * Vec2) : Prop :=
  Np.dot (direction seg) (direction seg) < 1e-6.

Definition distance (pt : Vec2) (seg : Vec2 * Vec2) : R :=
  Np.norm (Np.sub pt (closest_point pt (fst seg) (snd seg))).

Definition angle (seg : Vec2 * Vec2) : R :=
  Py.degrees (Py.atan2 (snd (direction seg)) (fst (direction seg))).

(** What the loop state records about the segments seen so far: nothing
    while all of them were skipped, else a segment that was not skipped, its
    distance and angle, no other such segment being strictly closer. *)
Definition scan_invariant (pt : Vec2) (seen : list (Vec2 * Vec2))
  (st : dist * option R) : Prop :=
  match st with
  | (Inf, None) => forall seg, In seg seen -> skipped seg
  | (Fin d, Some a) =>
      exists seg, In seg seen /\ ~ skipped seg /\
        d = distance pt seg /\ a = angle seg /\
        forall seg', In seg' seen -> ~ skipped seg' -> d <= distance pt seg'
  | _ => False
  end.

(** *** Reading the document

    The XML tree as [xml.etree] hands it over, with the attributes the parser
    reads already turned into numbers: [float] and the regular expressions
    are not modelled, so a document whose numbers do not parse is outside the
    model. *)

(** One operator of a [transform] attribute: its name and its numbers. *)
Definition op : Type := (string * list R)%type.

#[warnings="-register-all"]
Inductive element : Type :=
| Element (tag : string) (id : option string) (transform : list op)
    (x1 y1 x2 y2 : option R) (points : list R) (children : list element).

Definition tag_of (el : element) : string :=
  match el with Element tag _ _ _ _ _ _ _ _ => tag end.
Definition id_of (el : element) : option string :=
  match el with Element _ id _ _ _ _ _ _ _ => id end.
Definition children_of (el : element) : list element :=
  match el with Element _ _ _ _ _ _ _ _ children => children end.

Definition IndexError : exn := Raise "IndexError" "list index out of range".
Definition ValueError : exn :=
  Raise "ValueError" "cannot reshape array into shape (2)".

(** [vals[i]]. *)
Definition item (vals : list R) (i : nat) : result R :=
  match nth_error vals i with
  | Some v => ret v
  | None => raise IndexError
  end.

Definition translation (tx ty : R) : Mat3.t := Mat3.mk 1 0 tx 0 1 ty 0 0 1.

Definition rotation (deg : R) : Mat3.t :=
  let rad := Py.radians deg in
  let c := cos rad in
  let s := sin rad in
  Mat3.mk c (- s) 0 s c 0 0 0 1.

(** The matrix [T] of one operator in [_parse_transform]. *)
Definition op_matrix (o : op) : result Mat3.t :=
  let '(name, vals) := o in
  if String.eqb name "translate" then
    tx <- item vals 0 ;;
    ty <- (if (1 <? length vals)%nat then item vals 1 else ret 0) ;;
    ret (translation tx ty)
  else if String.eqb name "rotate" then
    deg <- item vals 0 ;;
    if (length vals =? 3)%nat then
      cx <- item vals 1 ;;
      cy <- item vals 2 ;;
      ret (Mat3.matmul (Mat3.matmul (translation cx cy) (rotation deg))
             (translation (- cx) (- cy)))
    else ret (rotation deg)
  else if String.eqb name "matrix" then
    a <- item vals 0 ;;
    b <- item vals 1 ;;
    c <- item vals 2 ;;
    d <- item vals 3 ;;
    e <- item vals 4 ;;
    f <- item vals 5 ;;
    ret (Mat3.mk a c e b d f 0 0 1)
  else ret Mat3.identity.

(** [_parse_transform]: an absent or empty attribute has no operators. *)
Definition _parse_transform (ops : list op) : result Mat3.t :=
  fold_left
    (fun M o => m <- M ;; T <- op_matrix o ;; ret (Mat3.matmul m T))
    ops (ret Mat3.identity).

(** [el.tag.split('}')[-1]]: the tag without its namespace. *)
Fixpoint after_last_brace (s acc : string) : string :=
  match s with
  | EmptyString => acc
  | String c rest =>
      if Ascii.eqb c (Ascii.ascii_of_nat 125) (* the brace that ends a namespace *)
      then after_last_brace rest EmptyString
      else after_last_brace rest (acc ++ String c EmptyString)
  end.

Definition local_name (tag : string) : string := after_last_brace tag EmptyString.

(** [np.array(raw, dtype=float).reshape(-1, 2)]. *)
Fixpoint reshape2 (raw : list R) : result (list Vec2) :=
  match raw with
  | [] => ret []
  | [_] => raise ValueError
  | x :: y :: rest => pts <- reshape2 rest ;; ret ((x, y) :: pts)
  end.

(** A matrix applied to a homogeneous column. *)
Definition mulvec (m : Mat3.t) (v : R * R * R) : R * R * R :=
  let '(x, y, w) := v in
  (Mat3.m00 m * x + Mat3.m01 m * y + Mat3.m02 m * w,
   Mat3.m10 m * x + Mat3.m11 m * y + Mat3.m12 m * w,
   Mat3.m20 m * x + Mat3.m21 m * y + Mat3.m22 m * w).

(** A row of [(M_align @ (curr_mat @ homo.T)).T[:, :2]]. *)
Definition place (align curr_mat : Mat3.t) (p : Vec2) : Vec2 :=
  let '(x, y, _) := mulvec align (mulvec curr_mat (fst p, snd p, 1)) in (x, y).

(** [(t_pts[i], t_pts[i+1])] for [i] in [range(len(t_pts) - 1)]. *)
Fixpoint consecutive (t_pts : list Vec2) : list (Vec2 * Vec2) :=
  match t_pts with
  | a :: (b :: _) as rest => (a, b) :: consecutive rest
  | _ => []
  end.

(** The points of an element, by its tag. *)
Definition element_points (name : string) (x1 y1 x2 y2 : option R)
  (points : list R) : result (list Vec2) :=
  if String.eqb name "line" then
    ret [(Py.get x1 0, Py.get y1 0); (Py.get x2 0, Py.get y2 0)]
  else if String.eqb name "polygon" || String.eqb name "polyline" then
    reshape2 points
  else ret [].

(** The segments an element appends to [seg_list]. *)
Definition element_segments (name : string) (t_pts : list Vec2)
  : list (Vec2 * Vec2) :=
  match t_pts with
  | [] => []
  | first :: _ =>
      consecutive t_pts
      ++ (if String.eqb name "polygon" then [(last t_pts first, first)] else [])
  end.

(** [_process_node]; the list [seg_list] that the code extends in place is
    passed along and returned. *)
Fixpoint _process_node (align : Mat3.t) (el : element) (parent_mat : Mat3.t)
  (seg_list : list (Vec2 * Vec2)) : result (list (Vec2 * Vec2)) :=
  match el with
  | Element tag _ transform x1 y1 x2 y2 points children =>
      local_mat <- _parse_transform transform ;;
      let curr_mat := Mat3.matmul parent_mat local_mat in
      let name := local_name tag in
      pts <- element_points name x1 y1 x2 y2 points ;;
      let t_pts := map (place align curr_mat) pts in
      let seg_list := seg_list ++ element_segments name t_pts in
      (fix each (cs : list element) (acc : list (Vec2 * Vec2)) :=
         match cs with
         | [] => ret acc
         | child :: rest =>
             acc <- _process_node align child curr_mat acc ;;
             each rest acc
         end) children seg_list
  end.

(** [root.iter()]: the element and its descendants in document order. *)
Fixpoint iter (el : element) : list element :=
  el :: (fix each (cs : list element) : list element :=
           match cs with
           | [] => []
           | child :: rest => iter child ++ each rest
           end) (children_of el).

Definition is_target (el : element) : bool :=
  String.eqb (local_name (tag_of el)) "g"
  && match id_of el with
     | Some i => String.eqb i "Guidelines" || String.eqb i "Physical"
     | None => false
     end.

(** The loop of [_extract_segments] over the target nodes. *)
Fixpoint process_targets (align : Mat3.t) (targets : list element)
  (segs : list (Vec2 * Vec2)) : result (list (Vec2 * Vec2)) :=
  match targets with
  | [] => ret segs
  | g :: rest =>
      segs <- _process_node align g Mat3.identity segs ;;
      process_targets align rest segs
  end.

Definition _extract_segments (align : Mat3.t) (root : element)
  : result (list (Vec2 * Vec2)) :=
  process_targets align (filter is_target (iter root)) [].

(** [__init__]: [root] is the parsed document, [None] when the file is
    missing or is not XML.  Any exception while extracting is caught and
    leaves the index invalid and empty. *)
Definition __init__ (root : option element)
  (alignment_matrix_A : option ((R * R * R) * (R * R * R))) : t :=
  match root with
  | None => Build false []
  | Some r =>
      match _extract_segments (M_align alignment_matrix_A) r with
      | inr segs => Build true segs
      | inl _ => Build false []
      end
  end.

End SVGParser.

(** ** The ground-projection core: [GProjection] *)

Module GProjection.

Definition LinAlgError (msg : string) : exn := Raise "LinAlgError" msg.

(** [np.linalg.inv] of what [np.array(x, dtype=np.float64)] built.  A missing
    entry ([x = None]) gives a 0-dimensional array, which [inv] refuses.  A
    matrix is factorised by LAPACK, in floating point, and NumPy raises
    [LinAlgError] only when the factorisation meets a pivot that is exactly
    0: no determinant is tested.  For a matrix whose determinant is 0 the
    last pivot is 0 up to rounding only, so the call either raises or
    returns a matrix (with huge entries) and no error, as it does for
    [[3, 1, 2], [7, 5, 1], [10, 6, 3]].  Rounding is outside this model, so
    that outcome is the parameter [lu_singular]: [None] when a pivot came out
    as 0, [Some m] when the call returned [m].  For an invertible matrix the
    inverse is returned, rounding aside as for all arithmetic here. *)
Definition inv (lu_singular : Mat3.t -> option Mat3.t) (a : option Mat3.t)
  : result Mat3.t :=
  match a with
  | None =>
      raise (LinAlgError
        "0-dimensional array given. Array must be at least two-dimensional")
  | Some a =>
      if Py.eqb (Mat3.det a) 0 then
        match lu_singular a with
        | None => raise (LinAlgError "Singular matrix")
        | Some m => ret m
        end
      else ret (Mat3.mscale (/ Mat3.det a) (Mat3.adjugate a))
  end.

(** The calibration dictionary; every key may be absent. *)
Record Config : Type := Build_Config {
  undistort_K : option Mat3.t;
  undistort_D : option (list R);
  homography_H : option Mat3.t;
  parallax_z_cam_meters : option R;
  parallax_x_cam_coords_sat : option R;
  parallax_y_cam_coords_sat : option R;
  parallax_px_per_meter : option R
}.

(** The object's fields once [__init__] returns. *)
Record t : Type := Build {
  K : option Mat3.t;
  D : option (list R);
  P : option Mat3.t;
  H : option Mat3.t;
  H_inv : Mat3.t;
  z_cam : R;
  cam_sat : Vec2;
  px_per_m : R;
  svg_parser : option SVGParser.t
}.

(** [_init_matrices]: the fields [K, D, P, H, H_inv]. *)
Definition _init_matrices (lu_singular : Mat3.t -> option Mat3.t)
  (config : Config)
  : result (option Mat3.t * option (list R) * option Mat3.t * option Mat3.t * Mat3.t) :=
  let K := undistort_K config in
  let D := undistort_D config in
  let P := K in
  let H := homography_H config in
  H_inv <- inv lu_singular H ;;
  ret (K, D, P, H, H_inv).

(** [_init_parallax]: the fields [z_cam, cam_sat, px_per_m]. *)
Definition _init_parallax (config : Config) : R * Vec2 * R :=
  let z_cam := Py.get (parallax_z_cam_meters config) 10 in
  let x_sat := Py.get (parallax_x_cam_coords_sat config) 0 in
  let y_sat := Py.get (parallax_y_cam_coords_sat config) 0 in
  let px := Py.get (parallax_px_per_meter config) 1 in
  let px := if Rle_dec px 0.001 then 1 else px in
  (z_cam, (x_sat, y_sat), px).

(** [__init__]; [svg] is the parser [_init_svg] obtained from the file
    system, if any. *)
Definition __init__ (lu_singular : Mat3.t -> option Mat3.t) (config : Config)
  (svg : option SVGParser.t) : result t :=
  mats <- _init_matrices lu_singular config ;;
  let '(K, D, P, H, H_inv) := mats in
  let '(z_cam, cam_sat, px) := _init_parallax config in
  ret (Build K D P H H_inv z_cam cam_sat px svg).

Definition get_svg_heading (self : t) (sat_pt : Vec2) : option R :=
  match svg_parser self with
  | Some p => if SVGParser.valid p then SVGParser.get_nearest_heading p sat_pt else None
  | None => None
  end.

Definition parallax_correct_ground_to_real (self : t) (apparent_sat_pt : Vec2) (h : R)
  : Vec2 :=
  if Py.eqb (z_cam self) 0 then apparent_sat_pt
  else
    let A := apparent_sat_pt in
    let C := cam_sat self in
    let factor := (z_cam self - h) / z_cam self in
    Np.add C (Np.scale factor (Np.sub A C)).

Definition parallax_project_real_to_ground (self : t) (real_sat_pt : Vec2) (h : R)
  : Vec2 :=
  if Py.ltb (Rabs (z_cam self - h)) 0.01 then real_sat_pt
  else
    let R_ := real_sat_pt in
    let C := cam_sat self in
    let factor := z_cam self / (z_cam self - h) in
    Np.add C (Np.scale factor (Np.sub R_ C)).

(** [cv2.perspectiveTransform] on one point: [(x, y, w) = m (u, v, 1)] and
    the point is [(x / w, y / w)]; OpenCV answers [(0, 0)] when [|w|] does not
    exceed its threshold [eps]. *)
Definition perspectiveTransform (eps : R) (m : Mat3.t) (p : Vec2) : Vec2 :=
  let x := Mat3.m00 m * fst p + Mat3.m01 m * snd p + Mat3.m02 m in
  let y := Mat3.m10 m * fst p + Mat3.m11 m * snd p + Mat3.m12 m in
  let w := Mat3.m20 m * fst p + Mat3.m21 m * snd p + Mat3.m22 m in
  if Py.gtb (Rabs w) eps then (x / w, y / w) else (0, 0).

Definition cv2_error : exn := Raise "cv2.error" "".
Definition IndexError : exn := Raise "IndexError" "too many indices for array".

(** What [get_ground_contact_from_box] returns. *)
Record GroundContact : Type := Build_GroundContact {
  sat_coords : Vec2;
  cctv_ref_point : Vec2;
  cctv_ground_point : Vec2
}.

Section Lens.

(** OpenCV's calls, kept abstract: the threshold of [perspectiveTransform];
    [cv2.undistortPoints(src, K, D, P=P)] on one point;
    [cv2.projectPoints(obj, (0,0,0), (0,0,0), K, D)] on one object point, a
    batch being projected point by point; and what [projectPoints] answers on
    an empty batch. *)
Variable eps : R.
Variable undistortPoints : Mat3.t -> option (list R) -> Mat3.t -> Vec2 -> Vec2.
Variable projectPoint : Mat3.t -> option (list R) -> R * R * R -> Vec2.
Variable projectPoints_empty : result (list Vec2).

Definition cctv_to_undistorted (self : t) (u v : R) : result Vec2 :=
  match K self, P self with
  | Some k, Some p => ret (undistortPoints k (D self) p (u, v))
  | _, _ => raise cv2_error
  end.

Definition undistorted_to_flat_sat (self : t) (u_u v_u : R) : result Vec2 :=
  match H self with
  | Some h => ret (perspectiveTransform eps h (u_u, v_u))
  | None => raise cv2_error
  end.

Definition flat_sat_to_undistorted (self : t) (x y : R) : Vec2 :=
  perspectiveTransform eps (H_inv self) (x, y).

(** The normalised ray [(x_norm, y_norm, 1.0)] of an undistorted pixel. *)
Definition normalized_ray (k : Mat3.t) (p : Vec2) : R * R * R :=
  let fx := Mat3.m00 k in
  let fy := Mat3.m11 k in
  let cx := Mat3.m02 k in
  let cy := Mat3.m12 k in
  ((fst p - cx) / fx, (snd p - cy) / fy, 1).

Definition undistorted_to_cctv (self : t) (u_u v_u : R) : result Vec2 :=
  match K self with
  | None => raise IndexError
  | Some k => ret (projectPoint k (D self) (normalized_ray k (u_u, v_u)))
  end.

Definition cctv_to_sat (self : t) (u v h : R) : result Vec2 :=
  uu <- cctv_to_undistorted self u v ;;
  apparent_pt <- undistorted_to_flat_sat self (fst uu) (snd uu) ;;
  if Py.eqb h 0 then ret apparent_pt
  else ret (parallax_correct_ground_to_real self apparent_pt h).

Definition sat_to_cctv (self : t) (x y h : R) : result Vec2 :=
  let flat_pt :=
    if Py.eqb h 0 then (x, y)
    else parallax_project_real_to_ground self (x, y) h in
  let uu := flat_sat_to_undistorted self (fst flat_pt) (snd flat_pt) in
  undistorted_to_cctv self (fst uu) (snd uu).

(** [rect] is the tuple [(rx, ry, rw, rh)]; a [QRect] gives the same four
    numbers. *)
Definition get_ground_contact_from_box (self : t) (rect : R * R * R * R)
  (h_meters : R) (ref_method proj_method : string) : result GroundContact :=
  let '(rx, ry, rw, rh) := rect in
  let cx := rx + rw / 2 in
  let cy := if String.eqb ref_method "center_bottom_side"
            then ry + rh else ry + rh / 2 in
  apparent_sat <- cctv_to_sat self cx cy 0 ;;
  let final_sat :=
    if String.eqb proj_method "down_h"
    then parallax_correct_ground_to_real self apparent_sat h_meters
    else if String.eqb proj_method "down_h_2"
    then parallax_correct_ground_to_real self apparent_sat (h_meters / 2)
    else apparent_sat in
  gc_cctv <- sat_to_cctv self (fst final_sat) (snd final_sat) 0 ;;
  ret (Build_GroundContact final_sat (cx, cy) gc_cctv).

Definition sat_floor_to_cctv_3d (self : t) (sat_poly : list Vec2)
  (obj_height_m : R) : result (list Vec2) :=
  let undistorted_ground_pts :=
    map (fun p => flat_sat_to_undistorted self (fst p) (snd p)) sat_poly in
  let factor :=
    if Py.ltb (Rabs (z_cam self - obj_height_m)) 0.01 then 1
    else z_cam self / (z_cam self - obj_height_m) in
  let c_sat := cam_sat self in
  let undistorted_top_pts :=
    map (fun p =>
           let apparent_pt := Np.add c_sat (Np.scale factor (Np.sub p c_sat)) in
           flat_sat_to_undistorted self (fst apparent_pt) (snd apparent_pt))
        sat_poly in
  let all_undist := undistorted_ground_pts ++ undistorted_top_pts in
  match K self with
  | None => raise IndexError
  | Some k =>
      let obj_pts := map (normalized_ray k) all_undist in
      match obj_pts with
      | [] => projectPoints_empty
      | _ => ret (map (projectPoint k (D self)) obj_pts)
      end
  end.

End Lens.

End GProjection.

(** ** The per-track kinematic smoother: [TrackSmoother] *)

(** [collections.deque] with [maxlen]: appending to a full deque drops
    items from the left. *)
Module Deque.

Record t : Type := Build { maxlen : nat; items : list Vec2 }.

Definition empty (n : nat) : t := Build n [].

Definition len (d : t) : nat := length (items d).

Definition append (d : t) (x : Vec2) : t :=
  let l := items d ++ [x] in
  Build (maxlen d) (skipn (length l - maxlen d) l).

(** [d[-k]] for [k >= 1]; the callers check [len] first. *)
Definition from_end (d : t) (k : nat) : Vec2 :=
  nth (len d - k) (items d) (0, 0).

(** [d[0]]. *)
Definition first (d : t) : Vec2 := nth 0 (items d) (0, 0).

End Deque.

Module TrackSmoother.

(** The [heading_ema] sub-dictionary. *)
Record HeadingEma : Type := Build_HeadingEma {
  alpha_min : option R;
  alpha_max : option R;
  speed_ref : option R
}.

(** The kinematics configuration dictionary; every key may be absent. *)
Record Config : Type := Build_Config {
  heading_ema : option HeadingEma;
  heading_sat_coords_jitter_frames : option nat;
  heading_sat_coords_jitter_radius : option R;
  speed_ema_alpha : option R;
  heading_min_speed_for_update : option R;
  heading_max_jump : option R
}.

(** [{}]. *)
Definition empty_config : Config :=
  Build_Config None None None None None None.

Record t : Type := Build {
  cfg : Config;
  speed_state : option R;
  heading_vec_state : option Vec2;
  velocity_vec_state : option Vec2;
  h_alpha_min : R;
  h_alpha_max : R;
  h_speed_ref : R;
  pos_history : Deque.t;
  jitter_hist : Deque.t;
  cosine_reject_counter : nat;
  max_physics_speed : R
}.

(** The record [update] returns. *)
Record Output : Type := Build_Output {
  speed_kmh : R;
  heading : option R;
  default_heading : bool
}.

Definition __init__ (config : Config) : t :=
  let h_ema := Py.get (heading_ema config) (Build_HeadingEma None None None) in
  let reg_win := 8%nat in
  let jitter_frames := Py.get (heading_sat_coords_jitter_frames config) 8%nat in
  Build config None None None
    (Py.get (alpha_min h_ema) 0.05)
    (Py.get (alpha_max h_ema) 0.6)
    (Py.get (speed_ref h_ema) 5)
    (Deque.empty reg_win)
    (Deque.empty jitter_frames)
    0%nat
    200.

(** Field updates. *)
Definition set_histories (self : t) (p j : Deque.t) : t :=
  Build (cfg self) (speed_state self) (heading_vec_state self)
    (velocity_vec_state self) (h_alpha_min self) (h_alpha_max self)
    (h_speed_ref self) p j (cosine_reject_counter self) (max_physics_speed self).

Definition set_speed_state (self : t) (s : option R) : t :=
  Build (cfg self) s (heading_vec_state self)
    (velocity_vec_state self) (h_alpha_min self) (h_alpha_max self)
    (h_speed_ref self) (pos_history self) (jitter_hist self)
    (cosine_reject_counter self) (max_physics_speed self).

Definition set_heading_vec_state (self : t) (v : option Vec2) : t :=
  Build (cfg self) (speed_state self) v
    (velocity_vec_state self) (h_alpha_min self) (h_alpha_max self)
    (h_speed_ref self) (pos_history self) (jitter_hist self)
    (cosine_reject_counter self) (max_physics_speed self).

Definition set_velocity_vec_state (self : t) (v : option Vec2) : t :=
  Build (cfg self) (speed_state self) (heading_vec_state self)
    v (h_alpha_min self) (h_alpha_max self)
    (h_speed_ref self) (pos_history self) (jitter_hist self)
    (cosine_reject_counter self) (max_physics_speed self).

(** [np.max(pts, 0)] and [np.min(pts, 0)] of a window with first row [p]. *)
Definition col_max (p : Vec2) (pts : list Vec2) : Vec2 :=
  fold_left (fun m q => (Rmax (fst m) (fst q), Rmax (snd m) (snd q))) pts p.

Definition col_min (p : Vec2) (pts : list Vec2) : Vec2 :=
  fold_left (fun m q => (Rmin (fst m) (fst q), Rmin (snd m) (snd q))) pts p.

Definition _check_jitter (self : t) (px_per_m : R) : bool :=
  if (Deque.len (jitter_hist self) <? 2)%nat then false
  else
    let rad_m := Py.get (heading_sat_coords_jitter_radius (cfg self)) 0.6 in
    let rad_px := rad_m * px_per_m in
    match Deque.items (jitter_hist self) with
    | [] => false
    | p :: pts =>
        Py.ltb (Np.norm (Np.sub (col_max p pts) (col_min p pts))) rad_px
    end.

Definition _smooth_speed (self : t) (raw : R) : R :=
  let alpha := Py.get (speed_ema_alpha (cfg self)) 0.4 in
  match speed_state self with
  | None => raw
  | Some s => alpha * raw + (1 - alpha) * s
  end.

Definition _apply_snapping (current_heading svg_heading : R) : R :=
  let diff := Py.mod_ (current_heading - svg_heading + 180) 360 - 180 in
  if Py.ltb (Rabs diff) 15
  then Py.mod_ (current_heading - diff * 0.3 + 360) 360
  else current_heading.

Definition unit_vec (deg : R) : Vec2 :=
  let rad := Py.radians deg in (cos rad, sin rad).

Definition _smooth_heading (self : t) (raw_deg speed_kmh : R) : t * R :=
  let curr_vec := unit_vec raw_deg in
  let vel_alpha := 0.25 in
  let velocity :=
    match velocity_vec_state self with
    | None => curr_vec
    | Some v =>
        let v' := Np.add (Np.scale vel_alpha curr_vec) (Np.scale (1 - vel_alpha) v) in
        Np.div v' (Np.norm v')
    end in
  let self := set_velocity_vec_state self (Some velocity) in
  let curr_vec := velocity in
  match heading_vec_state self with
  | None => (set_heading_vec_state self (Some curr_vec), vec_to_deg curr_vec)
  | Some prev_vec =>
      let speed_ms := speed_kmh / 3.6 in
      let ratio := Rmin 1 (speed_ms / h_speed_ref self) in
      let alpha := h_alpha_min self + (h_alpha_max self - h_alpha_min self) * ratio in
      let new_vec := Np.add (Np.scale alpha curr_vec) (Np.scale (1 - alpha) prev_vec) in
      let new_vec := Np.div new_vec (Np.norm new_vec) in
      let target_deg := vec_to_deg new_vec in
      let prev_deg := vec_to_deg prev_vec in
      let delta := Py.mod_ (target_deg - prev_deg + 180) 360 - 180 in
      let max_jump := Py.get (heading_max_jump (cfg self)) 5 in
      let target_deg :=
        if Py.gtb (Rabs delta) max_jump
        then Py.mod_ (prev_deg + Np.clip delta (- max_jump) max_jump + 360) 360
        else target_deg in
      (set_heading_vec_state self (Some (unit_vec target_deg)), target_deg)
  end.

Section FitLine.

(** The direction [(vx, vy)] that [cv2.fitLine(pts, cv2.DIST_L2, 0, 0.01, 0.01)]
    returns for the window. *)
Variable fitLine : list Vec2 -> Vec2.

Definition _compute_regression_heading (self : t) : option R :=
  if (Deque.len (pos_history self) <? 3)%nat then None
  else
    let pts := pos_history self in
    let disp := Np.sub (Deque.from_end pts 1) (Deque.first pts) in
    if Py.ltb (Np.norm disp) 2 then None
    else
      let v := fitLine (Deque.items pts) in
      let v := if Py.ltb (Np.dot disp v) 0 then Np.neg v else v in
      Some (vec_to_deg v).

(** The physics gate of [update]: whether the call returns early. *)
Definition gate_rejects (self : t) (curr_pt : Vec2) (dt px_per_m : R) : bool :=
  if Py.gtb dt 0 && (0 <? Deque.len (pos_history self))%nat then
    let prev_pt := Deque.from_end (pos_history self) 1 in
    let dist_px := Np.norm (Np.sub curr_pt prev_pt) in
    let dist_m := dist_px / px_per_m in
    let inst_speed := dist_m / dt * 3.6 in
    Py.gtb inst_speed (max_physics_speed self)
  else false.

(** [raw_speed_kmh] and [raw_heading_deg], read after the histories were
    appended to. *)
Definition raw_motion (self : t) (curr_pt : Vec2) (dt px_per_m : R) : R * option R :=
  if Py.gtb dt 0 && (2 <=? Deque.len (pos_history self))%nat then
    let prev_pt := Deque.from_end (pos_history self) 2 in
    let dist_px := Np.norm (Np.sub curr_pt prev_pt) in
    let dist_m := dist_px / px_per_m in
    let raw_speed_kmh := dist_m / dt * 3.6 in
    match _compute_regression_heading self with
    | Some reg_heading => (raw_speed_kmh, Some reg_heading)
    | None =>
        if Py.gtb dist_px 0.5 then
          let dx := fst curr_pt - fst prev_pt in
          let dy := snd curr_pt - snd prev_pt in
          (raw_speed_kmh, Some (Py.mod_ (Py.degrees (Py.atan2 dy dx) + 360) 360))
        else (raw_speed_kmh, None)
    end
  else (0, None).

(** The [else] branch of the heading decision. *)
Definition keep_heading (self : t) (svg_heading : option R) : option R * bool :=
  match heading_vec_state self with
  | Some v => (Some (vec_to_deg v), false)
  | None =>
      match svg_heading with
      | Some svg => (Some svg, true)
      | None => (None, false)
      end
  end.

(** [update].  The test
    [raw_speed_kmh > min_speed and not is_jittering and raw_heading_deg is not None]
    is taken with its last conjunct first, which binds the raw heading; the
    conjuncts have no effects, so their order does not matter. *)
Definition update (self : t) (current_sat_pos : Vec2) (dt px_per_m : R)
  (svg_heading : option R) : t * Output :=
  let curr_pt := current_sat_pos in
  if gate_rejects self curr_pt dt px_per_m then
    (self,
     Build_Output (Py.or_else (speed_state self) 0)
       (option_map vec_to_deg (heading_vec_state self))
       false)
  else
    let self := set_histories self
                  (Deque.append (pos_history self) current_sat_pos)
                  (Deque.append (jitter_hist self) current_sat_pos) in
    let is_jittering := _check_jitter self px_per_m in
    let '(raw_speed_kmh, raw_heading_deg) := raw_motion self curr_pt dt px_per_m in
    let self := set_speed_state self (Some (_smooth_speed self raw_speed_kmh)) in
    let min_speed := Py.get (heading_min_speed_for_update (cfg self)) 0.1 in
    let '(self, final_heading, is_default) :=
      match raw_heading_deg with
      | Some raw =>
          if Py.gtb raw_speed_kmh min_speed && negb is_jittering then
            let '(self, final_heading) := _smooth_heading self raw raw_speed_kmh in
            let final_heading :=
              match svg_heading with
              | Some svg => _apply_snapping final_heading svg
              | None => final_heading
              end in
            (self, Some final_heading, false)
          else
            let '(h, d) := keep_heading self svg_heading in (self, h, d)
      | None =>
          let '(h, d) := keep_heading self svg_heading in (self, h, d)
      end in
    (self,
     Build_Output (Py.or_else (speed_state self) 0) final_heading is_default).

(** One [update] call's arguments, and a whole sequence of calls on one
    smoother. *)
Record Call : Type := Build_Call {
  call_pos : Vec2;
  call_dt : R;
  call_px_per_m : R;
  call_svg_heading : option R
}.

Definition update_call (self : t) (c : Call) : t * Output :=
  update self (call_pos c) (call_dt c) (call_px_per_m c) (call_svg_heading c).

Fixpoint run (self : t) (calls : list Call) : t * list Output :=
  match calls with
  | [] => (self, [])
  | c :: rest =>
      let '(self, out) := update_call self c in
      let '(self, outs) := run self rest in
      (self, out :: outs)
  end.

(** Whether a call on [self] gets past the gate and then finds the jitter
    window, with the new position in it, inside the jitter radius. *)
Definition detects_jitter (self : t) (c : Call) : Prop :=
  gate_rejects self (call_pos c) (call_dt c) (call_px_per_m c) = false /\
  _check_jitter
    (set_histories self
       (Deque.append (pos_history self) (call_pos c))
       (Deque.append (jitter_hist self) (call_pos c)))
    (call_px_per_m c) = true.

(** Every call of the sequence detects jitter, each on the state its
    predecessors left. *)
Fixpoint all_detect_jitter (self : t) (calls : list Call) : Prop :=
  match calls with
  | [] => True
  | c :: rest =>
      detects_jitter self c /\ all_detect_jitter (fst (update_call self c)) rest
  end.

End FitLine.

(** A heading as the records carry it: null, or degrees in [0, 360). *)
Definition compass (h : option R) : Prop :=
  match h with
  | Some x => 0 <= x < 360
  | None => True
  end.

End TrackSmoother.

(** ** The per-detection step of the inference loop

    The kinematics part of [InferenceSession._process_pipeline] in
    [gui/core/x_engine.py], for one detection of frame [i]: the two
    dictionaries keyed by track id, the time step, the smoother update, and
    the oriented floor box. *)

From Stdlib Require FMapAVL FMapFacts OrderedTypeEx.

Module Engine.

Module ZMap := FMapAVL.Make OrderedTypeEx.Z_as_OT.
Module ZMapFacts := FMapFacts.WFacts_fun OrderedTypeEx.Z_as_OT ZMap.

(** [track_smoothers] and [last_seen_frame]. *)
Record Tracks : Type := Build_Tracks {
  track_smoothers : ZMap.t TrackSmoother.t;
  last_seen_frame : ZMap.t Z
}.

(** [speed], [heading], [is_def] and [have_heading] of one detection. *)
Record Kinematics : Type := Build_Kinematics {
  speed : R;
  heading : option R;
  is_def : bool;
  have_heading : bool
}.

Definition ZeroDivisionError : exn :=
  Raise "ZeroDivisionError" "float division by zero".
Definition KeyError : exn := Raise "KeyError" "".

Section Loop.

Variable fitLine : list Vec2 -> Vec2.
(** [full_config['kinematics']], [g_engine], [use_svg] and [real_fps]. *)
Variable kinematics : TrackSmoother.Config.
Variable g_engine : GProjection.t.
Variable use_svg : bool.
Variable real_fps : R.

(** [dt = (i - prev_f) / real_fps], replaced by [1.0 / real_fps] when it is
    not positive. *)
Definition frame_dt (i prev_f : Z) : result R :=
  if Py.eqb real_fps 0 then raise ZeroDivisionError
  else
    let dt := IZR (i - prev_f) / real_fps in
    if Rle_dec dt 0 then ret (1 / real_fps) else ret dt.

Definition kinematics_step (tracks : Tracks) (i : Z) (tid : option Z)
  (sat_coords : Vec2) : result (Tracks * Kinematics) :=
  match tid with
  | None => ret (tracks, Build_Kinematics 0 None false false)
  | Some tid =>
      let tracks :=
        if ZMap.mem tid (track_smoothers tracks) then tracks
        else Build_Tracks
               (ZMap.add tid (TrackSmoother.__init__ kinematics)
                  (track_smoothers tracks))
               (ZMap.add tid (i - 1)%Z (last_seen_frame tracks)) in
      let svg_h :=
        if use_svg then GProjection.get_svg_heading g_engine sat_coords
        else None in
      let prev_f :=
        match ZMap.find tid (last_seen_frame tracks) with
        | Some f => f
        | None => (i - 1)%Z
        end in
      dt <- frame_dt i prev_f ;;
      match ZMap.find tid (track_smoothers tracks) with
      | None => raise KeyError
      | Some smoother =>
          let '(smoother, k_res) :=
            TrackSmoother.update fitLine smoother sat_coords dt
              (GProjection.px_per_m g_engine) svg_h in
          let tracks :=
            Build_Tracks (ZMap.add tid smoother (track_smoothers tracks))
              (ZMap.add tid i (last_seen_frame tracks)) in
          let heading := TrackSmoother.heading k_res in
          let have_heading :=
            match heading with Some _ => true | None => false end in
          let speed :=
            if have_heading then TrackSmoother.speed_kmh k_res else 0 in
          ret (tracks,
               Build_Kinematics speed heading
                 (TrackSmoother.default_heading k_res) have_heading)
      end
  end.

End Loop.

(** [sat_floor_box = (corners @ R.T + sat_coords).tolist()]: the footprint
    of an object of width [w_m] and length [l_m], turned to its heading. *)
Definition sat_floor_box (heading w_m l_m px_m : R) (sat_coords : Vec2)
  : list Vec2 :=
  let ang := Py.radians heading in
  let c := cos ang in
  let s := sin ang in
  let dx := l_m * px_m / 2 in
  let dy := w_m * px_m / 2 in
  let corners := [(dx, dy); (dx, - dy); (- dx, - dy); (- dx, dy)] in
  map (fun corner =>
         Np.add (fst corner * c + snd corner * - s,
                 fst corner * s + snd corner * c) sat_coords)
      corners.

End Engine.

(** ** Upgrading a calibration to a larger frame

    [scripts/upgrade_g_projection.py]: the matrices of a calibration made at
    1280x720 are rescaled for frames 1.5 times larger. *)

Module Upgrade.

Definition SCALE : R := 1.5.

Definition S : Mat3.t := Mat3.mk SCALE 0 0 0 SCALE 0 0 0 1.

(** [S_INV = np.linalg.inv(S)], computed when the module is loaded. *)
Definition S_INV (lu_singular : Mat3.t -> option Mat3.t) : result Mat3.t :=
  GProjection.inv lu_singular (Some S).

Definition scale_K (K : Mat3.t) : Mat3.t := Mat3.matmul S K.

Definition scale_point (pt : Vec2) : Vec2 := (fst pt * SCALE, snd pt * SCALE).

(** [H_new = H @ S_INV]. *)
Definition H_new (lu_singular : Mat3.t -> option Mat3.t) (H : Mat3.t)
  : result Mat3.t :=
  s_inv <- S_INV lu_singular ;; ret (Mat3.matmul H s_inv).

End Upgrade.

(** ** Concrete inputs for the worked examples *)

(** A camera 10 m above the map origin. *)
Definition cam10 : GProjection.t :=
  GProjection.Build None None None None Mat3.identity 10 (0, 0) 1 None.

(** A factorisation that meets its zero pivot on every singular matrix, as
    exact arithmetic does. *)
Definition exact_lu : Mat3.t -> option Mat3.t := fun _ => None.



(** The single guideline of the spec's worked example. *)
Definition one_guideline : SVGParser.t := SVGParser.Build true [((0, 0), (10, 0))].

(** A line fit that always answers the x axis; the runs below never have
    the three positions the regression asks for. *)
Definition fit_x_axis : list Vec2 -> Vec2 := fun _ => (1, 0).

(** The state after the first call on a fresh smoother. *)
Definition first_state (config : TrackSmoother.Config) (pos : Vec2)
  : TrackSmoother.t :=
  TrackSmoother.set_speed_state
    (TrackSmoother.set_histories (TrackSmoother.__init__ config)
       (Deque.append (TrackSmoother.pos_history (TrackSmoother.__init__ config)) pos)
       (Deque.append (TrackSmoother.jitter_hist (TrackSmoother.__init__ config)) pos))
    (Some 0).

(** A smoother heading east at 36 km/h, fed a raw heading of 180 degrees. *)
Definition eastbound : TrackSmoother.t :=
  TrackSmoother.Build TrackSmoother.empty_config
    (Some 36) (Some (1, 0)) (Some (1, 0)) 0.05 0.6 5
    (Deque.Build 8 [(0, 0); (10, 0)]) (Deque.Build 8 [(0, 0); (10, 0)]) 0 200.

(** A smoother that holds a heading and has seen the origin once; it is shown
    the origin again. *)
Definition parked : TrackSmoother.t :=
  TrackSmoother.Build TrackSmoother.empty_config
    (Some 0) (Some (1, 0)) (Some (1, 0)) 0.05 0.6 5
    (Deque.Build 8 [(0, 0)]) (Deque.Build 8 [(0, 0)]) 0 200.

(** The calibration that [default_config] of [gui/utils/trafficlab_json.py]
    writes, and the core constructed from it. *)
Definition default_K : Mat3.t := Mat3.mk 1280 0 640 0 1280 360 0 0 1.

Definition default_config : GProjection.Config :=
  GProjection.Build_Config (Some default_K) (Some [0; 0; 0; 0; 0])
    (Some Mat3.identity) (Some 0) (Some 0) (Some 0) (Some 0).

Definition default_core : GProjection.t :=
  GProjection.Build (Some default_K) (Some [0; 0; 0; 0; 0]) (Some default_K)
    (Some Mat3.identity)
    (Mat3.mscale (/ Mat3.det Mat3.identity) (Mat3.adjugate Mat3.identity))
    0 (0, 0) 1 None.

(** A kinematics configuration whose [speed_ema_alpha] is 1.5, and a track
    seen at (0, 0), at (10, 0) and at (10, 0) again, one second apart, at
    1 px per metre. *)
Definition overshoot_config : TrackSmoother.Config :=
  TrackSmoother.Build_Config None None None (Some 1.5) None None.

Definition overshoot_calls : list TrackSmoother.Call :=
  [TrackSmoother.Build_Call (0, 0) 1 1 None;
   TrackSmoother.Build_Call (10, 0) 1 1 None;
   TrackSmoother.Build_Call (10, 0) 1 1 None].

(** OpenCV's two lens calls for a lens without distortion: undistortion with
    [P = K] leaves a pixel where it is, and projection is the pinhole map. *)
Definition no_undistortion : Mat3.t -> option (list R) -> Mat3.t -> Vec2 -> Vec2 :=
  fun _ _ _ p => p.

Definition pinhole : Mat3.t -> option (list R) -> R * R * R -> Vec2 :=
  fun k _ ray =>
    let '(x, y, _) := ray in
    (Mat3.m00 k * x + Mat3.m02 k, Mat3.m11 k * y + Mat3.m12 k).

(** A [line] element from (0, 0) to (10, 0) without a transform. *)
Definition line_element : SVGParser.element :=
  SVGParser.Element "line" None [] (Some 0) (Some 0) (Some 10) (Some 0) [] [].

(** The loop's dictionaries before the first frame. *)
Definition no_tracks : Engine.Tracks :=
  Engine.Build_Tracks (Engine.ZMap.empty TrackSmoother.t) (Engine.ZMap.empty Z).

(** * Properties *)

(** ** Comparisons *)

Lemma ltb_true (x y : R) : x < y -> Py.ltb x y = true.
Proof. intros Hlt. unfold Py.ltb. destruct (Rlt_dec x y); [reflexivity | contradiction]. Qed.

Lemma ltb_false (x y : R) : y <= x -> Py.ltb x y = false.
Proof. intros Hle. unfold Py.ltb. destruct (Rlt_dec x y); [lra | reflexivity]. Qed.

Lemma ltb_true_inv (x y : R) : Py.ltb x y = true -> x < y.
Proof. unfold Py.ltb. destruct (Rlt_dec x y); [trivial | discriminate]. Qed.

Lemma ltb_false_inv (x y : R) : Py.ltb x y = false -> y <= x.
Proof. unfold Py.ltb. destruct (Rlt_dec x y); [discriminate | intros _; lra]. Qed.

Lemma eqb_true (x y : R) : x = y -> Py.eqb x y = true.
Proof. intros Heq. unfold Py.eqb. destruct (Req_dec_T x y); [reflexivity | contradiction]. Qed.

Lemma eqb_false (x y : R) : x <> y -> Py.eqb x y = false.
Proof. intros Hne. unfold Py.eqb. destruct (Req_dec_T x y); [contradiction | reflexivity]. Qed.

Lemma or_else_nonneg (x : option R) :
  match x with Some v => 0 <= v | None => True end -> 0 <= Py.or_else x 0.
Proof.
  destruct x as [v |]; simpl; [| lra].
  intros Hv. unfold Py.eqb. destruct (Req_dec_T v 0); lra.
Qed.

(** ** Facts about the float modulo *)

Section ModFacts.

Lemma floor_spec (x : R) : IZR (Py.floor x) <= x < IZR (Py.floor x) + 1.
Proof.
  unfold Py.floor. destruct (base_Int_part x) as [H1 H2]. lra.
Qed.

Lemma floor_unique (x : R) (k : Z) : IZR k <= x < IZR k + 1 -> Py.floor x = k.
Proof.
  intros [H1 H2]. destruct (floor_spec x) as [H3 H4].
  assert (Hlt1 : (Py.floor x < k + 1)%Z).
  { apply lt_IZR. rewrite plus_IZR. simpl. lra. }
  assert (Hlt2 : (k < Py.floor x + 1)%Z).
  { apply lt_IZR. rewrite plus_IZR. simpl. lra. }
  lia.
Qed.

Lemma floor_add_int (x : R) (k : Z) : Py.floor (x + IZR k) = (Py.floor x + k)%Z.
Proof.
  apply floor_unique. rewrite plus_IZR.
  destruct (floor_spec x). lra.
Qed.

Variable m : R.
Hypothesis m_pos : 0 < m.

Lemma mod_range (x : R) : 0 <= Py.mod_ x m < m.
Proof.
  unfold Py.mod_. destruct (floor_spec (x / m)) as [H1 H2].
  assert (Hx : x = (x / m) * m) by (field; lra).
  split.
  - apply Rmult_le_compat_r with (r := m) in H1; lra.
  - apply Rmult_lt_compat_r with (r := m) in H2; lra.
Qed.

Lemma mod_add_period (x : R) (k : Z) : Py.mod_ (x + IZR k * m) m = Py.mod_ x m.
Proof.
  unfold Py.mod_.
  replace ((x + IZR k * m) / m) with (x / m + IZR k) by (field; lra).
  rewrite floor_add_int, plus_IZR. ring.
Qed.

Lemma mod_small (x : R) : 0 <= x < m -> Py.mod_ x m = x.
Proof.
  intros [H1 H2]. unfold Py.mod_.
  rewrite (floor_unique (x / m) 0).
  - simpl. ring.
  - simpl. split.
    + apply Rmult_le_pos; [lra | left; apply Rinv_0_lt_compat; lra].
    + apply Rmult_lt_reg_r with (r := m); [lra |].
      replace (x / m * m) with x by (field; lra). lra.
Qed.

(** [x % m] differs from [x] by a whole number of periods. *)
Lemma mod_congr (x : R) : exists k : Z, Py.mod_ x m = x + IZR k * m.
Proof.
  exists (- Py.floor (x / m))%Z. unfold Py.mod_. rewrite opp_IZR. ring.
Qed.

Lemma mod_mod_add (x y : R) : Py.mod_ (Py.mod_ x m + y) m = Py.mod_ (x + y) m.
Proof.
  destruct (mod_congr x) as [k Hk]. rewrite Hk.
  replace (x + IZR k * m + y) with (x + y + IZR k * m) by ring.
  apply mod_add_period.
Qed.

End ModFacts.

(** The shortest signed difference [(a - b + 180) % 360 - 180]. *)
Lemma wrap_range (x : R) : -180 <= Py.mod_ (x + 180) 360 - 180 < 180.
Proof. pose proof (mod_range 360 ltac:(lra) (x + 180)). lra. Qed.

Lemma wrap_small (x : R) : -180 <= x < 180 -> Py.mod_ (x + 180) 360 - 180 = x.
Proof. intros Hx. rewrite mod_small; lra. Qed.

Lemma wrap_congr (x y : R) (k : Z) :
  x = y + IZR k * 360 ->
  Py.mod_ (x + 180) 360 - 180 = Py.mod_ (y + 180) 360 - 180.
Proof.
  intros ->. replace (y + IZR k * 360 + 180) with (y + 180 + IZR k * 360) by ring.
  rewrite mod_add_period by lra. reflexivity.
Qed.

Lemma vec_to_deg_range (v : Vec2) : 0 <= vec_to_deg v < 360.
Proof. unfold vec_to_deg. apply mod_range. lra. Qed.

(** ** Angles and unit vectors *)

Lemma sin_cos_shift_pi (x : R) : sin x = - sin (x - PI) /\ cos x = - cos (x - PI).
Proof.
  split.
  - rewrite <- neg_sin. f_equal. ring.
  - rewrite <- neg_cos. f_equal. ring.
Qed.

Lemma sin_cos_quadrant (x : R) :
  - PI < x <= PI ->
  (- (PI / 2) < x < PI / 2 /\ 0 < cos x)
  \/ (x = PI / 2 /\ cos x = 0 /\ sin x = 1)
  \/ (x = - (PI / 2) /\ cos x = 0 /\ sin x = -1)
  \/ (PI / 2 < x /\ cos x < 0 /\ 0 <= sin x)
  \/ (x < - (PI / 2) /\ cos x < 0 /\ sin x < 0).
Proof.
  intros [Hlo Hhi]. pose proof PI_RGT_0 as Hpi.
  destruct (Rtotal_order x (PI / 2)) as [Hlt | [Heq | Hgt]].
  - destruct (Rtotal_order x (- (PI / 2))) as [Hlt' | [Heq' | Hgt']].
    + right. right. right. right. split; [exact Hlt' |]. split.
      * rewrite <- cos_neg. apply cos_lt_0; lra.
      * apply sin_lt_0_var; lra.
    + right. right. left. subst x. split; [reflexivity |].
      rewrite cos_neg, sin_neg, cos_PI2, sin_PI2. split; lra.
    + left. split; [lra |]. apply cos_gt_0; lra.
  - right. left. subst x. rewrite cos_PI2, sin_PI2. auto.
  - right. right. right. left. split; [exact Hgt |]. split.
    + apply cos_lt_0; lra.
    + apply sin_ge_0; lra.
Qed.

(** [atan2] inverts [(cos, sin)] on (-pi, pi]. *)
Lemma atan2_sin_cos (x : R) : - PI < x <= PI -> Py.atan2 (sin x) (cos x) = x.
Proof.
  intros Hx. pose proof PI_RGT_0 as Hpi. unfold Py.atan2.
  destruct (sin_cos_quadrant x Hx)
    as [[Hr Hc] | [(-> & Hc & Hs) | [(-> & Hc & Hs) | [(Hr & Hc & Hs) | (Hr & Hc & Hs)]]]].
  - destruct (Rlt_dec 0 (cos x)); [| contradiction].
    apply (atan_tan x). exact Hr.
  - rewrite Hc, Hs.
    destruct (Rlt_dec 0 0); [lra |]. destruct (Rlt_dec 0 1); [reflexivity | lra].
  - rewrite Hc, Hs.
    destruct (Rlt_dec 0 0); [lra |]. destruct (Rlt_dec 0 (-1)); [lra |].
    destruct (Rlt_dec (-1) 0); [reflexivity | lra].
  - destruct (Rlt_dec 0 (cos x)); [lra |]. destruct (Rlt_dec (cos x) 0); [| lra].
    destruct (Rle_dec 0 (sin x)); [| lra].
    destruct (sin_cos_shift_pi x) as [Es Ec].
    replace (sin x / cos x) with (tan (x - PI))
      by (unfold tan; rewrite Es, Ec; field; lra).
    rewrite atan_tan by lra. ring.
  - destruct (Rlt_dec 0 (cos x)); [lra |]. destruct (Rlt_dec (cos x) 0); [| lra].
    destruct (Rle_dec 0 (sin x)); [lra |].
    assert (Es : sin x = - sin (x + PI)) by (rewrite neg_sin; ring).
    assert (Ec : cos x = - cos (x + PI)) by (rewrite neg_cos; ring).
    replace (sin x / cos x) with (tan (x + PI))
      by (unfold tan; rewrite Es, Ec; field; lra).
    rewrite atan_tan by lra. ring.
Qed.

Lemma sin_cos_minus_2PI (x : R) : sin (x - 2 * PI) = sin x /\ cos (x - 2 * PI) = cos x.
Proof.
  split.
  - rewrite sin_minus, sin_2PI, cos_2PI. ring.
  - rewrite cos_minus, sin_2PI, cos_2PI. ring.
Qed.

(** Reading back the angle of the unit vector of a heading in [0, 360)
    gives the heading. *)
Lemma vec_to_deg_unit_vec (d : R) :
  0 <= d < 360 -> vec_to_deg (TrackSmoother.unit_vec d) = d.
Proof.
  intros Hd. pose proof PI_RGT_0 as Hpi.
  unfold vec_to_deg, TrackSmoother.unit_vec, Py.radians, Py.degrees. simpl.
  set (rad := d * PI / 180).
  assert (Hrad : 0 <= rad < 2 * PI).
  { unfold rad. split.
    - apply Rmult_le_pos; [apply Rmult_le_pos |]; lra.
    - apply Rmult_lt_reg_r with (r := 180 / PI).
      + apply Rdiv_lt_0_compat; lra.
      + replace (d * PI / 180 * (180 / PI)) with d by (field; lra).
        replace (2 * PI * (180 / PI)) with 360 by (field; lra). lra. }
  assert (Hd' : d = rad * 180 / PI) by (unfold rad; field; lra).
  destruct (Rle_dec rad PI) as [Hle | Hgt].
  - rewrite atan2_sin_cos by lra. rewrite <- Hd'.
    replace (d + 360) with (d + IZR 1 * 360) by lra.
    rewrite mod_add_period by lra. apply mod_small; lra.
  - destruct (sin_cos_minus_2PI rad) as [Es Ec]. rewrite <- Es, <- Ec.
    rewrite atan2_sin_cos by lra.
    replace ((rad - 2 * PI) * 180 / PI + 360) with d by (rewrite Hd'; field; lra).
    apply mod_small; lra.
Qed.

(** ** Parallax *)

Section Parallax.

Import GProjection.

(** C1, as stated, fails: with [z_cam = 10] and [h = 9.995] (so
    [0 < h < z_cam]) the point [(100, 0)] is corrected to [(0.05, 0)], and the
    projection back returns its argument unchanged because
    [|z_cam - h| < 0.01]; the round trip is off by 99.95 map pixels. *)
Lemma parallax_round_trip_near_camera_height :
  0 < 9.995 < z_cam cam10 /\
  parallax_project_real_to_ground cam10
    (parallax_correct_ground_to_real cam10 (100, 0) 9.995) 9.995 = (0.05, 0) /\
  parallax_project_real_to_ground cam10
    (parallax_correct_ground_to_real cam10 (100, 0) 9.995) 9.995 <> (100, 0).
Proof.
  assert (Hrt : parallax_project_real_to_ground cam10
    (parallax_correct_ground_to_real cam10 (100, 0) 9.995) 9.995 = (0.05, 0)).
  { unfold parallax_project_real_to_ground, parallax_correct_ground_to_real.
    simpl. rewrite eqb_false by lra.
    rewrite ltb_true by (rewrite Rabs_pos_eq; lra).
    unfold Np.add, Np.scale, Np.sub. simpl. apply (f_equal2 pair); lra. }
  split; [simpl; lra |]. split; [exact Hrt |].
  rewrite Hrt. intros Heq. apply (f_equal fst) in Heq. simpl in Heq. lra.
Qed.

(** C1 (amended): for a camera height [z_cam > 0] and an object height [h]
    with [0 < h < z_cam] that stays at least 0.01 below the camera
    ([z_cam - h >= 0.01]), projecting the corrected point back gives the
    point again, and so does correcting the projected point: on this range
    the two parallax operations are inverses of each other. *)
Theorem parallax_round_trip (self : GProjection.t) (p : Vec2) (h : R) :
  0 < h -> h < z_cam self -> 0.01 <= z_cam self - h ->
  parallax_project_real_to_ground self (parallax_correct_ground_to_real self p h) h = p
  /\ parallax_correct_ground_to_real self (parallax_project_real_to_ground self p h) h = p.
Proof.
  intros Hh Hz Hgap.
  unfold parallax_project_real_to_ground, parallax_correct_ground_to_real.
  rewrite eqb_false by lra.
  rewrite ltb_false by (rewrite Rabs_pos_eq; lra).
  destruct p as [x y], (cam_sat self) as [cx cy].
  unfold Np.add, Np.scale, Np.sub. simpl.
  split; apply (f_equal2 pair); field; lra.
Qed.

Lemma parallax_round_trip_witness :
  parallax_project_real_to_ground cam10
    (parallax_correct_ground_to_real cam10 (100, 0) 1.6) 1.6 = (100, 0)
  /\ parallax_correct_ground_to_real cam10
       (parallax_project_real_to_ground cam10 (100, 0) 1.6) 1.6 = (100, 0).
Proof.
  apply (parallax_round_trip cam10 (100, 0) 1.6); simpl; lra.
Defined.

(** The spec's worked example: camera at 10 m over the origin, object height
    1.6 m, apparent point (100, 0) gives the real point (84, 0). *)
Example parallax_correct_example :
  parallax_correct_ground_to_real cam10 (100, 0) 1.6 = (84, 0).
Proof.
  unfold parallax_correct_ground_to_real. simpl. rewrite eqb_false by lra.
  unfold Np.add, Np.scale, Np.sub. simpl. apply (f_equal2 pair); lra.
Qed.

End Parallax.

(** ** Construction of the projection core *)

Section Construction.

Import GProjection.

Variable lu_singular : Mat3.t -> option Mat3.t.

Lemma inv_is_inverse (a b : Mat3.t) :
  Mat3.det a <> 0 ->
  inv lu_singular (Some a) = ret b ->
  Mat3.matmul a b = Mat3.identity /\ Mat3.matmul b a = Mat3.identity.
Proof.
  intros Hd. unfold inv. rewrite eqb_false by exact Hd.
  intros Hb. injection Hb as <-.
  destruct a as [a00 a01 a02 a10 a11 a12 a20 a21 a22].
  unfold Mat3.det in *. simpl in *.
  unfold Mat3.matmul, Mat3.mscale, Mat3.adjugate, Mat3.identity, Mat3.det. simpl.
  split; f_equal; field; exact Hd.
Qed.



(** What a core that was constructed holds. *)
Lemma constructed_fields (config : Config) (svg : option SVGParser.t)
  (g : GProjection.t) :
  __init__ lu_singular config svg = ret g ->
  K g = undistort_K config /\ D g = undistort_D config /\
  P g = undistort_K config /\ H g = homography_H config /\
  inv lu_singular (homography_H config) = ret (H_inv g).
Proof.
  unfold __init__, _init_matrices.
  destruct (inv lu_singular (homography_H config)) as [e | hi]; simpl;
    [discriminate |].
  destruct (_init_parallax config) as [[z c] px].
  intros Hg. injection Hg as <-. simpl. repeat split; reflexivity.
Qed.


End Construction.

Section ConstructionInstances.

Import GProjection.





End ConstructionInstances.

(** ** Guideline snapping *)

Section Snapping.

Import TrackSmoother.

(** C6: write [diff] for the shortest signed difference between the heading
    and the guideline heading.  When [|diff| < 15] the snapped heading lies in
    [0, 360), is displaced from the heading by exactly 30% of [diff] towards
    the guideline, and is left at exactly 70% of [diff] from the guideline;
    when [|diff| >= 15] the heading is returned unchanged. *)
Theorem apply_snapping_spec (current_heading svg_heading : R) :
  let diff := Py.mod_ (current_heading - svg_heading + 180) 360 - 180 in
  let snapped := _apply_snapping current_heading svg_heading in
  (Rabs diff < 15 ->
     0 <= snapped < 360 /\
     Py.mod_ (snapped - current_heading + 180) 360 - 180 = - (0.3 * diff) /\
     Py.mod_ (snapped - svg_heading + 180) 360 - 180 = 0.7 * diff)
  /\ (15 <= Rabs diff -> snapped = current_heading).
Proof.
  intros diff snapped. subst snapped. unfold _apply_snapping. fold diff.
  split.
  - intros Hd. rewrite ltb_true by exact Hd.
    assert (Habs : -15 < diff < 15) by (apply Rabs_def2 in Hd; lra).
    split; [apply mod_range; lra |].
    destruct (mod_congr 360 (current_heading - diff * 0.3 + 360)) as [k Hk].
    destruct (mod_congr 360 (current_heading - svg_heading + 180)) as [j Hj].
    rewrite Hk. split.
    + rewrite (wrap_congr _ (- (0.3 * diff)) (k + 1)).
      * apply wrap_small. lra.
      * rewrite plus_IZR. lra.
    + rewrite (wrap_congr _ (0.7 * diff) (k + 1 - j)).
      * apply wrap_small. lra.
      * rewrite minus_IZR, plus_IZR. unfold diff in *. rewrite Hj. lra.
  - intros Hd. rewrite ltb_false by exact Hd. reflexivity.
Qed.

(** A heading of 10 degrees against a guideline at 0 degrees is pulled to
    7 degrees. *)
Lemma apply_snapping_spec_witness :
  0 <= _apply_snapping 10 0 < 360 /\
  Py.mod_ (_apply_snapping 10 0 - 10 + 180) 360 - 180
    = - (0.3 * (Py.mod_ (10 - 0 + 180) 360 - 180)) /\
  Py.mod_ (_apply_snapping 10 0 - 0 + 180) 360 - 180
    = 0.7 * (Py.mod_ (10 - 0 + 180) 360 - 180).
Proof.
  apply (proj1 (apply_snapping_spec 10 0)).
  rewrite mod_small by lra. rewrite Rabs_pos_eq; lra.
Defined.

Example apply_snapping_example : _apply_snapping 10 0 = 7.
Proof.
  unfold _apply_snapping.
  replace (Py.mod_ (10 - 0 + 180) 360 - 180) with 10 by (rewrite mod_small; lra).
  rewrite ltb_true by (rewrite Rabs_pos_eq; lra).
  replace (10 - 10 * 0.3 + 360) with (7 + IZR 1 * 360) by lra.
  rewrite mod_add_period by lra. apply mod_small; lra.
Qed.

End Snapping.

(** ** Nearest guideline heading *)

Section NearestHeading.

Import SVGParser.

Variable pt : Vec2.

Lemma scan_segment_invariant (seen : list (Vec2 * Vec2)) (st : dist * option R)
  (seg : Vec2 * Vec2) :
  scan_invariant pt seen st ->
  scan_invariant pt (seen ++ [seg]) (scan_segment pt st seg).
Proof.
  intros Hinv. destruct seg as [sp1 sp2]. unfold scan_segment.
  change (Np.sub sp2 sp1) with (direction (sp1, sp2)).
  change (Np.norm (Np.sub pt (closest_point pt sp1 sp2)))
    with (distance pt (sp1, sp2)).
  assert (Hlast : In (sp1, sp2) (seen ++ [(sp1, sp2)]))
    by (apply in_or_app; right; apply in_eq).
  destruct (Py.ltb (Np.dot (direction (sp1, sp2)) (direction (sp1, sp2))) 1e-6)
    eqn:Hskip.
  - (* the segment is skipped *)
    apply ltb_true_inv in Hskip.
    destruct st as [[| d] [a |]]; simpl in *; try contradiction.
    + intros s Hs. apply in_app_or in Hs. destruct Hs as [Hs | [<- | []]]; auto.
    + destruct Hinv as (s & Hin & Hns & Hd & Ha & Hmin).
      exists s. split; [apply in_or_app; left; exact Hin |].
      split; [exact Hns |]. split; [exact Hd |]. split; [exact Ha |].
      intros s' Hs' Hns'. apply in_app_or in Hs'.
      destruct Hs' as [Hs' | [<- | []]]; [auto | contradiction].
  - apply ltb_false_inv in Hskip.
    assert (Hns : ~ skipped (sp1, sp2)) by (unfold skipped; lra).
    destruct st as [[| d] [a |]]; simpl in *; try contradiction.
    + (* the first segment that is not skipped *)
      exists (sp1, sp2). split; [exact Hlast |].
      split; [exact Hns |]. split; [reflexivity |]. split; [reflexivity |].
      intros s' Hs' Hns'. apply in_app_or in Hs'.
      destruct Hs' as [Hs' | [<- | []]]; [| lra].
      exfalso. apply Hns'. apply Hinv. exact Hs'.
    + destruct Hinv as (s & Hin & Hns0 & Hd & Ha & Hmin).
      destruct (Py.ltb (distance pt (sp1, sp2)) d) eqn:Hlt; simpl.
      * apply ltb_true_inv in Hlt.
        exists (sp1, sp2). split; [exact Hlast |].
        split; [exact Hns |]. split; [reflexivity |]. split; [reflexivity |].
        intros s' Hs' Hns'. apply in_app_or in Hs'.
        destruct Hs' as [Hs' | [<- | []]]; [| lra].
        specialize (Hmin s' Hs' Hns'). lra.
      * apply ltb_false_inv in Hlt.
        exists s. split; [apply in_or_app; left; exact Hin |].
        split; [exact Hns0 |]. split; [exact Hd |]. split; [exact Ha |].
        intros s' Hs' Hns'. apply in_app_or in Hs'.
        destruct Hs' as [Hs' | [<- | []]]; [auto | lra].
Qed.

Lemma fold_scan_invariant (segs seen : list (Vec2 * Vec2)) (st : dist * option R) :
  scan_invariant pt seen st ->
  scan_invariant pt (seen ++ segs) (fold_left (scan_segment pt) segs st).
Proof.
  revert seen st. induction segs as [| seg segs IH]; intros seen st Hinv; simpl.
  - rewrite app_nil_r. exact Hinv.
  - replace (seen ++ seg :: segs) with ((seen ++ [seg]) ++ segs)
      by (rewrite <- app_assoc; reflexivity).
    apply IH. apply scan_segment_invariant. exact Hinv.
Qed.

Lemma scan_spec (segs : list (Vec2 * Vec2)) : scan_invariant pt segs (scan pt segs).
Proof.
  unfold scan. apply (fold_scan_invariant segs [] (Inf, None)).
  simpl. intros seg [].
Qed.

(** X11: the clamped projection is the point of the segment nearest to [pt]:
    no point [sp1 + s * (sp2 - sp1)] with [0 <= s <= 1] is closer. *)
Lemma closest_point_nearest (sp1 sp2 : Vec2) (s : R) :
  ~ skipped (sp1, sp2) -> 0 <= s <= 1 ->
  distance pt (sp1, sp2)
    <= Np.norm (Np.sub pt (Np.add sp1 (Np.scale s (direction (sp1, sp2))))).
Proof.
  intros Hns Hs. unfold skipped in Hns. apply Rnot_lt_le in Hns.
  unfold distance, closest_point. cbn [fst snd].
  change (Np.sub sp2 sp1) with (direction (sp1, sp2)) in *.
  destruct (direction (sp1, sp2)) as [ax ay].
  destruct pt as [x y], sp1 as [x1 y1].
  unfold Np.norm, Np.sub, Np.add, Np.scale, Np.dot in *. cbn [fst snd] in *.
  set (A := ax * ax + ay * ay) in *.
  set (px := x - x1). set (py := y - y1).
  set (t := (px * ax + py * ay) / A).
  assert (HA : 0 < A) by lra.
  assert (Ht : px * ax + py * ay = t * A) by (unfold t; field; lra).
  apply sqrt_le_1_alt.
  assert (Hquad : forall c, (s - c) * (s + c - 2 * t) >= 0 ->
    (x - (x1 + c * ax)) * (x - (x1 + c * ax)) + (y - (y1 + c * ay)) * (y - (y1 + c * ay))
    <= (x - (x1 + s * ax)) * (x - (x1 + s * ax)) + (y - (y1 + s * ay)) * (y - (y1 + s * ay))).
  { intros c Hc.
    replace ((x - (x1 + s * ax)) * (x - (x1 + s * ax)) + (y - (y1 + s * ay)) * (y - (y1 + s * ay)))
      with ((x - (x1 + c * ax)) * (x - (x1 + c * ax)) + (y - (y1 + c * ay)) * (y - (y1 + c * ay))
            + ((s - c) * (s + c - 2 * t)) * A).
    - assert (0 <= (s - c) * (s + c - 2 * t) * A) by (apply Rmult_le_pos; lra). lra.
    - fold px py. replace (x - (x1 + c * ax)) with (px - c * ax) by (unfold px; ring).
      replace (y - (y1 + c * ay)) with (py - c * ay) by (unfold py; ring).
      replace (x - (x1 + s * ax)) with (px - s * ax) by (unfold px; ring).
      replace (y - (y1 + s * ay)) with (py - s * ay) by (unfold py; ring).
      replace ((s - c) * (s + c - 2 * t) * A)
        with ((s * s - c * c) * A - 2 * (s - c) * (t * A)) by ring.
      rewrite <- Ht. unfold A. ring. }
  apply Hquad. clear Hquad Ht. clearbody t. unfold Np.clip, Rmin, Rmax.
  destruct (Rle_dec t 0); destruct (Rle_dec _ 1); try lra.
  - assert (0 <= s * (s - 2 * t)) by (apply Rmult_le_pos; lra). lra.
  - replace ((s - t) * (s + t - 2 * t)) with ((s - t) * (s - t)) by ring.
    pose proof (Rle_0_sqr (s - t)) as Hsq. unfold Rsqr in Hsq. lra.
  - replace ((s - 1) * (s + 1 - 2 * t)) with ((1 - s) * (2 * t - 1 - s)) by ring.
    assert (0 <= (1 - s) * (2 * t - 1 - s)) by (apply Rmult_le_pos; lra). lra.
Qed.

End NearestHeading.

Section NearestHeadingSpec.

Import SVGParser.

Lemma atan2_pos_x_axis (x : R) : 0 < x -> Py.atan2 0 x = 0.
Proof.
  intros Hx. unfold Py.atan2. destruct (Rlt_dec 0 x); [| contradiction].
  replace (0 / x) with 0 by (field; lra). apply atan_0.
Qed.

Lemma clip_inside (x lo hi : R) : lo <= x <= hi -> Np.clip x lo hi = x.
Proof.
  intros [Hlo Hhi]. unfold Np.clip. rewrite Rmax_left by exact Hlo.
  apply Rmin_left. exact Hhi.
Qed.

Lemma closest_point_example : closest_point (5, 3) (0, 0) (10, 0) = (5, 0).
Proof.
  unfold closest_point, Np.dot, Np.sub, Np.add, Np.scale. simpl.
  rewrite clip_inside by lra. apply (f_equal2 pair); lra.
Qed.

Lemma nearest_heading_example : get_nearest_heading one_guideline (5, 3) = Some 0.
Proof.
  unfold get_nearest_heading, one_guideline, scan. simpl.
  unfold scan_segment. rewrite closest_point_example.
  unfold Np.sub, Np.dot. simpl.
  rewrite ltb_false by lra. simpl.
  replace (10 - 0) with 10 by lra. replace (0 - 0) with 0 by lra.
  rewrite atan2_pos_x_axis by lra.
  unfold Py.degrees. replace (0 * 180 / PI + 360) with (0 + IZR 1 * 360).
  - rewrite mod_add_period by lra. rewrite mod_small by lra. reflexivity.
  - field. apply PI_neq0.
Qed.

(** C7: [get_nearest_heading] returns [None] when the index did not load or
    holds no segment.  When it returns a heading, the heading lies in
    [0, 360) and is the normalised [atan2] angle of the direction of a
    segment that was not skipped (its squared length is at least 1e-6) and
    whose clamped-projection point is at least as close to the query point as
    that of every other segment that was not skipped; and it does return a
    heading when the index loaded and some segment is not skipped.  For the
    single segment (0,0)-(10,0) and the query point (5,3) the nearest point
    is (5,0) and the heading is 0. *)
Theorem get_nearest_heading_spec (self : SVGParser.t) (pt : Vec2) :
  (valid self = false \/ orientation_segments self = [] ->
     get_nearest_heading self pt = None)
  /\ (forall h, get_nearest_heading self pt = Some h ->
        0 <= h < 360 /\
        exists seg, In seg (orientation_segments self) /\ ~ skipped seg /\
          h = Py.mod_ (angle seg + 360) 360 /\
          forall seg', In seg' (orientation_segments self) -> ~ skipped seg' ->
            distance pt seg <= distance pt seg')
  /\ (valid self = true ->
      (exists seg, In seg (orientation_segments self) /\ ~ skipped seg) ->
      exists h, get_nearest_heading self pt = Some h)
  /\ closest_point (5, 3) (0, 0) (10, 0) = (5, 0)
  /\ get_nearest_heading one_guideline (5, 3) = Some 0.
Proof.
  split; [| split; [| split; [| split]]].
  - intros [Hv | Hs]; unfold get_nearest_heading.
    + rewrite Hv. reflexivity.
    + rewrite Hs, orb_true_r. reflexivity.
  - intros h. unfold get_nearest_heading.
    destruct (negb (valid self) || _); [discriminate |].
    pose proof (scan_spec pt (orientation_segments self)) as Hinv.
    destruct (scan pt (orientation_segments self)) as [[| d] [a |]];
      simpl in *; try contradiction; try discriminate.
    intros Hh. injection Hh as <-.
    split; [apply mod_range; lra |].
    destruct Hinv as (seg & Hin & Hns & Hd & Ha & Hmin).
    exists seg. subst a d. auto.
  - intros Hv (seg & Hin & Hns). unfold get_nearest_heading. rewrite Hv.
    destruct (orientation_segments self) as [| s0 segs] eqn:Hsegs; [destruct Hin |].
    simpl negb. simpl orb. cbv iota.
    pose proof (scan_spec pt (s0 :: segs)) as Hinv.
    destruct (scan pt (s0 :: segs)) as [[| d] [a |]];
      simpl in Hinv |- *; try contradiction.
    + exfalso. apply Hns. apply Hinv. exact Hin.
    + eexists. reflexivity.
  - exact closest_point_example.
  - exact nearest_heading_example.
Qed.

Lemma get_nearest_heading_spec_witness :
  exists h, get_nearest_heading one_guideline (7, -2) = Some h.
Proof.
  apply (proj1 (proj2 (proj2 (get_nearest_heading_spec one_guideline (7, -2))))).
  - reflexivity.
  - exists ((0, 0), (10, 0)). split; [apply in_eq |].
    unfold skipped, direction, Np.dot, Np.sub. simpl. lra.
Defined.

End NearestHeadingSpec.

(** ** The track smoother *)

Section Smoother.

Import TrackSmoother.

Variable fitLine : list Vec2 -> Vec2.

(** *** Fields that calls leave alone *)

Lemma smooth_heading_frame (self : t) (raw_deg speed : R) :
  let self' := fst (_smooth_heading self raw_deg speed) in
  cfg self' = cfg self /\ speed_state self' = speed_state self /\
  pos_history self' = pos_history self /\ jitter_hist self' = jitter_hist self /\
  max_physics_speed self' = max_physics_speed self.
Proof.
  unfold _smooth_heading.
  destruct (heading_vec_state
              (set_velocity_vec_state self _)); simpl; auto.
Qed.

Lemma update_frame (self : t) (pos : Vec2) (dt px : R) (svg : option R) :
  let self' := fst (update fitLine self pos dt px svg) in
  cfg self' = cfg self /\ max_physics_speed self' = max_physics_speed self.
Proof.
  unfold update.
  destruct (gate_rejects self pos dt px); [simpl; auto |].
  destruct (raw_motion fitLine _ pos dt px) as [raw_speed [raw |]].
  - destruct (Py.gtb raw_speed _ && negb _).
    + match goal with
      | |- context [_smooth_heading ?s ?r ?v] =>
          pose proof (smooth_heading_frame s r v) as Hf;
          destruct (_smooth_heading s r v) as [s' out]
      end.
      simpl in *. destruct Hf as (Hc & _ & _ & _ & Hm). auto.
    + destruct (keep_heading _ svg). simpl. auto.
  - destruct (keep_heading _ svg). simpl. auto.
Qed.

Lemma run_frame (calls : list Call) (self : t) :
  let self' := fst (run fitLine self calls) in
  cfg self' = cfg self /\ max_physics_speed self' = max_physics_speed self.
Proof.
  revert self. induction calls as [| c calls IH]; intros self; simpl; [auto |].
  pose proof (update_frame self (call_pos c) (call_dt c) (call_px_per_m c)
                (call_svg_heading c)) as Hu.
  unfold update_call.
  destruct (update fitLine self _ _ _ _) as [s1 out].
  specialize (IH s1). destruct (run fitLine s1 calls) as [s2 outs].
  simpl in *. destruct Hu as [Hc Hm], IH as [Hc' Hm']. split; congruence.
Qed.

(** A call that passes the gate appends the position to both windows. *)
Lemma update_histories (self : t) (pos : Vec2) (dt px : R) (svg : option R) :
  gate_rejects self pos dt px = false ->
  pos_history (fst (update fitLine self pos dt px svg))
    = Deque.append (pos_history self) pos /\
  jitter_hist (fst (update fitLine self pos dt px svg))
    = Deque.append (jitter_hist self) pos.
Proof.
  intros Hgate. unfold update. rewrite Hgate.
  destruct (raw_motion fitLine _ pos dt px) as [raw_speed [raw |]].
  - destruct (Py.gtb raw_speed _ && negb _).
    + match goal with
      | |- context [_smooth_heading ?s ?r ?v] =>
          pose proof (smooth_heading_frame s r v) as Hf;
          destruct (_smooth_heading s r v) as [s' out]
      end.
      simpl in *. destruct Hf as (_ & _ & Hp & Hj & _). auto.
    + destruct (keep_heading _ svg). simpl. auto.
  - destruct (keep_heading _ svg). simpl. auto.
Qed.

(** *** The deque *)

Lemma from_end_last (d : Deque.t) (older : list Vec2) (prev : Vec2) :
  Deque.items d = older ++ [prev] -> Deque.from_end d 1 = prev.
Proof.
  intros Hi. unfold Deque.from_end, Deque.len. rewrite Hi.
  rewrite length_app. simpl.
  replace (length older + 1 - 1)%nat with (length older) by lia.
  rewrite app_nth2 by lia. rewrite Nat.sub_diag. reflexivity.
Qed.

Lemma or_else_zero (x : option R) :
  Py.or_else x 0 = match x with Some v => v | None => 0 end.
Proof.
  destruct x as [v |]; simpl; [| reflexivity].
  unfold Py.eqb. destruct (Req_dec_T v 0); congruence.
Qed.

(** *** The physics gate *)

(** C3: take a smoother built by [__init__] and used for any number of
    calls.  If its position history ends in a position [prev], [dt > 0], and
    the speed implied by the displacement from [prev], converted with
    [px_per_m], exceeds 200 km/h, then [update] returns the previous smoothed
    speed (0 if there is none) and the previous smoothed heading (null if
    there is none) with [default_heading = False], and leaves the whole
    smoother state as it was. *)
Theorem physics_gate_rejects_update (config : Config) (calls : list Call)
  (older : list Vec2) (prev pos : Vec2) (dt px : R) (svg : option R) :
  let self := fst (run fitLine (__init__ config) calls) in
  Deque.items (pos_history self) = older ++ [prev] ->
  0 < dt ->
  Np.norm (Np.sub pos prev) / px / dt * 3.6 > 200 ->
  update fitLine self pos dt px svg =
    (self,
     Build_Output
       (match speed_state self with Some v => v | None => 0 end)
       (match heading_vec_state self with
        | Some v => Some (vec_to_deg v)
        | None => None
        end)
       false).
Proof.
  intros self Hhist Hdt Hfast.
  assert (Hmax : max_physics_speed self = 200).
  { subst self. destruct (run_frame calls (__init__ config)) as [_ ->]. reflexivity. }
  assert (Hgate : gate_rejects self pos dt px = true).
  { unfold gate_rejects, Py.gtb. rewrite ltb_true by exact Hdt.
    unfold Deque.len at 1. rewrite Hhist, length_app. simpl.
    replace (0 <? length older + 1)%nat with true
      by (symmetry; apply Nat.ltb_lt; lia).
    simpl. rewrite (from_end_last _ older prev Hhist), Hmax.
    apply ltb_true. lra. }
  unfold update. rewrite Hgate, or_else_zero.
  destruct (heading_vec_state self); reflexivity.
Qed.

(** *** The first observation *)

Lemma append_empty_len (n : nat) (x : Vec2) :
  (Deque.len (Deque.append (Deque.empty n) x) <= 1)%nat.
Proof.
  unfold Deque.len, Deque.append. simpl.
  destruct n; simpl; lia.
Qed.

Lemma gate_accepts_first (config : Config) (pos : Vec2) (dt px : R) :
  gate_rejects (__init__ config) pos dt px = false.
Proof. unfold gate_rejects. simpl. rewrite andb_false_r. reflexivity. Qed.

Lemma first_update (config : Config) (pos : Vec2) (dt px : R) (svg : option R) :
  update fitLine (__init__ config) pos dt px svg =
    (first_state config pos,
     Build_Output 0 svg (match svg with Some _ => true | None => false end)).
Proof.
  unfold update. rewrite gate_accepts_first.
  assert (Hraw : forall s, pos_history s = Deque.append (Deque.empty 8) pos ->
            raw_motion fitLine s pos dt px = (0, None)).
  { intros s Hs. unfold raw_motion. rewrite Hs. simpl.
    rewrite andb_false_r. reflexivity. }
  rewrite Hraw by reflexivity.
  unfold keep_heading, _smooth_speed, first_state. simpl.
  destruct svg; simpl; rewrite eqb_true by reflexivity; reflexivity.
Qed.

(** C9: on the first call of a freshly constructed smoother, whatever the
    position, [dt], [px_per_m] and configuration, the physics gate does not
    reject, the returned speed is 0, and the returned heading is the supplied
    guideline heading with [default_heading = True], or null with
    [default_heading = False] when none is supplied. *)
Theorem first_observation (config : Config) (pos : Vec2) (dt px : R)
  (svg : option R) :
  let out := snd (update fitLine (__init__ config) pos dt px svg) in
  gate_rejects (__init__ config) pos dt px = false /\
  speed_kmh out = 0 /\
  match svg with
  | Some g => heading out = Some g /\ default_heading out = true
  | None => heading out = None /\ default_heading out = false
  end.
Proof.
  intros out. subst out. rewrite first_update, gate_accepts_first. simpl.
  destruct svg; auto.
Qed.

(** *** The heading jump clamp *)

Lemma clip_symmetric_bounds (x m : R) : 0 <= m -> - m <= Np.clip x (- m) m <= m.
Proof.
  intros Hm. unfold Np.clip, Rmin, Rmax.
  destruct (Rle_dec x (- m)); destruct (Rle_dec _ m); lra.
Qed.

(** C4: in a heading-smoothing step that finds a previous heading vector
    (and a configured [heading_max_jump >= 0], 5 by default), the shortest
    signed difference between the returned heading and the previous heading
    has magnitude at most [heading_max_jump]; and the heading vector stored
    by the step reads back as the returned heading, which is the previous
    heading of the next step. *)
Theorem smooth_heading_jump_clamped (self : t) (prev_vec : Vec2)
  (raw_deg speed_kmh : R) :
  heading_vec_state self = Some prev_vec ->
  0 <= Py.get (heading_max_jump (cfg self)) 5 ->
  let out := snd (_smooth_heading self raw_deg speed_kmh) in
  Rabs (Py.mod_ (out - vec_to_deg prev_vec + 180) 360 - 180)
    <= Py.get (heading_max_jump (cfg self)) 5
  /\ exists v, heading_vec_state (fst (_smooth_heading self raw_deg speed_kmh))
                 = Some v /\ vec_to_deg v = out.
Proof.
  intros Hprev Hmj out. subst out. unfold _smooth_heading.
  cbn [heading_vec_state set_velocity_vec_state cfg h_speed_ref h_alpha_min h_alpha_max].
  rewrite Hprev.
  set (mj := Py.get (heading_max_jump (cfg self)) 5) in *.
  set (prev_deg := vec_to_deg prev_vec).
  match goal with
  | |- context [Py.gtb (Rabs (Py.mod_ (?t - prev_deg + 180) 360 - 180)) mj] =>
      set (target_deg := t)
  end.
  set (delta := Py.mod_ (target_deg - prev_deg + 180) 360 - 180).
  pose proof (wrap_range (target_deg - prev_deg)) as Hdelta. fold delta in Hdelta.
  cbn [fst snd heading_vec_state set_heading_vec_state].
  split.
  2:{ eexists. split; [reflexivity |]. apply vec_to_deg_unit_vec.
      destruct (Py.gtb (Rabs delta) mj);
        [apply mod_range; lra | apply vec_to_deg_range]. }
  unfold Py.gtb. destruct (Py.ltb mj (Rabs delta)) eqn:Hjump.
  - (* the jump is clamped *)
    apply ltb_true_inv in Hjump.
    assert (Hsmall : mj < 180 \/ delta = -180).
    { unfold Rabs in Hjump. destruct (Rcase_abs delta); lra. }
    pose proof (clip_symmetric_bounds delta mj Hmj) as Hclip.
    set (c := Np.clip delta (- mj) mj) in *.
    assert (Hc : -180 <= c < 180).
    { destruct Hsmall as [Hs | Hs]; [lra |].
      destruct (Rle_dec 180 mj) as [Hbig | Hlt]; [| lra].
      (* mj >= 180 and delta = -180 contradict |delta| > mj *)
      rewrite Hs in Hjump. unfold Rabs in Hjump.
      destruct (Rcase_abs (-180)); lra. }
    destruct (mod_congr 360 (prev_deg + c + 360)) as [k Hk]. rewrite Hk.
    rewrite (wrap_congr _ c (k + 1)).
    + rewrite wrap_small by exact Hc. apply Rabs_le. lra.
    + rewrite plus_IZR. lra.
  - apply ltb_false_inv in Hjump. fold delta. exact Hjump.
Qed.

(** *** The jitter window *)

Lemma col_max_above (pts : list Vec2) (m : Vec2) :
  fst m <= fst (col_max m pts) /\ snd m <= snd (col_max m pts).
Proof.
  revert m. induction pts as [| a pts IH]; intros m; simpl; [lra |].
  destruct (IH (Rmax (fst m) (fst a), Rmax (snd m) (snd a))) as [H1 H2].
  simpl in *. pose proof (Rmax_l (fst m) (fst a)). pose proof (Rmax_l (snd m) (snd a)).
  lra.
Qed.

Lemma col_min_below (pts : list Vec2) (m : Vec2) :
  fst (col_min m pts) <= fst m /\ snd (col_min m pts) <= snd m.
Proof.
  revert m. induction pts as [| a pts IH]; intros m; simpl; [lra |].
  destruct (IH (Rmin (fst m) (fst a), Rmin (snd m) (snd a))) as [H1 H2].
  simpl in *. pose proof (Rmin_l (fst m) (fst a)). pose proof (Rmin_l (snd m) (snd a)).
  lra.
Qed.

(** [np.max(pts, 0)] and [np.min(pts, 0)] bound every row of the window. *)
Lemma col_bounds (pts : list Vec2) (p q : Vec2) :
  In q (p :: pts) ->
  fst (col_min p pts) <= fst q <= fst (col_max p pts) /\
  snd (col_min p pts) <= snd q <= snd (col_max p pts).
Proof.
  revert p. induction pts as [| a pts IH]; intros p Hin.
  - destruct Hin as [<- | []]. simpl. lra.
  - simpl.
    pose proof (col_max_above pts (Rmax (fst p) (fst a), Rmax (snd p) (snd a))) as [U1 U2].
    pose proof (col_min_below pts (Rmin (fst p) (fst a), Rmin (snd p) (snd a))) as [L1 L2].
    simpl in U1, U2, L1, L2.
    pose proof (Rmax_l (fst p) (fst a)). pose proof (Rmax_r (fst p) (fst a)).
    pose proof (Rmax_l (snd p) (snd a)). pose proof (Rmax_r (snd p) (snd a)).
    pose proof (Rmin_l (fst p) (fst a)). pose proof (Rmin_r (fst p) (fst a)).
    pose proof (Rmin_l (snd p) (snd a)). pose proof (Rmin_r (snd p) (snd a)).
    destruct Hin as [<- | [<- | Hin]]; [lra | lra |].
    destruct (IH (Rmax (fst p) (fst a), Rmax (snd p) (snd a)) (or_intror Hin))
      as [[_ Hx] [_ Hy]].
    destruct (IH (Rmin (fst p) (fst a), Rmin (snd p) (snd a)) (or_intror Hin))
      as [[Hx' _] [Hy' _]].
    unfold col_max, col_min in *. simpl in *. lra.
Qed.

(** X8: what a positive jitter check means: any two positions of the window lie
    closer to each other than the jitter radius, in pixels. *)
Lemma check_jitter_close (self : t) (px : R) (q1 q2 : Vec2) :
  _check_jitter self px = true ->
  In q1 (Deque.items (jitter_hist self)) ->
  In q2 (Deque.items (jitter_hist self)) ->
  Np.norm (Np.sub q1 q2)
    < Py.get (heading_sat_coords_jitter_radius (cfg self)) 0.6 * px.
Proof.
  unfold _check_jitter. destruct (Deque.len (jitter_hist self) <? 2)%nat; [discriminate |].
  destruct (Deque.items (jitter_hist self)) as [| p pts]; [discriminate |].
  intros Hjit H1 H2. apply ltb_true_inv in Hjit.
  eapply Rle_lt_trans; [| exact Hjit].
  destruct (col_bounds pts p q1 H1) as [[X1 X1'] [Y1 Y1']].
  destruct (col_bounds pts p q2 H2) as [[X2 X2'] [Y2 Y2']].
  unfold Np.norm, Np.sub. cbn [fst snd].
  apply sqrt_le_1_alt.
  set (ex := fst (col_max p pts) - fst (col_min p pts)).
  set (ey := snd (col_max p pts) - snd (col_min p pts)).
  assert (Hsq : forall d e, - e <= d <= e -> d * d <= e * e) by (intros d e He; nra).
  pose proof (Hsq (fst q1 - fst q2) ex ltac:(unfold ex; lra)).
  pose proof (Hsq (snd q1 - snd q2) ey ltac:(unfold ey; lra)).
  lra.
Qed.

(** *** Jitter freeze *)

Lemma jitter_step (self : t) (hv : Vec2) (c : Call) :
  heading_vec_state self = Some hv ->
  detects_jitter self c ->
  heading_vec_state (fst (update_call fitLine self c)) = Some hv /\
  heading (snd (update_call fitLine self c)) = Some (vec_to_deg hv) /\
  default_heading (snd (update_call fitLine self c)) = false.
Proof.
  intros Hhv [Hgate Hjit]. unfold update_call, update.
  rewrite Hgate, Hjit.
  destruct (raw_motion fitLine _ _ _ _) as [raw_speed [raw |]];
    rewrite ?andb_false_r; unfold keep_heading;
    cbn [heading_vec_state set_speed_state set_histories];
    rewrite Hhv; simpl; auto.
Qed.

(** C5: let a smoother hold a smoothed heading vector.  Over any number of
    consecutive calls that each detect jitter, every call returns that
    heading, unchanged, with [default_heading = False], and the stored
    heading vector is never modified. *)
Theorem jitter_freeze (calls : list Call) (self : t) (hv : Vec2) :
  heading_vec_state self = Some hv ->
  all_detect_jitter fitLine self calls ->
  heading_vec_state (fst (run fitLine self calls)) = Some hv /\
  Forall (fun out => heading out = Some (vec_to_deg hv) /\
                     default_heading out = false)
    (snd (run fitLine self calls)).
Proof.
  revert self. induction calls as [| c calls IH]; intros self Hhv Hall; simpl.
  - split; [exact Hhv | constructor].
  - destruct Hall as [Hc Hrest].
    destruct (jitter_step self hv c Hhv Hc) as (Hstate & Hout & Hdef).
    destruct (update_call fitLine self c) as [s1 out] eqn:Hu. simpl in *.
    specialize (IH s1 Hstate Hrest).
    destruct (run fitLine s1 calls) as [s2 outs]. simpl in *.
    destruct IH as [IHs IHo]. split; [exact IHs |].
    constructor; auto.
Qed.

(** *** Heading range *)

Lemma smooth_heading_range (self : t) (raw_deg speed : R) :
  0 <= snd (_smooth_heading self raw_deg speed) < 360.
Proof.
  unfold _smooth_heading.
  destruct (heading_vec_state (set_velocity_vec_state self _)); simpl.
  - destruct (Py.gtb _ _); [apply mod_range; lra | apply vec_to_deg_range].
  - apply vec_to_deg_range.
Qed.

Lemma apply_snapping_range (current svg : R) :
  0 <= current < 360 -> 0 <= _apply_snapping current svg < 360.
Proof.
  intros Hc. unfold _apply_snapping.
  destruct (Py.ltb _ 15); [apply mod_range; lra | exact Hc].
Qed.

Lemma keep_heading_range (self : t) (svg : option R) :
  compass svg -> compass (fst (keep_heading self svg)).
Proof.
  intros Hsvg. unfold keep_heading.
  destruct (heading_vec_state self); simpl; [apply vec_to_deg_range |].
  destruct svg; simpl; auto.
Qed.

Lemma update_heading_range (self : t) (c : Call) :
  compass (call_svg_heading c) ->
  compass (heading (snd (update_call fitLine self c))).
Proof.
  intros Hsvg. unfold update_call, update.
  destruct (gate_rejects self _ _ _).
  - simpl. destruct (heading_vec_state self); simpl; [apply vec_to_deg_range | exact I].
  - destruct (raw_motion fitLine _ _ _ _) as [raw_speed [raw |]].
    + destruct (Py.gtb raw_speed _ && negb _).
      * match goal with
        | |- context [_smooth_heading ?s ?r ?v] =>
            pose proof (smooth_heading_range s r v) as Hr;
            destruct (_smooth_heading s r v) as [s' out]
        end.
        simpl in *. destruct (call_svg_heading c); simpl;
          [apply apply_snapping_range |]; exact Hr.
      * match goal with
        | |- context [keep_heading ?s ?g] =>
            pose proof (keep_heading_range s g Hsvg) as Hk;
            destruct (keep_heading s g)
        end.
        simpl in *. exact Hk.
    + match goal with
      | |- context [keep_heading ?s ?g] =>
          pose proof (keep_heading_range s g Hsvg) as Hk;
          destruct (keep_heading s g)
      end.
      simpl in *. exact Hk.
Qed.

(** C8 (amended): over any sequence of calls whose supplied guideline
    headings are each null or in [0, 360), from any smoother state, the
    heading of every returned record is null or in [0, 360). *)
Theorem heading_output_range (calls : list Call) (self : t) :
  Forall (fun c => compass (call_svg_heading c)) calls ->
  Forall (fun out => compass (heading out)) (snd (run fitLine self calls)).
Proof.
  revert self. induction calls as [| c calls IH]; intros self Hsvg; simpl.
  - constructor.
  - inversion Hsvg as [| c' calls' Hc Hrest]; subst.
    pose proof (update_heading_range self c Hc) as Hout.
    destruct (update_call fitLine self c) as [s1 out].
    specialize (IH s1 Hrest).
    destruct (run fitLine s1 calls) as [s2 outs]. simpl in *.
    constructor; assumption.
Qed.

(** *** Speed output *)

Lemma raw_motion_speed_nonneg (self : t) (pos : Vec2) (dt px : R) :
  0 < px -> 0 <= fst (raw_motion fitLine self pos dt px).
Proof.
  intros Hpx. unfold raw_motion.
  destruct (Py.gtb dt 0 && _) eqn:Hguard; [| simpl; lra].
  apply andb_prop in Hguard. destruct Hguard as [Hdt _].
  apply ltb_true_inv in Hdt.
  assert (Hspeed : forall d, 0 <= d -> 0 <= d / px / dt * 3.6).
  { intros d Hd. apply Rmult_le_pos; [| lra].
    apply Rmult_le_pos; [| left; apply Rinv_0_lt_compat; exact Hdt].
    apply Rmult_le_pos; [exact Hd | left; apply Rinv_0_lt_compat; exact Hpx]. }
  destruct (_compute_regression_heading fitLine self);
    [| destruct (Py.gtb _ 0.5)]; simpl; apply Hspeed; apply sqrt_pos.
Qed.

Lemma smooth_speed_nonneg (self : t) (raw : R) :
  0 <= Py.get (speed_ema_alpha (cfg self)) 0.4 <= 1 ->
  match speed_state self with Some v => 0 <= v | None => True end ->
  0 <= raw -> 0 <= _smooth_speed self raw.
Proof.
  intros Halpha Hstate Hraw. unfold _smooth_speed.
  destruct (speed_state self) as [v |]; [| exact Hraw].
  apply Rplus_le_le_0_compat; apply Rmult_le_pos; lra.
Qed.

Lemma update_speed_nonneg (self : t) (c : Call) :
  0 <= Py.get (speed_ema_alpha (cfg self)) 0.4 <= 1 ->
  0 < call_px_per_m c ->
  match speed_state self with Some v => 0 <= v | None => True end ->
  match speed_state (fst (update_call fitLine self c)) with
  | Some v => 0 <= v
  | None => True
  end /\
  0 <= speed_kmh (snd (update_call fitLine self c)).
Proof.
  intros Halpha Hpx Hstate. unfold update_call, update.
  destruct (gate_rejects self _ _ _).
  - simpl. split; [exact Hstate | apply or_else_nonneg; exact Hstate].
  - match goal with
    | |- context [raw_motion fitLine ?s ?p ?d ?x] =>
        pose proof (raw_motion_speed_nonneg s p d x Hpx) as Hraw;
        pose proof (fun raw => smooth_speed_nonneg s raw Halpha Hstate) as Hsm;
        destruct (raw_motion fitLine s p d x) as [raw_speed raw_heading]
    end.
    simpl in Hraw. specialize (Hsm raw_speed Hraw).
    assert (Hkeep : forall s h d,
              match speed_state s with Some v => 0 <= v | None => True end ->
              match speed_state (fst (s, Build_Output (Py.or_else (speed_state s) 0) h d)) with
              | Some v => 0 <= v
              | None => True
              end /\
              0 <= speed_kmh (snd (s, Build_Output (Py.or_else (speed_state s) 0) h d))).
    { intros s h d Hs. simpl. split; [exact Hs | apply or_else_nonneg; exact Hs]. }
    destruct raw_heading as [raw |].
    + destruct (Py.gtb raw_speed _ && negb _).
      * match goal with
        | |- context [_smooth_heading ?s ?r ?v] =>
            pose proof (smooth_heading_frame s r v) as Hf;
            destruct (_smooth_heading s r v) as [s' out]
        end.
        simpl in Hf. destruct Hf as (_ & Hsp & _).
        apply Hkeep. rewrite Hsp. simpl. exact Hsm.
      * destruct (keep_heading _ _). apply Hkeep. simpl. exact Hsm.
    + destruct (keep_heading _ _). apply Hkeep. simpl. exact Hsm.
Qed.

Lemma run_speed_nonneg (calls : list Call) (self : t) :
  0 <= Py.get (speed_ema_alpha (cfg self)) 0.4 <= 1 ->
  Forall (fun c => 0 < call_px_per_m c) calls ->
  match speed_state self with Some v => 0 <= v | None => True end ->
  Forall (fun out => 0 <= speed_kmh out) (snd (run fitLine self calls)).
Proof.
  revert self. induction calls as [| c calls IH]; intros self Halpha Hpx Hstate; simpl.
  - constructor.
  - inversion Hpx as [| c' calls' Hc Hrest]; subst.
    destruct (update_speed_nonneg self c Halpha Hc Hstate) as [Hs1 Hout].
    pose proof (update_frame self (call_pos c) (call_dt c) (call_px_per_m c)
                  (call_svg_heading c)) as [Hcfg _].
    fold (update_call fitLine self c) in Hcfg.
    destruct (update_call fitLine self c) as [s1 out]. simpl in *.
    assert (Halpha1 : 0 <= Py.get (speed_ema_alpha (cfg s1)) 0.4 <= 1)
      by (rewrite Hcfg; exact Halpha).
    specialize (IH s1 Halpha1 Hrest Hs1).
    destruct (run fitLine s1 calls) as [s2 outs]. simpl in *.
    constructor; assumption.
Qed.

(** C10 (amended): for a smoother built by [__init__] whose
    [speed_ema_alpha] (0.4 by default) lies in [0, 1], over any sequence of
    calls made with a positive [px_per_m], every returned record carries a
    speed that is a number and is not negative.  The code does not check the
    factor; outside [0, 1] the smoothed speed can turn negative. *)
Theorem speed_output_nonneg (config : Config) (calls : list Call) :
  0 <= Py.get (speed_ema_alpha config) 0.4 <= 1 ->
  Forall (fun c => 0 < call_px_per_m c) calls ->
  Forall (fun out => 0 <= speed_kmh out)
    (snd (run fitLine (__init__ config) calls)).
Proof.
  intros Halpha Hpx. apply run_speed_nonneg; simpl; auto.
Qed.

End Smoother.

(** ** Concrete runs *)

Section Instances.

Import TrackSmoother.

Lemma norm_origin : Np.norm (Np.sub (0, 0) (0, 0)) = 0.
Proof.
  unfold Np.norm, Np.sub. simpl.
  replace ((0 - 0) * (0 - 0) + (0 - 0) * (0 - 0)) with 0 by ring.
  apply sqrt_0.
Qed.

Lemma norm_100 : Np.norm (Np.sub (100, 0) (0, 0)) = 100.
Proof.
  unfold Np.norm, Np.sub. simpl.
  replace ((100 - 0) * (100 - 0) + (0 - 0) * (0 - 0)) with (100 * 100) by ring.
  apply sqrt_square. lra.
Qed.

(** C8, as stated, fails: the first call's guideline heading is handed back
    as it is, so a guideline heading of 400 is returned as heading 400. *)
Lemma heading_400_returned :
  heading (snd (update fit_x_axis (__init__ empty_config) (0, 0) 1 1 (Some 400)))
    = Some 400 /\
  ~ compass (heading (snd (update fit_x_axis (__init__ empty_config) (0, 0) 1 1
                             (Some 400)))).
Proof.
  rewrite first_update. simpl. split; [reflexivity | lra].
Qed.

Lemma heading_output_range_witness :
  Forall (fun out => compass (heading out))
    (snd (run fit_x_axis (__init__ empty_config)
            [Build_Call (0, 0) 1 1 (Some 90); Build_Call (1, 0) 1 1 None])).
Proof.
  apply (heading_output_range fit_x_axis).
  repeat constructor; simpl; lra.
Defined.

(** One observation at the origin, then a jump of 100 px in one second at
    1 px per metre: 360 km/h. *)
Lemma physics_gate_rejects_update_witness :
  update fit_x_axis
    (fst (run fit_x_axis (__init__ empty_config) [Build_Call (0, 0) 1 1 None]))
    (100, 0) 1 1 None =
  (fst (run fit_x_axis (__init__ empty_config) [Build_Call (0, 0) 1 1 None]),
   Build_Output
     (match speed_state (fst (run fit_x_axis (__init__ empty_config)
                                [Build_Call (0, 0) 1 1 None])) with
      | Some v => v
      | None => 0
      end)
     (match heading_vec_state (fst (run fit_x_axis (__init__ empty_config)
                                      [Build_Call (0, 0) 1 1 None])) with
      | Some v => Some (vec_to_deg v)
      | None => None
      end)
     false).
Proof.
  apply (physics_gate_rejects_update fit_x_axis empty_config
           [Build_Call (0, 0) 1 1 None] [] (0, 0) (100, 0) 1 1 None).
  - simpl. unfold update_call. simpl. rewrite first_update. reflexivity.
  - lra.
  - rewrite norm_100. lra.
Defined.

Lemma smooth_heading_jump_clamped_witness :
  Rabs (Py.mod_ (snd (_smooth_heading eastbound 180 36) - vec_to_deg (1, 0) + 180)
          360 - 180) <= 5
  /\ exists v, heading_vec_state (fst (_smooth_heading eastbound 180 36)) = Some v
       /\ vec_to_deg v = snd (_smooth_heading eastbound 180 36).
Proof.
  apply (smooth_heading_jump_clamped eastbound (1, 0) 180 36).
  - reflexivity.
  - simpl. lra.
Defined.

Lemma parked_detects_jitter : detects_jitter parked (Build_Call (0, 0) 1 1 None).
Proof.
  unfold detects_jitter. split.
  - unfold gate_rejects. simpl.
    unfold Deque.from_end, Deque.len. simpl. rewrite norm_origin.
    unfold Py.gtb at 2. rewrite ltb_false by lra. apply andb_false_r.
  - unfold _check_jitter. simpl.
    unfold col_max, col_min. simpl.
    rewrite Rmax_left, Rmin_left by lra.
    rewrite norm_origin. apply ltb_true. lra.
Qed.

Lemma parked_twice_detects_jitter :
  all_detect_jitter fit_x_axis parked
    [Build_Call (0, 0) 1 1 None; Build_Call (0, 0) 1 1 None].
Proof.
  pose proof parked_detects_jitter as [Hgate Hjit].
  split; [split; assumption |]. split; [| exact I].
  unfold update_call. cbn [call_pos call_dt call_px_per_m call_svg_heading] in *.
  destruct (update_histories fit_x_axis parked (0, 0) 1 1 None Hgate) as [Hp Hj].
  destruct (update_frame fit_x_axis parked (0, 0) 1 1 None) as [Hc Hm].
  set (s1 := fst (update fit_x_axis parked (0, 0) 1 1 None)) in *.
  unfold detects_jitter. cbn [call_pos call_dt call_px_per_m]. split.
  - unfold gate_rejects. rewrite Hp, Hm. simpl.
    unfold Deque.from_end, Deque.len. simpl. rewrite norm_origin.
    unfold Py.gtb at 2. rewrite ltb_false by lra. apply andb_false_r.
  - unfold _check_jitter.
    cbn [jitter_hist set_histories cfg]. rewrite Hj, Hc. simpl.
    unfold col_max, col_min. simpl.
    assert (Hmax : Rmax 0 0 = 0) by (apply Rmax_left; lra).
    assert (Hmin : Rmin 0 0 = 0) by (apply Rmin_left; lra).
    rewrite !Hmax, !Hmin.
    rewrite norm_origin. apply ltb_true. lra.
Qed.

Lemma jitter_freeze_witness :
  heading_vec_state
    (fst (run fit_x_axis parked
            [Build_Call (0, 0) 1 1 None; Build_Call (0, 0) 1 1 None]))
    = Some (1, 0) /\
  Forall (fun out => heading out = Some (vec_to_deg (1, 0)) /\
                     default_heading out = false)
    (snd (run fit_x_axis parked
            [Build_Call (0, 0) 1 1 None; Build_Call (0, 0) 1 1 None])).
Proof.
  apply (jitter_freeze fit_x_axis
           [Build_Call (0, 0) 1 1 None; Build_Call (0, 0) 1 1 None] parked (1, 0)).
  - reflexivity.
  - exact parked_twice_detects_jitter.
Defined.

Lemma speed_output_nonneg_witness :
  Forall (fun out => 0 <= speed_kmh out)
    (snd (run fit_x_axis (__init__ empty_config)
            [Build_Call (0, 0) 1 1 None; Build_Call (3, 4) 1 1 None])).
Proof.
  apply (speed_output_nonneg fit_x_axis empty_config).
  - simpl. lra.
  - repeat constructor; simpl; lra.
Defined.

End Instances.

(** * Further properties of the code *)

(** ** The position windows *)

Section Windows.

Lemma nth_skipn_shift (k i : nat) (l : list Vec2) (d : Vec2) :
  nth i (skipn k l) d = nth (k + i) l d.
Proof.
  revert l. induction k as [| k IH]; intros l; [reflexivity |].
  destruct l as [| a l]; simpl; [destruct i; reflexivity | apply IH].
Qed.

Lemma append_maxlen (d : Deque.t) (x : Vec2) :
  Deque.maxlen (Deque.append d x) = Deque.maxlen d.
Proof. reflexivity. Qed.

Lemma append_len (d : Deque.t) (x : Vec2) :
  Deque.len (Deque.append d x) = Nat.min (Deque.len d + 1) (Deque.maxlen d).
Proof.
  unfold Deque.len, Deque.append. simpl.
  rewrite length_skipn, length_app. simpl. lia.
Qed.

(** The newest item of a deque that can hold one is the one appended. *)
Lemma append_last (d : Deque.t) (x : Vec2) :
  (1 <= Deque.maxlen d)%nat -> Deque.from_end (Deque.append d x) 1 = x.
Proof.
  intros Hm. unfold Deque.from_end. rewrite append_len.
  unfold Deque.append, Deque.len. simpl.
  rewrite nth_skipn_shift, length_app. simpl.
  set (n := length (Deque.items d)).
  replace (n + 1 - Deque.maxlen d + (Nat.min (n + 1) (Deque.maxlen d) - 1))%nat
    with n by lia.
  rewrite app_nth2 by lia. subst n. rewrite Nat.sub_diag. reflexivity.
Qed.

(** After an append, the item before the newest is the one that was newest. *)
Lemma append_second_last (d : Deque.t) (x : Vec2) :
  (2 <= Deque.maxlen d)%nat -> (1 <= Deque.len d)%nat ->
  Deque.from_end (Deque.append d x) 2 = Deque.from_end d 1.
Proof.
  intros Hm Hl. unfold Deque.from_end. rewrite append_len.
  unfold Deque.append, Deque.len in *. simpl.
  rewrite nth_skipn_shift, length_app. simpl.
  set (n := length (Deque.items d)) in *.
  replace (n + 1 - Deque.maxlen d + (Nat.min (n + 1) (Deque.maxlen d) - 2))%nat
    with (n - 1)%nat by lia.
  apply app_nth1. lia.
Qed.

End Windows.

(** ** More on the track smoother *)

Section SmootherState.

Import TrackSmoother.

Variable fitLine : list Vec2 -> Vec2.

Lemma update_rejected (self : t) (pos : Vec2) (dt px : R) (svg : option R) :
  gate_rejects self pos dt px = true ->
  fst (update fitLine self pos dt px svg) = self.
Proof. intros Hgate. unfold update. rewrite Hgate. reflexivity. Qed.

(** What an accepted call does to the smoothed speed. *)
Lemma update_speed_state (self : t) (pos : Vec2) (dt px : R) (svg : option R) :
  gate_rejects self pos dt px = false ->
  let appended := set_histories self (Deque.append (pos_history self) pos)
                    (Deque.append (jitter_hist self) pos) in
  let raw := fst (raw_motion fitLine appended pos dt px) in
  speed_state (fst (update fitLine self pos dt px svg))
    = Some (_smooth_speed self raw) /\
  speed_kmh (snd (update fitLine self pos dt px svg))
    = Py.or_else (Some (_smooth_speed self raw)) 0.
Proof.
  intros Hgate appended raw. subst raw appended. unfold update. rewrite Hgate.
  destruct (raw_motion fitLine _ pos dt px) as [raw_speed [raw |]].
  - destruct (Py.gtb raw_speed _ && negb _).
    + match goal with
      | |- context [_smooth_heading ?s ?r ?v] =>
          pose proof (smooth_heading_frame s r v) as Hf;
          destruct (_smooth_heading s r v) as [s' out]
      end.
      simpl in Hf. destruct Hf as (_ & Hsp & _).
      cbn [fst snd speed_kmh]. rewrite Hsp. split; reflexivity.
    + destruct (keep_heading _ svg). split; reflexivity.
  - destruct (keep_heading _ svg). split; reflexivity.
Qed.

Lemma update_window_shape (self : t) (pos : Vec2) (dt px : R) (svg : option R) :
  let self' := fst (update fitLine self pos dt px svg) in
  Deque.maxlen (pos_history self') = Deque.maxlen (pos_history self) /\
  Deque.maxlen (jitter_hist self') = Deque.maxlen (jitter_hist self) /\
  ((Deque.len (pos_history self) <= Deque.maxlen (pos_history self))%nat ->
   (Deque.len (pos_history self') <= Deque.maxlen (pos_history self))%nat) /\
  ((Deque.len (jitter_hist self) <= Deque.maxlen (jitter_hist self))%nat ->
   (Deque.len (jitter_hist self') <= Deque.maxlen (jitter_hist self))%nat).
Proof.
  intros self'. subst self'.
  destruct (gate_rejects self pos dt px) eqn:Hgate.
  - rewrite update_rejected by exact Hgate. auto.
  - destruct (update_histories fitLine self pos dt px svg Hgate) as [-> ->].
    rewrite !append_maxlen, !append_len. repeat split; lia.
Qed.

Lemma run_window_shape (calls : list Call) (self : t) :
  (Deque.len (pos_history self) <= Deque.maxlen (pos_history self))%nat ->
  (Deque.len (jitter_hist self) <= Deque.maxlen (jitter_hist self))%nat ->
  let self' := fst (run fitLine self calls) in
  Deque.maxlen (pos_history self') = Deque.maxlen (pos_history self) /\
  Deque.maxlen (jitter_hist self') = Deque.maxlen (jitter_hist self) /\
  (Deque.len (pos_history self') <= Deque.maxlen (pos_history self))%nat /\
  (Deque.len (jitter_hist self') <= Deque.maxlen (jitter_hist self))%nat.
Proof.
  revert self. induction calls as [| c calls IH]; intros self Hp Hj; simpl; [auto |].
  pose proof (update_window_shape self (call_pos c) (call_dt c) (call_px_per_m c)
                (call_svg_heading c)) as Hu.
  unfold update_call.
  destruct (update fitLine self _ _ _ _) as [s1 out]. simpl in Hu.
  destruct Hu as (Hmp & Hmj & Hlp & Hlj).
  specialize (IH s1). destruct (run fitLine s1 calls) as [s2 outs]. simpl in *.
  rewrite Hmp, Hmj in IH. apply IH; auto.
Qed.

(** X1: however many calls a smoother built by [__init__] has served, its
    regression window holds at most 8 positions and its jitter window at most
    the configured [heading_sat_coords_jitter_frames] (8 by default). *)
Theorem window_bounds (config : Config) (calls : list Call) :
  let self := fst (run fitLine (__init__ config) calls) in
  (Deque.len (pos_history self) <= 8)%nat /\
  (Deque.len (jitter_hist self)
     <= Py.get (heading_sat_coords_jitter_frames config) 8%nat)%nat.
Proof.
  intros self. subst self.
  destruct (run_window_shape calls (__init__ config)) as (_ & _ & Hp & Hj);
    simpl; [unfold Deque.len; simpl; lia .. | ].
  split; assumption.
Qed.

(** *** The speed cap *)

(** The raw speed of an accepted call is the instantaneous speed the gate
    looked at. *)
Lemma raw_speed_capped (self : t) (pos : Vec2) (dt px : R) (j : Deque.t) :
  (2 <= Deque.maxlen (pos_history self))%nat ->
  0 <= max_physics_speed self ->
  gate_rejects self pos dt px = false ->
  fst (raw_motion fitLine
         (set_histories self (Deque.append (pos_history self) pos) j) pos dt px)
    <= max_physics_speed self.
Proof.
  intros Hm Hcap Hgate. unfold raw_motion.
  cbn [pos_history set_histories].
  destruct (Py.gtb dt 0 && _) eqn:Hguard; [| simpl; exact Hcap].
  apply andb_prop in Hguard. destruct Hguard as [Hdt Hlen].
  apply Nat.leb_le in Hlen. rewrite append_len in Hlen.
  assert (Hlen1 : (1 <= Deque.len (pos_history self))%nat) by lia.
  rewrite append_second_last by assumption.
  unfold gate_rejects in Hgate. rewrite Hdt in Hgate.
  replace (0 <? Deque.len (pos_history self))%nat with true in Hgate
    by (symmetry; apply Nat.ltb_lt; lia).
  simpl in Hgate. apply ltb_false_inv in Hgate.
  destruct (_compute_regression_heading fitLine _);
    [| destruct (Py.gtb _ 0.5)]; simpl; exact Hgate.
Qed.

Lemma update_speed_capped (self : t) (c : Call) :
  (2 <= Deque.maxlen (pos_history self))%nat ->
  0 <= max_physics_speed self ->
  0 <= Py.get (speed_ema_alpha (cfg self)) 0.4 <= 1 ->
  match speed_state self with
  | Some v => v <= max_physics_speed self
  | None => True
  end ->
  match speed_state (fst (update_call fitLine self c)) with
  | Some v => v <= max_physics_speed self
  | None => True
  end /\
  speed_kmh (snd (update_call fitLine self c)) <= max_physics_speed self.
Proof.
  intros Hm Hcap Halpha Hstate. unfold update_call.
  assert (Hor : forall x, match x with
                          | Some v => v <= max_physics_speed self
                          | None => True
                          end -> Py.or_else x 0 <= max_physics_speed self).
  { intros [v |] Hv; simpl; [| exact Hcap].
    unfold Py.eqb. destruct (Req_dec_T v 0); [exact Hcap | exact Hv]. }
  destruct (gate_rejects self (call_pos c) (call_dt c) (call_px_per_m c)) eqn:Hgate.
  - unfold update. rewrite Hgate. simpl. split; [exact Hstate | apply Hor; exact Hstate].
  - destruct (update_speed_state self _ _ _ (call_svg_heading c) Hgate) as [-> ->].
    pose proof (raw_speed_capped self (call_pos c) (call_dt c) (call_px_per_m c)
                  (Deque.append (jitter_hist self) (call_pos c)) Hm Hcap Hgate)
      as Hraw.
    set (raw := fst (raw_motion fitLine _ _ _ _)) in *.
    assert (Hsm : _smooth_speed self raw <= max_physics_speed self).
    { unfold _smooth_speed. destruct (speed_state self) as [v |]; [| exact Hraw].
      set (a := Py.get (speed_ema_alpha (cfg self)) 0.4) in *.
      assert (a * raw <= a * max_physics_speed self)
        by (apply Rmult_le_compat_l; lra).
      assert ((1 - a) * v <= (1 - a) * max_physics_speed self)
        by (apply Rmult_le_compat_l; lra).
      lra. }
    split; [exact Hsm | apply Hor; exact Hsm].
Qed.

Lemma run_speed_capped (calls : list Call) (self : t) :
  (2 <= Deque.maxlen (pos_history self))%nat ->
  0 <= max_physics_speed self ->
  0 <= Py.get (speed_ema_alpha (cfg self)) 0.4 <= 1 ->
  match speed_state self with
  | Some v => v <= max_physics_speed self
  | None => True
  end ->
  Forall (fun out => speed_kmh out <= max_physics_speed self)
    (snd (run fitLine self calls)).
Proof.
  revert self. induction calls as [| c calls IH];
    intros self Hm Hcap Halpha Hstate; simpl; [constructor |].
  destruct (update_speed_capped self c Hm Hcap Halpha Hstate) as [Hs1 Hout].
  pose proof (update_frame fitLine self (call_pos c) (call_dt c) (call_px_per_m c)
                (call_svg_heading c)) as [Hcfg Hmax].
  pose proof (update_window_shape self (call_pos c) (call_dt c) (call_px_per_m c)
                (call_svg_heading c)) as (Hmp & _).
  fold (update_call fitLine self c) in Hcfg, Hmax, Hmp.
  destruct (update_call fitLine self c) as [s1 out]. simpl in *.
  specialize (IH s1). rewrite Hmp, Hmax, Hcfg in IH.
  specialize (IH Hm Hcap Halpha Hs1).
  destruct (run fitLine s1 calls) as [s2 outs]. simpl in *.
  constructor; assumption.
Qed.

(** X2: for a smoother built by [__init__] whose [speed_ema_alpha] (0.4 by
    default) lies in [0, 1], no call ever reports a speed above the gate's
    cap of 200 km/h, whatever the positions and [dt] supplied ([px_per_m]
    is taken nonzero, so that the division by it is defined). *)
Theorem speed_output_capped (config : Config) (calls : list Call) :
  0 <= Py.get (speed_ema_alpha config) 0.4 <= 1 ->
  Forall (fun c => call_px_per_m c <> 0) calls ->
  Forall (fun out => speed_kmh out <= 200)
    (snd (run fitLine (__init__ config) calls)).
Proof.
  intros Halpha _.
  apply (run_speed_capped calls (__init__ config)); simpl;
    [lia | lra | exact Halpha | exact I].
Qed.

(** *** The heading, once estimated *)

Lemma smooth_heading_sets (self : t) (raw_deg speed : R) :
  exists v, heading_vec_state (fst (_smooth_heading self raw_deg speed)) = Some v.
Proof.
  unfold _smooth_heading.
  destruct (heading_vec_state (set_velocity_vec_state self _));
    simpl; eexists; reflexivity.
Qed.

Lemma update_heading_kept (self : t) (hv : Vec2) (c : Call) :
  heading_vec_state self = Some hv ->
  (exists hv', heading_vec_state (fst (update_call fitLine self c)) = Some hv') /\
  heading (snd (update_call fitLine self c)) <> None /\
  default_heading (snd (update_call fitLine self c)) = false.
Proof.
  intros Hhv. unfold update_call, update.
  destruct (gate_rejects self _ _ _).
  - simpl. rewrite Hhv. simpl. split; [eauto | split; [discriminate | reflexivity]].
  - destruct (raw_motion fitLine _ _ _ _) as [raw_speed [raw |]].
    + destruct (Py.gtb raw_speed _ && negb _).
      * match goal with
        | |- context [_smooth_heading ?s ?r ?v] =>
            pose proof (smooth_heading_sets s r v) as Hs;
            destruct (_smooth_heading s r v) as [s' out]
        end.
        simpl in *. split; [exact Hs | split; [discriminate | reflexivity]].
      * unfold keep_heading. cbn [heading_vec_state set_speed_state set_histories].
        rewrite Hhv. simpl. rewrite Hhv.
        split; [eauto | split; [discriminate | reflexivity]].
    + unfold keep_heading. cbn [heading_vec_state set_speed_state set_histories].
      rewrite Hhv. simpl. rewrite Hhv.
      split; [eauto | split; [discriminate | reflexivity]].
Qed.

(** X3: once a smoother holds a smoothed heading it never loses it: over any
    further calls (rejected, jittering or moving) the heading vector stays
    set, every returned record carries a heading, and none is marked as a
    default heading. *)
Theorem heading_never_lost (calls : list Call) (self : t) (hv : Vec2) :
  heading_vec_state self = Some hv ->
  (exists hv', heading_vec_state (fst (run fitLine self calls)) = Some hv') /\
  Forall (fun out => heading out <> None /\ default_heading out = false)
    (snd (run fitLine self calls)).
Proof.
  revert self hv. induction calls as [| c calls IH]; intros self hv Hhv; simpl.
  - split; [eauto | constructor].
  - destruct (update_heading_kept self hv c Hhv) as ([hv1 Hs1] & Hout & Hdef).
    destruct (update_call fitLine self c) as [s1 out]. simpl in *.
    destruct (IH s1 hv1 Hs1) as [Hs2 Houts].
    destruct (run fitLine s1 calls) as [s2 outs]. simpl in *.
    split; [exact Hs2 |]. constructor; auto.
Qed.

(** X4: a record is marked [default_heading = True] only when the smoother
    had no smoothed heading, a guideline heading was supplied, and that
    guideline heading is what the record carries; the call leaves the smoother
    without a smoothed heading. *)
Theorem default_heading_is_guideline (self : t) (pos : Vec2) (dt px : R)
  (svg : option R) :
  default_heading (snd (update fitLine self pos dt px svg)) = true ->
  heading_vec_state self = None /\
  svg <> None /\
  heading (snd (update fitLine self pos dt px svg)) = svg /\
  heading_vec_state (fst (update fitLine self pos dt px svg)) = None.
Proof.
  unfold update.
  destruct (gate_rejects self _ _ _); [simpl; discriminate |].
  assert (Hkeep : forall s r,
    heading_vec_state s = heading_vec_state self ->
    (let '(h, d) := keep_heading s svg in
     default_heading (snd (s, Build_Output r h d)) = true ->
     heading_vec_state self = None /\ svg <> None /\
     heading (snd (s, Build_Output r h d)) = svg /\
     heading_vec_state (fst (s, Build_Output r h d)) = None)).
  { intros s r Hs. unfold keep_heading. rewrite Hs.
    destruct (heading_vec_state self); simpl; [discriminate |].
    destruct svg; simpl; [| discriminate].
    intros _. repeat split; auto. discriminate. }
  destruct (raw_motion fitLine _ _ _ _) as [raw_speed [raw |]].
  - destruct (Py.gtb raw_speed _ && negb _).
    + destruct (_smooth_heading _ _ _). simpl. discriminate.
    + match goal with
      | |- context [keep_heading ?s svg] =>
          specialize (Hkeep s (Py.or_else (speed_state s) 0) eq_refl);
          destruct (keep_heading s svg)
      end.
      exact Hkeep.
  - match goal with
    | |- context [keep_heading ?s svg] =>
        specialize (Hkeep s (Py.or_else (speed_state s) 0) eq_refl);
        destruct (keep_heading s svg)
    end.
    exact Hkeep.
Qed.

(** *** Calls without elapsed time *)

(** X5: a call with [dt <= 0] is never rejected by the gate and divides by
    nothing: it is taken as no motion.  The position enters both windows, the
    raw speed is 0 (so the smoothed speed decays, or starts at 0), and the
    heading is the stored one, else the guideline heading as a default. *)
Theorem nonpositive_dt_is_no_motion (self : t) (pos : Vec2) (dt px : R)
  (svg : option R) :
  dt <= 0 ->
  gate_rejects self pos dt px = false /\
  update fitLine self pos dt px svg =
    (set_speed_state
       (set_histories self (Deque.append (pos_history self) pos)
          (Deque.append (jitter_hist self) pos))
       (Some (_smooth_speed self 0)),
     Build_Output (Py.or_else (Some (_smooth_speed self 0)) 0)
       (fst (keep_heading self svg)) (snd (keep_heading self svg))).
Proof.
  intros Hdt.
  assert (Hgate : gate_rejects self pos dt px = false).
  { unfold gate_rejects, Py.gtb. rewrite ltb_false by exact Hdt. reflexivity. }
  split; [exact Hgate |].
  unfold update. rewrite Hgate.
  unfold raw_motion, Py.gtb. rewrite ltb_false by exact Hdt. simpl.
  unfold keep_heading, _smooth_speed. simpl.
  destruct (heading_vec_state self); [reflexivity |].
  destruct svg; reflexivity.
Qed.

(** *** The first smoothed heading *)

(** X6: the first heading-smoothing step of a smoother (no velocity vector,
    no heading vector yet) returns the raw heading itself, for a raw heading
    in [0, 360), and stores its unit vector as both states. *)
Theorem first_smoothed_heading_is_raw (self : t) (raw_deg speed_kmh : R) :
  velocity_vec_state self = None ->
  heading_vec_state self = None ->
  0 <= raw_deg < 360 ->
  snd (_smooth_heading self raw_deg speed_kmh) = raw_deg /\
  heading_vec_state (fst (_smooth_heading self raw_deg speed_kmh))
    = Some (unit_vec raw_deg) /\
  velocity_vec_state (fst (_smooth_heading self raw_deg speed_kmh))
    = Some (unit_vec raw_deg).
Proof.
  intros Hv Hh Hraw. unfold _smooth_heading. rewrite Hv.
  cbn [heading_vec_state set_velocity_vec_state]. rewrite Hh. simpl.
  split; [apply vec_to_deg_unit_vec; exact Hraw | split; reflexivity].
Qed.

(** *** The regression heading *)

(** X7: the regression heading is unavailable while the window holds fewer
    than 3 positions or its first and last positions are less than 2 px
    apart.  When it is available it lies in [0, 360) and is the angle of the
    fitted direction or of its opposite, whichever does not point against the
    displacement from the first to the last position. *)
Theorem regression_heading_spec (self : t) :
  let pts := pos_history self in
  let disp := Np.sub (Deque.from_end pts 1) (Deque.first pts) in
  ((Deque.len pts < 3)%nat \/ Np.norm disp < 2 ->
   _compute_regression_heading fitLine self = None)
  /\ (forall h, _compute_regression_heading fitLine self = Some h ->
        (3 <= Deque.len pts)%nat /\ 2 <= Np.norm disp /\ 0 <= h < 360 /\
        exists v, (v = fitLine (Deque.items pts)
                   \/ v = Np.neg (fitLine (Deque.items pts))) /\
                  0 <= Np.dot disp v /\ h = vec_to_deg v).
Proof.
  intros pts disp. unfold _compute_regression_heading. fold pts. fold disp.
  split.
  - intros [Hlen | Hshort].
    + replace (Deque.len pts <? 3)%nat with true
        by (symmetry; apply Nat.ltb_lt; exact Hlen).
      reflexivity.
    + destruct (Deque.len pts <? 3)%nat; [reflexivity |].
      rewrite ltb_true by exact Hshort. reflexivity.
  - intros h. destruct (Deque.len pts <? 3)%nat eqn:Hlen; [discriminate |].
    apply Nat.ltb_ge in Hlen.
    destruct (Py.ltb (Np.norm disp) 2) eqn:Hshort; [discriminate |].
    apply ltb_false_inv in Hshort.
    intros Hh. injection Hh as <-.
    split; [exact Hlen |]. split; [exact Hshort |].
    split; [apply vec_to_deg_range |].
    destruct (Py.ltb (Np.dot disp (fitLine (Deque.items pts))) 0) eqn:Hdot.
    + apply ltb_true_inv in Hdot.
      exists (Np.neg (fitLine (Deque.items pts))).
      split; [right; reflexivity |]. split; [| reflexivity].
      clearbody disp. unfold Np.dot, Np.neg in *. cbn [fst snd]. lra.
    + apply ltb_false_inv in Hdot.
      exists (fitLine (Deque.items pts)).
      split; [left; reflexivity |]. split; [exact Hdot | reflexivity].
Qed.

(** *** A track that stands still *)

Lemma norm_sub_self (p : Vec2) : Np.norm (Np.sub p p) = 0.
Proof.
  unfold Np.norm, Np.sub. simpl.
  replace ((fst p - fst p) * (fst p - fst p) + (snd p - snd p) * (snd p - snd p))
    with 0 by ring.
  apply sqrt_0.
Qed.

Lemma stationary_step (self : t) (p : Vec2) (s0 : R) (c : Call) :
  (2 <= Deque.maxlen (pos_history self))%nat ->
  0 <= max_physics_speed self ->
  (1 <= Deque.len (pos_history self))%nat ->
  Deque.from_end (pos_history self) 1 = p ->
  speed_state self = Some s0 ->
  call_pos c = p ->
  let s1 := fst (update_call fitLine self c) in
  speed_state s1 = Some ((1 - Py.get (speed_ema_alpha (cfg self)) 0.4) * s0) /\
  Deque.from_end (pos_history s1) 1 = p /\
  (1 <= Deque.len (pos_history s1))%nat.
Proof.
  intros Hm Hcap Hlen Hlast Hs0 Hpos s1. subst s1. unfold update_call.
  rewrite Hpos.
  assert (Hzero : forall a b, Np.norm (Np.sub p p) / a / b * 3.6 = 0)
    by (intros a b; rewrite norm_sub_self; unfold Rdiv; ring).
  assert (Hgate : gate_rejects self p (call_dt c) (call_px_per_m c) = false).
  { unfold gate_rejects.
    destruct (Py.gtb (call_dt c) 0 && _); [| reflexivity].
    rewrite Hlast, Hzero. apply ltb_false. exact Hcap. }
  destruct (update_speed_state self p (call_dt c) (call_px_per_m c)
              (call_svg_heading c) Hgate) as [Hsp _].
  destruct (update_histories fitLine self p (call_dt c) (call_px_per_m c)
              (call_svg_heading c) Hgate) as [Hhist _].
  rewrite Hsp, Hhist. split; [| split].
  - f_equal. unfold _smooth_speed. rewrite Hs0.
    assert (Hraw : fst (raw_motion fitLine
                     (set_histories self (Deque.append (pos_history self) p)
                        (Deque.append (jitter_hist self) p))
                     p (call_dt c) (call_px_per_m c)) = 0).
    { unfold raw_motion. cbn [pos_history set_histories].
      destruct (Py.gtb (call_dt c) 0 && _); [| reflexivity].
      rewrite append_second_last by assumption.
      rewrite Hlast, Hzero.
      destruct (_compute_regression_heading fitLine _);
        [| destruct (Py.gtb _ 0.5)]; reflexivity. }
    rewrite Hraw. ring.
  - apply append_last. lia.
  - rewrite append_len. lia.
Qed.

Lemma stationary_run (reps : list Call) (self : t) (p : Vec2) (s0 : R) :
  (2 <= Deque.maxlen (pos_history self))%nat ->
  0 <= max_physics_speed self ->
  (1 <= Deque.len (pos_history self))%nat ->
  Deque.from_end (pos_history self) 1 = p ->
  speed_state self = Some s0 ->
  Forall (fun c => call_pos c = p) reps ->
  speed_state (fst (run fitLine self reps))
    = Some ((1 - Py.get (speed_ema_alpha (cfg self)) 0.4) ^ length reps * s0).
Proof.
  revert self s0. induction reps as [| c reps IH];
    intros self s0 Hm Hcap Hlen Hlast Hs0 Hall; simpl.
  - rewrite Hs0. f_equal. ring.
  - apply Forall_cons_iff in Hall. destruct Hall as [Hc Hrest].
    destruct (stationary_step self p s0 c Hm Hcap Hlen Hlast Hs0 Hc)
      as (Hs1 & Hlast1 & Hlen1).
    pose proof (update_frame fitLine self (call_pos c) (call_dt c) (call_px_per_m c)
                  (call_svg_heading c)) as [Hcfg Hmax].
    pose proof (update_window_shape self (call_pos c) (call_dt c) (call_px_per_m c)
                  (call_svg_heading c)) as (Hmp & _).
    fold (update_call fitLine self c) in Hcfg, Hmax, Hmp.
    destruct (update_call fitLine self c) as [s1 out]. simpl in *.
    specialize (IH s1 _ ltac:(rewrite Hmp; exact Hm) ltac:(rewrite Hmax; exact Hcap)
                  Hlen1 Hlast1 Hs1 Hrest).
    destruct (run fitLine s1 reps) as [s2 outs]. simpl in *.
    rewrite IH, Hcfg. f_equal. ring.
Qed.

(** X9: take a smoother built by [__init__], after any calls, whose newest
    window position is [p] and whose smoothed speed is [s0].  Each further
    call at the same position [p] is accepted and multiplies the smoothed
    speed by [1 - speed_ema_alpha]: after [n] such calls it is
    [(1 - alpha)^n * s0], whatever [dt] and guideline headings are supplied
    ([px_per_m] nonzero). *)
Theorem stationary_speed_decays (config : Config) (calls reps : list Call)
  (older : list Vec2) (p : Vec2) (s0 : R) :
  let self := fst (run fitLine (__init__ config) calls) in
  Deque.items (pos_history self) = older ++ [p] ->
  speed_state self = Some s0 ->
  Forall (fun c => call_pos c = p /\ call_px_per_m c <> 0) reps ->
  speed_state (fst (run fitLine self reps))
    = Some ((1 - Py.get (speed_ema_alpha config) 0.4) ^ length reps * s0).
Proof.
  intros self Hitems Hs0 Hall.
  destruct (run_frame fitLine calls (__init__ config)) as [Hcfg Hmax].
  destruct (run_window_shape calls (__init__ config)) as (Hmp & _);
    [unfold Deque.len; simpl; lia .. |].
  fold self in Hcfg, Hmax, Hmp. simpl in Hcfg, Hmax, Hmp.
  rewrite <- Hcfg.
  apply (stationary_run reps self p s0).
  - rewrite Hmp. lia.
  - rewrite Hmax. lra.
  - unfold Deque.len. rewrite Hitems, length_app. simpl. lia.
  - apply (from_end_last _ older p Hitems).
  - exact Hs0.
  - eapply Forall_impl; [| exact Hall]. intros c [Hc _]. exact Hc.
Qed.

End SmootherState.

(** ** More on the guideline index *)

Section NearestHeadingOrder.

Import SVGParser.

Variable pt : Vec2.

(** The loop state once more, now recording where the kept segment stands:
    every segment before it that was not skipped is strictly farther from
    [pt], every such segment after it is at least as far. *)
Definition scan_first_invariant (seen : list (Vec2 * Vec2))
  (st : dist * option R) : Prop :=
  match st with
  | (Inf, None) => forall seg, In seg seen -> skipped seg
  | (Fin d, Some a) =>
      exists before seg after,
        seen = before ++ seg :: after /\ ~ skipped seg /\
        d = distance pt seg /\ a = angle seg /\
        (forall s, In s before -> ~ skipped s -> d < distance pt s) /\
        (forall s, In s after -> ~ skipped s -> d <= distance pt s)
  | _ => False
  end.

Lemma scan_segment_first_invariant (seen : list (Vec2 * Vec2))
  (st : dist * option R) (seg : Vec2 * Vec2) :
  scan_first_invariant seen st ->
  scan_first_invariant (seen ++ [seg]) (scan_segment pt st seg).
Proof.
  intros Hinv. destruct seg as [sp1 sp2]. unfold scan_segment.
  change (Np.sub sp2 sp1) with (direction (sp1, sp2)).
  change (Np.norm (Np.sub pt (closest_point pt sp1 sp2)))
    with (distance pt (sp1, sp2)).
  destruct (Py.ltb (Np.dot (direction (sp1, sp2)) (direction (sp1, sp2))) 1e-6)
    eqn:Hskip.
  - apply ltb_true_inv in Hskip.
    destruct st as [[| d] [a |]]; simpl in *; try contradiction.
    + intros s Hs. apply in_app_or in Hs. destruct Hs as [Hs | [<- | []]]; auto.
    + destruct Hinv as (before & s0 & after & -> & Hns & Hd & Ha & Hb & Haf).
      exists before, s0, (after ++ [(sp1, sp2)]).
      split; [rewrite <- app_assoc; reflexivity |].
      split; [exact Hns |]. split; [exact Hd |]. split; [exact Ha |].
      split; [exact Hb |].
      intros s Hs Hnss. apply in_app_or in Hs.
      destruct Hs as [Hs | [<- | []]]; [auto | contradiction].
  - apply ltb_false_inv in Hskip.
    assert (Hns : ~ skipped (sp1, sp2)) by (unfold skipped; lra).
    destruct st as [[| d] [a |]]; simpl in *; try contradiction.
    + exists seen, (sp1, sp2), [].
      split; [reflexivity |]. split; [exact Hns |].
      split; [reflexivity |]. split; [reflexivity |].
      split; [| intros s []].
      intros s Hs Hnss. exfalso. apply Hnss. apply Hinv. exact Hs.
    + destruct Hinv as (before & s0 & after & -> & Hns0 & Hd & Ha & Hb & Haf).
      destruct (Py.ltb (distance pt (sp1, sp2)) d) eqn:Hlt; simpl.
      * apply ltb_true_inv in Hlt.
        exists (before ++ s0 :: after), (sp1, sp2), [].
        split; [reflexivity |]. split; [exact Hns |].
        split; [reflexivity |]. split; [reflexivity |].
        split; [| intros s []].
        intros s Hs Hnss. apply in_app_or in Hs.
        destruct Hs as [Hs | [<- | Hs]].
        -- specialize (Hb s Hs Hnss). lra.
        -- lra.
        -- specialize (Haf s Hs Hnss). lra.
      * apply ltb_false_inv in Hlt.
        exists before, s0, (after ++ [(sp1, sp2)]).
        split; [rewrite <- app_assoc; reflexivity |].
        split; [exact Hns0 |]. split; [exact Hd |]. split; [exact Ha |].
        split; [exact Hb |].
        intros s Hs Hnss. apply in_app_or in Hs.
        destruct Hs as [Hs | [<- | []]]; [auto | lra].
Qed.

Lemma fold_scan_first_invariant (segs seen : list (Vec2 * Vec2))
  (st : dist * option R) :
  scan_first_invariant seen st ->
  scan_first_invariant (seen ++ segs) (fold_left (scan_segment pt) segs st).
Proof.
  revert seen st. induction segs as [| seg segs IH]; intros seen st Hinv; simpl.
  - rewrite app_nil_r. exact Hinv.
  - replace (seen ++ seg :: segs) with ((seen ++ [seg]) ++ segs)
      by (rewrite <- app_assoc; reflexivity).
    apply IH. apply scan_segment_first_invariant. exact Hinv.
Qed.

(** X10: among equally near segments the first one in the list wins: when
    [get_nearest_heading] returns a heading, it is the heading of a segment
    that is strictly nearer to the point than every segment listed before it
    and at least as near as every segment listed after it (segments that are
    skipped as too short aside). *)
Theorem nearest_heading_first_wins (self : SVGParser.t) (h : R) :
  get_nearest_heading self pt = Some h ->
  exists before seg after,
    orientation_segments self = before ++ seg :: after /\
    ~ skipped seg /\
    h = Py.mod_ (angle seg + 360) 360 /\
    (forall s, In s before -> ~ skipped s -> distance pt seg < distance pt s) /\
    (forall s, In s after -> ~ skipped s -> distance pt seg <= distance pt s).
Proof.
  unfold get_nearest_heading.
  destruct (negb (valid self) || _); [discriminate |].
  pose proof (fold_scan_first_invariant (orientation_segments self) [] (Inf, None))
    as Hinv.
  simpl in Hinv. specialize (Hinv (fun _ F => match F with end)).
  fold (scan pt (orientation_segments self)) in Hinv.
  destruct (scan pt (orientation_segments self)) as [[| d] [a |]];
    simpl in *; try contradiction; try discriminate.
  intros Hh. injection Hh as <-.
  destruct Hinv as (before & seg & after & Hsegs & Hns & -> & -> & Hb & Haf).
  exists before, seg, after. auto.
Qed.

End NearestHeadingOrder.

Section SvgHeading.

Import GProjection.

Lemma svg_heading_compass (self : GProjection.t) (sat_pt : Vec2) :
  TrackSmoother.compass (get_svg_heading self sat_pt).
Proof.
  unfold get_svg_heading.
  destruct (svg_parser self) as [p |]; [| exact I].
  destruct (SVGParser.valid p); [| exact I].
  unfold SVGParser.get_nearest_heading.
  destruct (negb (SVGParser.valid p) || _); [exact I |].
  destruct (snd (SVGParser.scan sat_pt (SVGParser.orientation_segments p)));
    [| exact I].
  simpl. apply mod_range. lra.
Qed.

(** X12: [get_svg_heading] answers null when the core has no guideline
    parser or the parser did not load; any heading it answers lies in
    [0, 360). *)
Theorem get_svg_heading_range (self : GProjection.t) (sat_pt : Vec2) :
  TrackSmoother.compass (get_svg_heading self sat_pt) /\
  (svg_parser self = None -> get_svg_heading self sat_pt = None) /\
  (forall p, svg_parser self = Some p -> SVGParser.valid p = false ->
     get_svg_heading self sat_pt = None).
Proof.
  unfold get_svg_heading. split; [| split].
  - destruct (svg_parser self) as [p |]; [| exact I].
    destruct (SVGParser.valid p); [| exact I].
    unfold SVGParser.get_nearest_heading.
    destruct (negb (SVGParser.valid p) || _); [exact I |].
    destruct (snd (SVGParser.scan sat_pt (SVGParser.orientation_segments p)));
      [| exact I].
    simpl. apply mod_range. lra.
  - intros ->. reflexivity.
  - intros p -> ->. reflexivity.
Qed.

End SvgHeading.

(** ** The coordinate maps of the projection core *)

Section ProjectionMaps.

Import GProjection.

Variable eps : R.
Variable undistortPoints : Mat3.t -> option (list R) -> Mat3.t -> Vec2 -> Vec2.
Variable projectPoint : Mat3.t -> option (list R) -> R * R * R -> Vec2.
Variable projectPoints_empty : result (list Vec2).
Variable lu_singular : Mat3.t -> option Mat3.t.

(** A core constructed on an invertible homography holds a two-sided
    inverse of it. *)
Lemma constructed_inverse (config : Config) (svg : option SVGParser.t)
  (g : GProjection.t) (h : Mat3.t) :
  __init__ lu_singular config svg = ret g ->
  H g = Some h ->
  Mat3.det h <> 0 ->
  K g = undistort_K config /\ P g = undistort_K config /\
  Mat3.matmul h (H_inv g) = Mat3.identity /\
  Mat3.matmul (H_inv g) h = Mat3.identity.
Proof.
  intros Hg HH Hd.
  destruct (constructed_fields lu_singular config svg g Hg)
    as (HK & _ & HP & HH' & Hinv).
  split; [exact HK |]. split; [exact HP |].
  rewrite <- HH', HH in Hinv.
  exact (inv_is_inverse lu_singular h (H_inv g) Hd Hinv).
Qed.

(** Mapping a point with a matrix and then with a left inverse of it gives
    the point back, when neither projective divisor is taken as 0. *)
Lemma perspective_left_inverse (a b : Mat3.t) (p : Vec2) :
  0 <= eps ->
  Mat3.matmul b a = Mat3.identity ->
  eps < Rabs (Mat3.m20 a * fst p + Mat3.m21 a * snd p + Mat3.m22 a) ->
  eps < Rabs (/ (Mat3.m20 a * fst p + Mat3.m21 a * snd p + Mat3.m22 a)) ->
  perspectiveTransform eps b (perspectiveTransform eps a p) = p.
Proof.
  intros Heps Hinv Hw Hw'.
  destruct a as [a00 a01 a02 a10 a11 a12 a20 a21 a22].
  destruct b as [b00 b01 b02 b10 b11 b12 b20 b21 b22].
  destruct p as [u v].
  unfold Mat3.matmul, Mat3.identity in Hinv. simpl in Hinv.
  injection Hinv as E00 E01 E02 E10 E11 E12 E20 E21 E22.
  unfold perspectiveTransform at 2. cbn [fst snd Mat3.m00 Mat3.m01 Mat3.m02
    Mat3.m10 Mat3.m11 Mat3.m12 Mat3.m20 Mat3.m21 Mat3.m22] in *.
  set (x := a00 * u + a01 * v + a02) in *.
  set (y := a10 * u + a11 * v + a12) in *.
  set (w := a20 * u + a21 * v + a22) in *.
  unfold Py.gtb. rewrite ltb_true by exact Hw.
  assert (Hw0 : w <> 0).
  { intros Hz. rewrite Hz, Rabs_R0 in Hw. lra. }
  assert (Nx : b00 * x + b01 * y + b02 * w = u).
  { transitivity ((b00 * a00 + b01 * a10 + b02 * a20) * u
                  + (b00 * a01 + b01 * a11 + b02 * a21) * v
                  + (b00 * a02 + b01 * a12 + b02 * a22));
      [unfold x, y, w; ring | rewrite E00, E01, E02; ring]. }
  assert (Ny : b10 * x + b11 * y + b12 * w = v).
  { transitivity ((b10 * a00 + b11 * a10 + b12 * a20) * u
                  + (b10 * a01 + b11 * a11 + b12 * a21) * v
                  + (b10 * a02 + b11 * a12 + b12 * a22));
      [unfold x, y, w; ring | rewrite E10, E11, E12; ring]. }
  assert (Nw : b20 * x + b21 * y + b22 * w = 1).
  { transitivity ((b20 * a00 + b21 * a10 + b22 * a20) * u
                  + (b20 * a01 + b21 * a11 + b22 * a21) * v
                  + (b20 * a02 + b21 * a12 + b22 * a22));
      [unfold x, y, w; ring | rewrite E20, E21, E22; ring]. }
  clearbody x y w.
  unfold perspectiveTransform. cbn [fst snd Mat3.m00 Mat3.m01 Mat3.m02
    Mat3.m10 Mat3.m11 Mat3.m12 Mat3.m20 Mat3.m21 Mat3.m22].
  replace (b00 * (x / w) + b01 * (y / w) + b02) with (u / w)
    by (rewrite <- Nx; field; exact Hw0).
  replace (b10 * (x / w) + b11 * (y / w) + b12) with (v / w)
    by (rewrite <- Ny; field; exact Hw0).
  replace (b20 * (x / w) + b21 * (y / w) + b22) with (/ w)
    by (rewrite <- (Rmult_1_l (/ w)), <- Nw; field; exact Hw0).
  unfold Py.gtb. rewrite ltb_true by exact Hw'.
  apply (f_equal2 pair); field; exact Hw0.
Qed.

(** X19: on a core constructed on an invertible homography ([det H <> 0])
    the two homography maps undo each other.  Mapping an undistorted pixel to
    the map and back returns the pixel, and mapping a map point to the image
    and back returns the map point, provided the projective divisor [w] of the
    first step and its reciprocal both exceed OpenCV's threshold (so that
    neither step answers (0, 0)). *)
Theorem homography_round_trip (config : Config) (svg : option SVGParser.t)
  (g : GProjection.t) (h : Mat3.t) :
  0 <= eps ->
  __init__ lu_singular config svg = ret g ->
  H g = Some h ->
  Mat3.det h <> 0 ->
  (forall u v,
     eps < Rabs (Mat3.m20 h * u + Mat3.m21 h * v + Mat3.m22 h) ->
     eps < Rabs (/ (Mat3.m20 h * u + Mat3.m21 h * v + Mat3.m22 h)) ->
     exists q, undistorted_to_flat_sat eps g u v = ret q /\
               flat_sat_to_undistorted eps g (fst q) (snd q) = (u, v))
  /\ (forall x y,
        eps < Rabs (Mat3.m20 (H_inv g) * x + Mat3.m21 (H_inv g) * y
                    + Mat3.m22 (H_inv g)) ->
        eps < Rabs (/ (Mat3.m20 (H_inv g) * x + Mat3.m21 (H_inv g) * y
                       + Mat3.m22 (H_inv g))) ->
        undistorted_to_flat_sat eps g
          (fst (flat_sat_to_undistorted eps g x y))
          (snd (flat_sat_to_undistorted eps g x y)) = ret (x, y)).
Proof.
  intros Heps Hinit HH Hdet.
  destruct (constructed_inverse config svg g h Hinit HH Hdet) as (_ & _ & Hr & Hl).
  split.
  - intros u v Hw Hw'. unfold undistorted_to_flat_sat, flat_sat_to_undistorted.
    rewrite HH. eexists. split; [reflexivity |].
    rewrite <- surjective_pairing.
    apply perspective_left_inverse; assumption.
  - intros x y Hw Hw'. unfold undistorted_to_flat_sat, flat_sat_to_undistorted.
    rewrite HH. unfold ret. f_equal.
    rewrite <- surjective_pairing.
    apply perspective_left_inverse; assumption.
Qed.

(** X18: every constructed core has a map scale above 0.001 px per metre:
    a configured [px_per_meter] at or below 0.001, or a missing one, is
    replaced by 1; a larger one is kept. *)
Theorem constructed_px_per_m_positive (config : Config)
  (svg : option SVGParser.t) (g : GProjection.t) :
  __init__ lu_singular config svg = ret g ->
  0.001 < px_per_m g /\
  (forall px, parallax_px_per_meter config = Some px -> 0.001 < px ->
     px_per_m g = px) /\
  (forall px, parallax_px_per_meter config = Some px -> px <= 0.001 ->
     px_per_m g = 1) /\
  (parallax_px_per_meter config = None -> px_per_m g = 1).
Proof.
  unfold __init__.
  destruct (_init_matrices lu_singular config) as [e | [[[[k d] p] h] hi]];
    simpl; [discriminate |].
  unfold _init_parallax.
  intros Hg. injection Hg as <-. simpl.
  destruct (parallax_px_per_meter config) as [px |]; simpl.
  - destruct (Rle_dec px 0.001) as [Hle | Hgt].
    + split; [lra |]. split; [| split]; [| reflexivity | discriminate].
      intros px' Hpx Hbig. injection Hpx as <-. lra.
    + split; [lra |]. split; [| split]; [| | discriminate].
      * intros px' Hpx _. injection Hpx as <-. reflexivity.
      * intros px' Hpx Hsmall. injection Hpx as <-. lra.
  - destruct (Rle_dec 1 0.001); [lra |].
    split; [lra |]. split; [discriminate |]. split; [discriminate | reflexivity].
Qed.

Lemma parallax_correct_zero (self : GProjection.t) (p : Vec2) :
  parallax_correct_ground_to_real self p 0 = p.
Proof.
  unfold parallax_correct_ground_to_real, Py.eqb.
  destruct (Req_dec_T (z_cam self) 0); [reflexivity |].
  destruct p as [x y], (cam_sat self) as [cx cy].
  unfold Np.add, Np.scale, Np.sub. cbn [fst snd].
  apply (f_equal2 pair); field; assumption.
Qed.

(** X20: an object height of 0 leaves every point where it is under both
    parallax operations, and at every height both operations leave the
    camera's ground footprint where it is. *)
Theorem parallax_fixed_points (self : GProjection.t) (p : Vec2) (h : R) :
  parallax_correct_ground_to_real self p 0 = p /\
  parallax_project_real_to_ground self p 0 = p /\
  parallax_correct_ground_to_real self (cam_sat self) h = cam_sat self /\
  parallax_project_real_to_ground self (cam_sat self) h = cam_sat self.
Proof.
  unfold parallax_correct_ground_to_real, parallax_project_real_to_ground.
  destruct p as [x y], (cam_sat self) as [cx cy].
  unfold Np.add, Np.scale, Np.sub, Py.eqb, Py.ltb. cbn [fst snd].
  repeat split.
  - destruct (Req_dec_T (z_cam self) 0); [reflexivity |].
    apply (f_equal2 pair); field; assumption.
  - destruct (Rlt_dec (Rabs (z_cam self - 0)) 0.01) as [Hlt | Hge]; [reflexivity |].
    assert (Hz : z_cam self <> 0).
    { intros Hz. apply Hge. rewrite Hz, Rminus_0_r, Rabs_R0. lra. }
    apply (f_equal2 pair); field; lra.
  - destruct (Req_dec_T (z_cam self) 0); [reflexivity |].
    apply (f_equal2 pair); field; assumption.
  - destruct (Rlt_dec (Rabs (z_cam self - h)) 0.01) as [Hlt | Hge]; [reflexivity |].
    assert (Hz : z_cam self - h <> 0).
    { intros Hz. apply Hge. rewrite Hz, Rabs_R0. lra. }
    apply (f_equal2 pair); field; exact Hz.
Qed.

Lemma norm_scale (k : R) (a : Vec2) : 0 <= k -> Np.norm (Np.scale k a) = k * Np.norm a.
Proof.
  intros Hk. unfold Np.norm, Np.scale. cbn [fst snd].
  replace (k * fst a * (k * fst a) + k * snd a * (k * snd a))
    with (k * k * (fst a * fst a + snd a * snd a)) by ring.
  rewrite sqrt_mult_alt by (apply Rle_0_sqr).
  rewrite sqrt_square by exact Hk. reflexivity.
Qed.

(** X21: for a camera height [z_cam > 0] and an object height [h] with
    [0 <= h <= z_cam], the corrected point lies on the ray from the camera
    footprint to the apparent point, at [(z_cam - h) / z_cam] of the apparent
    point's distance: the correction never moves a point away from the
    camera footprint. *)
Theorem parallax_correct_pulls_to_camera (self : GProjection.t) (p : Vec2) (h : R) :
  0 < z_cam self -> 0 <= h <= z_cam self ->
  let real := parallax_correct_ground_to_real self p h in
  Np.norm (Np.sub real (cam_sat self))
    = (z_cam self - h) / z_cam self * Np.norm (Np.sub p (cam_sat self)) /\
  Np.norm (Np.sub real (cam_sat self)) <= Np.norm (Np.sub p (cam_sat self)).
Proof.
  intros Hz Hh real. subst real. unfold parallax_correct_ground_to_real.
  rewrite eqb_false by lra.
  set (k := (z_cam self - h) / z_cam self).
  assert (Hk : 0 <= k <= 1).
  { unfold k. split.
    - apply Rmult_le_pos; [lra | left; apply Rinv_0_lt_compat; exact Hz].
    - apply Rmult_le_reg_r with (r := z_cam self); [exact Hz |].
      replace ((z_cam self - h) / z_cam self * z_cam self) with (z_cam self - h)
        by (field; lra).
      lra. }
  assert (Hsub : Np.sub (Np.add (cam_sat self) (Np.scale k (Np.sub p (cam_sat self))))
                   (cam_sat self) = Np.scale k (Np.sub p (cam_sat self))).
  { unfold Np.sub, Np.add, Np.scale. cbn [fst snd]. apply (f_equal2 pair); ring. }
  rewrite Hsub, norm_scale by lra.
  split; [reflexivity |].
  assert (Hn : 0 <= Np.norm (Np.sub p (cam_sat self))) by apply sqrt_pos.
  assert (k * Np.norm (Np.sub p (cam_sat self))
          <= 1 * Np.norm (Np.sub p (cam_sat self)))
    by (apply Rmult_le_compat_r; lra).
  lra.
Qed.

Lemma match_nonempty {A C : Type} (l : list A) (x y : C) :
  l <> [] -> match l with [] => x | _ :: _ => y end = y.
Proof. destruct l; [contradiction | reflexivity]. Qed.

(** The point whose image is a ceiling corner is the point [sat_to_cctv]
    projects at that height. *)
Lemma ceiling_point (self : GProjection.t) (p : Vec2) (h : R) :
  Np.add (cam_sat self)
    (Np.scale (if Py.ltb (Rabs (z_cam self - h)) 0.01 then 1
               else z_cam self / (z_cam self - h))
       (Np.sub p (cam_sat self)))
  = (if Py.eqb h 0 then (fst p, snd p)
     else parallax_project_real_to_ground self (fst p, snd p) h).
Proof.
  assert (Hone : Np.add (cam_sat self) (Np.scale 1 (Np.sub p (cam_sat self)))
                 = (fst p, snd p)).
  { unfold Np.add, Np.scale, Np.sub. cbn [fst snd]. apply (f_equal2 pair); ring. }
  unfold parallax_project_real_to_ground, Py.eqb.
  destruct (Req_dec_T h 0) as [-> | Hh].
  - destruct (Py.ltb (Rabs (z_cam self - 0)) 0.01) eqn:Hnear; [exact Hone |].
    apply ltb_false_inv in Hnear.
    assert (Hz : z_cam self <> 0).
    { intros Hz. rewrite Hz, Rminus_0_r, Rabs_R0 in Hnear. lra. }
    replace (z_cam self / (z_cam self - 0)) with 1 by (field; exact Hz).
    exact Hone.
  - destruct (Py.ltb (Rabs (z_cam self - h)) 0.01); [exact Hone |].
    rewrite <- surjective_pairing. reflexivity.
Qed.

(** X22: lifting a non-empty floor polygon gives the floor corners followed
    by the ceiling corners, in the polygon's order: the i-th floor point is
    [sat_to_cctv] of the i-th corner at height 0, and the i-th ceiling point
    is [sat_to_cctv] of the same corner at the object's height.  Without an
    intrinsic matrix the call fails with [IndexError]. *)
Theorem sat_floor_box_is_sat_to_cctv (self : GProjection.t)
  (sat_poly : list Vec2) (obj_height_m : R) :
  (K self = None ->
   sat_floor_to_cctv_3d eps projectPoint projectPoints_empty self sat_poly
     obj_height_m = raise IndexError)
  /\ (K self <> None -> sat_poly <> [] ->
      exists floor ceiling,
        sat_floor_to_cctv_3d eps projectPoint projectPoints_empty self sat_poly
          obj_height_m = ret (floor ++ ceiling) /\
        Forall2 (fun p q =>
                   sat_to_cctv eps projectPoint self (fst p) (snd p) 0 = ret q)
          sat_poly floor /\
        Forall2 (fun p q =>
                   sat_to_cctv eps projectPoint self (fst p) (snd p) obj_height_m
                   = ret q)
          sat_poly ceiling).
Proof.
  unfold sat_floor_to_cctv_3d. split.
  - intros ->. reflexivity.
  - intros HK Hpoly. destruct (K self) as [k |] eqn:EK; [| contradiction].
    set (flat := fun p : Vec2 => flat_sat_to_undistorted eps self (fst p) (snd p)).
    set (top := fun p : Vec2 =>
      flat_sat_to_undistorted eps self
        (fst (Np.add (cam_sat self)
                (Np.scale (if Py.ltb (Rabs (z_cam self - obj_height_m)) 0.01 then 1
                           else z_cam self / (z_cam self - obj_height_m))
                   (Np.sub p (cam_sat self)))))
        (snd (Np.add (cam_sat self)
                (Np.scale (if Py.ltb (Rabs (z_cam self - obj_height_m)) 0.01 then 1
                           else z_cam self / (z_cam self - obj_height_m))
                   (Np.sub p (cam_sat self)))))).
    set (image := fun q : Vec2 => projectPoint k (D self) (normalized_ray k q)).
    exists (map (fun p => image (flat p)) sat_poly),
           (map (fun p => image (top p)) sat_poly).
    split; [| split].
    + rewrite match_nonempty.
      * rewrite !map_app, !map_map. reflexivity.
      * intros Hm. apply map_eq_nil, app_eq_nil in Hm. destruct Hm as [Hm _].
        apply map_eq_nil in Hm. contradiction.
    + clear Hpoly. induction sat_poly as [| p rest IH]; simpl; constructor; [| exact IH].
      unfold sat_to_cctv, undistorted_to_cctv. rewrite EK.
      rewrite eqb_true by reflexivity. cbn [fst snd].
      rewrite <- surjective_pairing. reflexivity.
    + clear Hpoly. induction sat_poly as [| p rest IH]; simpl; constructor; [| exact IH].
      unfold sat_to_cctv, undistorted_to_cctv. rewrite EK.
      unfold top. rewrite ceiling_point.
      rewrite <- surjective_pairing. reflexivity.
Qed.

(** X23: with a height prior of 0, or a [proj_method] other than "down_h" and
    "down_h_2", the ground coordinate of a box is the plain map image of its
    reference point, and that reference point is the bottom centre of the box
    for "center_bottom_side" and the box centre for any other [ref_method]. *)
Theorem ground_contact_without_height (self : GProjection.t)
  (rx ry rw rh h_meters : R) (ref_method proj_method : string)
  (gc : GroundContact) :
  h_meters = 0 \/ (proj_method <> "down_h" /\ proj_method <> "down_h_2")%string ->
  get_ground_contact_from_box eps undistortPoints projectPoint self
    (rx, ry, rw, rh) h_meters ref_method proj_method = ret gc ->
  cctv_ref_point gc
    = (rx + rw / 2,
       if String.eqb ref_method "center_bottom_side" then ry + rh else ry + rh / 2)
  /\ cctv_to_sat eps undistortPoints self (fst (cctv_ref_point gc))
       (snd (cctv_ref_point gc)) 0 = ret (sat_coords gc).
Proof.
  intros Hflat. unfold get_ground_contact_from_box.
  set (cx := rx + rw / 2).
  set (cy := if String.eqb ref_method "center_bottom_side" then ry + rh
             else ry + rh / 2).
  destruct (cctv_to_sat eps undistortPoints self cx cy 0) as [e | apparent] eqn:Hsat;
    simpl; [discriminate |].
  assert (Hfinal :
    (if String.eqb proj_method "down_h"
     then parallax_correct_ground_to_real self apparent h_meters
     else if String.eqb proj_method "down_h_2"
     then parallax_correct_ground_to_real self apparent (h_meters / 2)
     else apparent) = apparent).
  { destruct Hflat as [-> | [Hd Hd2]].
    - replace (0 / 2) with 0 by field.
      rewrite parallax_correct_zero. destruct (String.eqb proj_method "down_h");
        [| destruct (String.eqb proj_method "down_h_2")]; reflexivity.
    - apply String.eqb_neq in Hd. apply String.eqb_neq in Hd2.
      rewrite Hd, Hd2. reflexivity. }
  rewrite Hfinal.
  destruct (sat_to_cctv eps projectPoint self (fst apparent) (snd apparent) 0)
    as [e | gc_cctv]; simpl; [discriminate |].
  intros Hgc. injection Hgc as <-. simpl. split; [reflexivity | exact Hsat].
Qed.

Lemma parallax_project_correct (self : GProjection.t) (p : Vec2) (h : R) :
  z_cam self <> 0 -> 0.01 <= Rabs (z_cam self - h) ->
  parallax_project_real_to_ground self (parallax_correct_ground_to_real self p h) h
    = p.
Proof.
  intros Hz Hgap.
  assert (Hne : z_cam self - h <> 0).
  { intros H0. rewrite H0, Rabs_R0 in Hgap. lra. }
  unfold parallax_project_real_to_ground, parallax_correct_ground_to_real.
  rewrite eqb_false by exact Hz.
  rewrite ltb_false by lra.
  destruct p as [x y], (cam_sat self) as [cx cy].
  unfold Np.add, Np.scale, Np.sub. simpl.
  apply (f_equal2 pair); field; split; assumption.
Qed.

(** X24: the whole chain undoes itself.  On a core constructed on an
    invertible homography ([det H <> 0]), take a pixel at which OpenCV's
    distortion undoes its undistortion, whose projective divisor and its
    reciprocal exceed the threshold, and an object height [h] that is 0, or
    any height at least 0.01 away from a camera height [z_cam] other than 0
    (below, above or negative).  Then [cctv_to_sat] succeeds and [sat_to_cctv]
    at the same height maps its result back to the pixel. *)
Theorem cctv_sat_round_trip (config : Config) (svg : option SVGParser.t)
  (g : GProjection.t) (k hm : Mat3.t) (u v h : R) :
  0 <= eps ->
  __init__ lu_singular config svg = ret g ->
  K g = Some k ->
  H g = Some hm ->
  Mat3.det hm <> 0 ->
  let uu := undistortPoints k (D g) k (u, v) in
  projectPoint k (D g) (normalized_ray k uu) = (u, v) ->
  eps < Rabs (Mat3.m20 hm * fst uu + Mat3.m21 hm * snd uu + Mat3.m22 hm) ->
  eps < Rabs (/ (Mat3.m20 hm * fst uu + Mat3.m21 hm * snd uu + Mat3.m22 hm)) ->
  h = 0 \/ (z_cam g <> 0 /\ 0.01 <= Rabs (z_cam g - h)) ->
  exists s, cctv_to_sat eps undistortPoints g u v h = ret s /\
            sat_to_cctv eps projectPoint g (fst s) (snd s) h = ret (u, v).
Proof.
  intros Heps Hinit HK HH Hdet uu Hlens Hw Hw' Hheight.
  destruct (constructed_inverse config svg g hm Hinit HH Hdet)
    as (HK' & HP' & Hr & Hl).
  assert (HP : P g = Some k) by (rewrite HP', <- HK'; exact HK).
  assert (Hback : flat_sat_to_undistorted eps g
                    (fst (perspectiveTransform eps hm uu))
                    (snd (perspectiveTransform eps hm uu)) = uu).
  { unfold flat_sat_to_undistorted. rewrite <- surjective_pairing.
    apply perspective_left_inverse; assumption. }
  unfold cctv_to_sat, cctv_to_undistorted, undistorted_to_flat_sat.
  rewrite HK, HP, HH. simpl. fold uu. rewrite <- surjective_pairing.
  unfold sat_to_cctv, undistorted_to_cctv. rewrite HK.
  destruct (Req_dec_T h 0) as [-> | Hh].
  - rewrite eqb_true by reflexivity. eexists. split; [reflexivity |].
    cbn [fst snd]. rewrite Hback, <- surjective_pairing, Hlens.
    reflexivity.
  - destruct Hheight as [-> | [Hz Hgap]]; [contradiction Hh; reflexivity |].
    rewrite eqb_false by exact Hh. eexists. split; [reflexivity |].
    repeat rewrite <- surjective_pairing.
    rewrite parallax_project_correct by assumption.
    rewrite Hback, Hlens. reflexivity.
Qed.

End ProjectionMaps.

(** ** Reading the guideline document *)

Section Transforms.

Import SVGParser.

Lemma matmul_assoc (a b c : Mat3.t) :
  Mat3.matmul (Mat3.matmul a b) c = Mat3.matmul a (Mat3.matmul b c).
Proof.
  destruct a, b, c. unfold Mat3.matmul. simpl.
  f_equal; ring.
Qed.

Lemma matmul_1_l (a : Mat3.t) : Mat3.matmul Mat3.identity a = a.
Proof. destruct a. unfold Mat3.matmul, Mat3.identity. simpl. f_equal; ring. Qed.

Lemma matmul_1_r (a : Mat3.t) : Mat3.matmul a Mat3.identity = a.
Proof. destruct a. unfold Mat3.matmul, Mat3.identity. simpl. f_equal; ring. Qed.

(** The loop body of [_parse_transform]. *)
Definition parse_step (M : result Mat3.t) (o : op) : result Mat3.t :=
  m <- M ;; T <- op_matrix o ;; ret (Mat3.matmul m T).

Lemma parse_fold_error (ops : list op) (e : exn) :
  fold_left parse_step ops (inl e) = inl e.
Proof. induction ops as [| o ops IH]; simpl; [reflexivity | exact IH]. Qed.

Lemma parse_fold_from (ops : list op) (m : Mat3.t) :
  fold_left parse_step ops (ret m)
  = (m2 <- _parse_transform ops ;; ret (Mat3.matmul m m2)).
Proof.
  unfold _parse_transform. fold parse_step.
  revert m. induction ops as [| o ops IH]; intros m; simpl.
  - rewrite matmul_1_r. reflexivity.
  - destruct (op_matrix o) as [e | T]; simpl.
    + rewrite !parse_fold_error. reflexivity.
    + rewrite (IH (Mat3.matmul m T)), (IH (Mat3.matmul Mat3.identity T)).
      destruct (fold_left parse_step ops (ret Mat3.identity)) as [e | m3]; simpl;
        [reflexivity |].
      rewrite matmul_1_l, matmul_assoc. reflexivity.
Qed.

Lemma parse_app (ops1 ops2 : list op) :
  _parse_transform (ops1 ++ ops2)
  = (m1 <- _parse_transform ops1 ;;
     m2 <- _parse_transform ops2 ;;
     ret (Mat3.matmul m1 m2)).
Proof.
  unfold _parse_transform at 1. fold parse_step. rewrite fold_left_app.
  change (fold_left parse_step ops1 (ret Mat3.identity))
    with (_parse_transform ops1).
  destruct (_parse_transform ops1) as [e | m1]; simpl.
  - apply parse_fold_error.
  - apply parse_fold_from.
Qed.

(** X13: the operators of a [transform] attribute compose from left to
    right: parsing two operator lists one after the other gives the product
    of their matrices, in that order, and fails as the first failing list
    does; so an operator that raises makes the whole attribute raise,
    whatever follows it. *)
Theorem transform_operators_compose (ops1 ops2 : list op) :
  _parse_transform (ops1 ++ ops2)
  = (m1 <- _parse_transform ops1 ;;
     m2 <- _parse_transform ops2 ;;
     ret (Mat3.matmul m1 m2))
  /\ (forall o m e,
        _parse_transform ops1 = ret m -> op_matrix o = inl e ->
        _parse_transform (ops1 ++ o :: ops2) = inl e).
Proof.
  split; [apply parse_app |].
  intros o m e Hm He.
  rewrite parse_app, Hm. simpl.
  change (o :: ops2) with ([o] ++ ops2). rewrite parse_app.
  unfold _parse_transform at 1. simpl. rewrite He. reflexivity.
Qed.

(** X14: [rotate(deg, cx, cy)] is a rotation about the pivot: its matrix
    leaves the pivot [(cx, cy)] where it is and keeps every point at its
    distance from the pivot. *)
Theorem rotate_about_pivot (deg cx cy : R) :
  exists m,
    op_matrix ("rotate"%string, [deg; cx; cy]) = ret m /\
    mulvec m (cx, cy, 1) = (cx, cy, 1) /\
    forall x y,
      let '(x', y', w') := mulvec m (x, y, 1) in
      w' = 1 /\
      (x' - cx) * (x' - cx) + (y' - cy) * (y' - cy)
      = (x - cx) * (x - cx) + (y - cy) * (y - cy).
Proof.
  eexists. split; [reflexivity |].
  unfold mulvec, Mat3.matmul, translation, rotation. simpl.
  set (c := cos (Py.radians deg)). set (s := sin (Py.radians deg)).
  assert (Hcs : s * s + c * c = 1).
  { pose proof (sin2_cos2 (Py.radians deg)) as Hsc. unfold Rsqr in Hsc.
    exact Hsc. }
  split.
  - f_equal; [f_equal |]; ring.
  - intros x y. split; [ring |].
    transitivity ((s * s + c * c) * ((x - cx) * (x - cx) + (y - cy) * (y - cy)));
      [ring | rewrite Hcs; ring].
Qed.

Lemma item_short (vals : list R) (i : nat) :
  (length vals <= i)%nat -> item vals i = raise IndexError.
Proof.
  intros Hlen. unfold item.
  rewrite (proj2 (nth_error_None vals i) Hlen). reflexivity.
Qed.

(** X15: the edges of the operator syntax.  [translate] and [rotate] without
    a number and [matrix] with fewer than six numbers raise [IndexError];
    [translate(tx)] moves along x only; [rotate] with two numbers ignores the
    second; and an operator of any other name counts as the identity. *)
Theorem transform_operator_edges :
  op_matrix ("translate"%string, []) = raise IndexError /\
  op_matrix ("rotate"%string, []) = raise IndexError /\
  (forall vals, (length vals < 6)%nat ->
     op_matrix ("matrix"%string, vals) = raise IndexError) /\
  (forall tx, op_matrix ("translate"%string, [tx]) = ret (translation tx 0)) /\
  (forall deg a, op_matrix ("rotate"%string, [deg; a]) = ret (rotation deg)) /\
  (forall name vals,
     name <> "translate"%string -> name <> "rotate"%string ->
     name <> "matrix"%string ->
     op_matrix (name, vals) = ret Mat3.identity).
Proof.
  split; [reflexivity |]. split; [reflexivity |].
  split; [| split; [reflexivity | split; [reflexivity |]]].
  - intros vals Hlen. unfold op_matrix. simpl.
    destruct vals as [| a [| b [| c [| d [| e [| f rest]]]]]]; simpl in *;
      try reflexivity; lia.
  - intros name vals Ht Hr Hm. unfold op_matrix.
    apply String.eqb_neq in Ht, Hr, Hm. rewrite Ht, Hr, Hm. reflexivity.
Qed.

End Transforms.

Section Elements.

Import SVGParser.

Lemma consecutive_ends (l : list Vec2) :
  map fst (consecutive l) = removelast l /\ map snd (consecutive l) = tl l.
Proof.
  induction l as [| a [| b rest] IH]; simpl; [auto | auto |].
  simpl in IH. destruct IH as [IH1 IH2].
  split.
  - f_equal. exact IH1.
  - f_equal. destruct rest; [reflexivity | simpl in *; exact IH2].
Qed.

Lemma removelast_last (l : list Vec2) (a d : Vec2) :
  removelast (a :: l) ++ [last (a :: l) d] = a :: l.
Proof.
  symmetry. apply app_removelast_last. discriminate.
Qed.

Lemma reshape2_odd (raw : list R) :
  (Nat.odd (length raw) = true -> reshape2 raw = raise ValueError) /\
  (forall a, Nat.odd (length (a :: raw)) = true ->
             reshape2 (a :: raw) = raise ValueError).
Proof.
  induction raw as [| b raw [IH1 IH2]].
  - split; [discriminate | reflexivity].
  - split; [apply IH2 |].
    intros a Hodd. simpl. rewrite IH1; [reflexivity |].
    simpl length in Hodd. rewrite Nat.odd_succ_succ in Hodd. exact Hodd.
Qed.

(** X16: what an element without children adds to the segment list, its
    [transform] being well formed.  A [line] adds the one segment between its
    two placed endpoints.  A [polyline] adds a chain: the segments start at
    all placed points but the last and end at all but the first.  A [polygon]
    adds a closed chain: one segment starts at each placed point and ends at
    the next, the last one ending at the first point.  An odd count of
    coordinates raises [ValueError], and any other tag adds nothing. *)
Theorem element_segments_spec (align parent_mat m : Mat3.t) (tag : string)
  (id : option string) (transform : list op) (x1 y1 x2 y2 : option R)
  (points : list R) (acc : list (Vec2 * Vec2)) :
  _parse_transform transform = ret m ->
  let el := Element tag id transform x1 y1 x2 y2 points [] in
  let put := place align (Mat3.matmul parent_mat m) in
  (local_name tag = "line"%string ->
   _process_node align el parent_mat acc
   = ret (acc ++ [(put (Py.get x1 0, Py.get y1 0), put (Py.get x2 0, Py.get y2 0))]))
  /\ (local_name tag = "polyline"%string -> forall pts, reshape2 points = ret pts ->
      exists segs, _process_node align el parent_mat acc = ret (acc ++ segs) /\
        map fst segs = removelast (map put pts) /\
        map snd segs = tl (map put pts))
  /\ (local_name tag = "polygon"%string -> forall p0 pts,
      reshape2 points = ret (p0 :: pts) ->
      exists segs, _process_node align el parent_mat acc = ret (acc ++ segs) /\
        map fst segs = map put (p0 :: pts) /\
        map snd segs = map put (pts ++ [p0]))
  /\ ((local_name tag = "polyline"%string \/ local_name tag = "polygon"%string) ->
      Nat.odd (length points) = true ->
      _process_node align el parent_mat acc = raise ValueError)
  /\ (local_name tag <> "line"%string -> local_name tag <> "polyline"%string ->
      local_name tag <> "polygon"%string ->
      _process_node align el parent_mat acc = ret acc).
Proof.
  intros Hm el put. subst el. simpl. rewrite Hm. simpl. fold put.
  unfold element_points.
  split; [| split; [| split; [| split]]].
  - intros ->. simpl. reflexivity.
  - intros -> pts Hpts. simpl. rewrite Hpts. simpl.
    unfold element_segments.
    destruct (map put pts) as [| a t] eqn:Ht.
    + exists []. simpl. auto.
    + exists (consecutive (a :: t)). simpl String.eqb. cbv iota.
      rewrite app_nil_r. split; [reflexivity |]. apply consecutive_ends.
  - intros -> p0 pts Hpts. simpl. rewrite Hpts. simpl.
    set (a := put p0). set (t := map put pts).
    exists (consecutive (a :: t) ++ [(last (a :: t) a, a)]).
    split; [reflexivity |].
    destruct (consecutive_ends (a :: t)) as [Hf Hs].
    rewrite !map_app, Hf, Hs. simpl map.
    split.
    + apply (removelast_last t a a).
    + reflexivity.
  - intros Htag Hodd.
    assert (Hre : reshape2 points = raise ValueError)
      by (apply reshape2_odd; exact Hodd).
    destruct Htag as [-> | ->]; simpl; rewrite Hre; reflexivity.
  - intros Hl Hpl Hpg.
    apply String.eqb_neq in Hl, Hpl, Hpg. rewrite Hl, Hpl, Hpg. simpl.
    rewrite app_nil_r. reflexivity.
Qed.

End Elements.

Section Extraction.

Import SVGParser.

(** X17: only the groups named "Guidelines" and "Physical" feed the index,
    and nothing above such a group counts.  A document without such a group
    gives no segment; and an element that is not such a group and has a
    single child gives exactly what the child alone gives, so that its own
    geometry and its [transform] attribute, even a malformed one, are never
    read. *)
Theorem extraction_scope (align : Mat3.t) :
  (forall root,
     (forall el, In el (iter root) -> is_target el = false) ->
     _extract_segments align root = ret [])
  /\ (forall tag id transform x1 y1 x2 y2 points child,
        is_target (Element tag id transform x1 y1 x2 y2 points [child]) = false ->
        _extract_segments align
          (Element tag id transform x1 y1 x2 y2 points [child])
        = _extract_segments align child).
Proof.
  split.
  - intros root Hnone. unfold _extract_segments.
    replace (filter is_target (iter root)) with (@nil element); [reflexivity |].
    symmetry. induction (iter root) as [| el l IH]; [reflexivity |].
    simpl. rewrite (Hnone el (in_eq el l)).
    apply IH. intros el' Hin. apply Hnone. apply in_cons. exact Hin.
  - intros tag id transform x1 y1 x2 y2 points child Hroot.
    unfold _extract_segments.
    change (iter (Element tag id transform x1 y1 x2 y2 points [child]))
      with (Element tag id transform x1 y1 x2 y2 points [child]
            :: (iter child ++ [])).
    rewrite app_nil_r. simpl filter. rewrite Hroot. reflexivity.
Qed.

(** A guideline index that could not be built answers no heading.  When
    the document is missing or unreadable, or extracting its segments raises
    (a malformed [transform], an odd count of polygon coordinates, anywhere in
    a guideline group), the index is invalid and empty and
    [get_nearest_heading] returns [None] at every point. *)
Lemma failed_load_has_no_heading (root : option element)
  (alignment_matrix_A : option ((R * R * R) * (R * R * R))) (pt : Vec2) :
  root = None
  \/ (exists r e, root = Some r /\
        _extract_segments (M_align alignment_matrix_A) r = inl e) ->
  valid (__init__ root alignment_matrix_A) = false /\
  orientation_segments (__init__ root alignment_matrix_A) = [] /\
  get_nearest_heading (__init__ root alignment_matrix_A) pt = None.
Proof.
  intros [-> | (r & e & -> & He)]; unfold __init__; [| rewrite He];
    repeat split; reflexivity.
Qed.

End Extraction.

(** ** The inference loop *)

Section EngineLoop.

Import Engine.

Variable fitLine : list Vec2 -> Vec2.
Variable kinematics : TrackSmoother.Config.
Variable g_engine : GProjection.t.
Variable use_svg : bool.
Variable real_fps : R.

(** X26: with a positive frame rate the time step handed to the smoother is
    positive: it is the frame gap over the frame rate when the track was last
    seen in an earlier frame, and one frame period otherwise.  A frame rate of
    0 raises [ZeroDivisionError]. *)
Theorem frame_dt_positive (i prev_f : Z) :
  (0 < real_fps ->
   exists dt, frame_dt real_fps i prev_f = ret dt /\ 0 < dt /\
     ((prev_f < i)%Z -> dt = IZR (i - prev_f) / real_fps) /\
     ((i <= prev_f)%Z -> dt = 1 / real_fps))
  /\ (real_fps = 0 -> frame_dt real_fps i prev_f = raise ZeroDivisionError).
Proof.
  unfold frame_dt. split.
  - intros Hfps. rewrite eqb_false by lra.
    assert (Hinv : 0 < / real_fps) by (apply Rinv_0_lt_compat; exact Hfps).
    destruct (Rle_dec (IZR (i - prev_f) / real_fps) 0) as [Hle | Hgt].
    + exists (1 / real_fps). split; [reflexivity |].
      split; [unfold Rdiv; lra |]. split; [| reflexivity].
      intros Hlt. exfalso.
      assert (0 < IZR (i - prev_f)) by (apply IZR_lt; lia).
      assert (0 < IZR (i - prev_f) / real_fps) by (apply Rmult_lt_0_compat; lra).
      lra.
    + exists (IZR (i - prev_f) / real_fps). split; [reflexivity |].
      split; [lra |]. split; [reflexivity |].
      intros Hle. exfalso. apply Hgt.
      assert (IZR (i - prev_f) <= 0) by (apply IZR_le; lia).
      unfold Rdiv. rewrite <- (Rmult_0_l (/ real_fps)).
      apply Rmult_le_compat_r; lra.
  - intros ->. rewrite eqb_true by reflexivity. reflexivity.
Qed.

(** X27: tracks do not disturb each other: processing a detection of one
    track leaves the smoother and the last-seen frame of every other track
    as they were. *)
Theorem tracks_are_independent (tracks tracks' : Tracks) (i tid other : Z)
  (sat_coords : Vec2) (out : Kinematics) :
  kinematics_step fitLine kinematics g_engine use_svg real_fps tracks i
    (Some tid) sat_coords = ret (tracks', out) ->
  other <> tid ->
  ZMap.find other (track_smoothers tracks')
    = ZMap.find other (track_smoothers tracks) /\
  ZMap.find other (last_seen_frame tracks')
    = ZMap.find other (last_seen_frame tracks).
Proof.
  intros Hstep Hother. unfold kinematics_step in Hstep.
  assert (Hne : tid <> other) by congruence.
  destruct (frame_dt real_fps i _) as [e | dt]; simpl in Hstep; [discriminate |].
  destruct (ZMap.mem tid (track_smoothers tracks)); simpl in Hstep.
  - destruct (ZMap.find tid (track_smoothers tracks)) as [sm |]; [| discriminate].
    destruct (TrackSmoother.update fitLine sm _ _ _ _) as [sm' k].
    injection Hstep as <- _. simpl.
    rewrite !ZMapFacts.add_neq_o by exact Hne. auto.
  - destruct (ZMap.find tid (ZMap.add tid _ (track_smoothers tracks)))
      as [sm |]; [| discriminate].
    destruct (TrackSmoother.update fitLine sm _ _ _ _) as [sm' k].
    injection Hstep as <- _. simpl.
    rewrite !ZMapFacts.add_neq_o by exact Hne. auto.
Qed.

Lemma frame_dt_returns (i prev_f : Z) :
  real_fps <> 0 -> exists dt, frame_dt real_fps i prev_f = ret dt.
Proof.
  intros Hfps. unfold frame_dt. rewrite eqb_false by exact Hfps.
  destruct (Rle_dec _ 0); eexists; reflexivity.
Qed.

(** X28: the first detection of a track (an id with no smoother yet), at a
    nonzero frame rate, creates its smoother and reports speed 0 and, as the
    heading, the guideline heading at the position marked as default, or no
    heading when there is no guideline; afterwards the track's smoother is in
    its state after one observation and its last-seen frame is [i]. *)
Theorem first_sighting (tracks : Tracks) (i tid : Z) (sat_coords : Vec2) :
  ZMap.mem tid (track_smoothers tracks) = false ->
  real_fps <> 0 ->
  let svg_h := if use_svg then GProjection.get_svg_heading g_engine sat_coords
               else None in
  let seen := match svg_h with Some _ => true | None => false end in
  exists tracks',
    kinematics_step fitLine kinematics g_engine use_svg real_fps tracks i
      (Some tid) sat_coords
    = ret (tracks', Build_Kinematics 0 svg_h seen seen) /\
    ZMap.find tid (track_smoothers tracks')
      = Some (first_state kinematics sat_coords) /\
    ZMap.find tid (last_seen_frame tracks') = Some i.
Proof.
  intros Hnew Hfps svg_h seen. unfold kinematics_step. rewrite Hnew.
  cbn [track_smoothers last_seen_frame].
  rewrite !ZMapFacts.add_eq_o by reflexivity.
  destruct (frame_dt_returns i (i - 1) Hfps) as [dt ->]. simpl.
  fold svg_h. rewrite first_update.
  eexists. split; [| split].
  - unfold seen. destruct svg_h; reflexivity.
  - simpl. apply ZMapFacts.add_eq_o. reflexivity.
  - simpl. apply ZMapFacts.add_eq_o. reflexivity.
Qed.

(** X29: whatever the loop hands on for a detection is consistent: the
    heading is null or lies in [0, 360); [have_heading] says whether there is
    a heading; without a heading the speed is reported as 0; and a tracked
    detection leaves its track with a smoother and with [i] as its last-seen
    frame. *)
Theorem step_output_consistent (tracks tracks' : Tracks) (i : Z)
  (tid : option Z) (sat_coords : Vec2) (out : Kinematics) :
  kinematics_step fitLine kinematics g_engine use_svg real_fps tracks i
    tid sat_coords = ret (tracks', out) ->
  TrackSmoother.compass (heading out) /\
  have_heading out = (match heading out with Some _ => true | None => false end) /\
  (heading out = None -> speed out = 0) /\
  (forall t, tid = Some t ->
     ZMap.find t (last_seen_frame tracks') = Some i /\
     exists sm, ZMap.find t (track_smoothers tracks') = Some sm).
Proof.
  unfold kinematics_step. destruct tid as [t |].
  - set (tr := if ZMap.mem t (track_smoothers tracks) then tracks else _).
    set (svg_h := if use_svg then _ else None).
    destruct (frame_dt real_fps i _) as [e | dt]; simpl; [discriminate |].
    destruct (ZMap.find t (track_smoothers tr)) as [sm |]; [| discriminate].
    assert (Hsvg : TrackSmoother.compass svg_h).
    { unfold svg_h. destruct use_svg; [apply svg_heading_compass | exact I]. }
    pose proof (update_heading_range fitLine sm
                  (TrackSmoother.Build_Call sat_coords dt
                     (GProjection.px_per_m g_engine) svg_h) Hsvg) as Hrange.
    unfold TrackSmoother.update_call in Hrange. simpl in Hrange.
    destruct (TrackSmoother.update fitLine sm _ _ _ _) as [sm' k].
    intros Hout. injection Hout as <- <-. simpl in *.
    split; [exact Hrange |]. split; [reflexivity |].
    split.
    + intros Hnone. rewrite Hnone. reflexivity.
    + intros t' Ht. injection Ht as <-.
      rewrite !ZMapFacts.add_eq_o by reflexivity. eauto.
  - intros Hout. injection Hout as <- <-. simpl.
    split; [exact I |]. split; [reflexivity |]. split; [reflexivity |].
    intros t Ht. discriminate Ht.
Qed.

Lemma norm_of_square (x y k : R) :
  0 <= k -> x * x + y * y = k * k -> Np.norm (x, y) = k.
Proof.
  intros Hk Hsq. unfold Np.norm. simpl. rewrite Hsq. apply sqrt_square. exact Hk.
Qed.

End EngineLoop.

Section FloorBox.

Import Engine.

(** X30: the floor box is a rectangle around the ground coordinate: its four
    corners come in order, opposite corners are mirror images through
    [sat_coords], adjacent sides are perpendicular, and the sides measure the
    object's width and length in map pixels, whatever the heading. *)
Theorem floor_box_is_rectangle (heading w_m l_m px_m : R) (sat_coords : Vec2) :
  0 <= w_m * px_m -> 0 <= l_m * px_m ->
  exists c0 c1 c2 c3,
    sat_floor_box heading w_m l_m px_m sat_coords = [c0; c1; c2; c3] /\
    Np.add c0 c2 = Np.scale 2 sat_coords /\
    Np.add c1 c3 = Np.scale 2 sat_coords /\
    Np.norm (Np.sub c0 c1) = w_m * px_m /\
    Np.norm (Np.sub c1 c2) = l_m * px_m /\
    Np.norm (Np.sub c2 c3) = w_m * px_m /\
    Np.norm (Np.sub c3 c0) = l_m * px_m /\
    Np.dot (Np.sub c1 c0) (Np.sub c2 c1) = 0.
Proof.
  intros Hw Hl. unfold sat_floor_box. simpl map.
  set (c := cos (Py.radians heading)). set (s := sin (Py.radians heading)).
  assert (Hcs : s * s + c * c = 1).
  { pose proof (sin2_cos2 (Py.radians heading)) as Hsc. unfold Rsqr in Hsc.
    exact Hsc. }
  destruct sat_coords as [sx sy].
  do 4 eexists. split; [reflexivity |].
  unfold Np.add, Np.sub, Np.scale, Np.dot. cbn [fst snd].
  split; [apply (f_equal2 pair); field |].
  split; [apply (f_equal2 pair); field |].
  assert (Hside : forall x y k, 0 <= k ->
            x * x + y * y = (s * s + c * c) * (k * k) -> Np.norm (x, y) = k).
  { intros x y k Hk Hxy. apply norm_of_square; [exact Hk |].
    rewrite Hxy, Hcs. ring. }
  split; [apply Hside; [exact Hw | field] |].
  split; [apply Hside; [exact Hl | field] |].
  split; [apply Hside; [exact Hw | field] |].
  split; [apply Hside; [exact Hl | field] |].
  field.
Qed.

End FloorBox.

(** ** Upgrading a calibration *)

Section UpgradeCalibration.

Import Upgrade.

(** X25: the upgraded calibration agrees with the old one on the larger
    frame.  The inverse scale matrix exists; the upgraded homography sends
    every rescaled pixel to the map point the old homography gave the old
    pixel; and the upgraded intrinsic matrix sends every ray to the rescaled
    pixel, with the same homogeneous coordinate. *)
Theorem upgrade_is_consistent (lu_singular : Mat3.t -> option Mat3.t)
  (eps : R) (H K : Mat3.t) :
  exists h_new,
    H_new lu_singular H = ret h_new /\
    (forall pt, GProjection.perspectiveTransform eps h_new (scale_point pt)
                = GProjection.perspectiveTransform eps H pt) /\
    (forall ray,
       let '(x, y, w) := SVGParser.mulvec K ray in
       SVGParser.mulvec (scale_K K) ray = (x * SCALE, y * SCALE, w)).
Proof.
  assert (Hdet : Mat3.det S = 2.25) by (unfold Mat3.det, S, SCALE; simpl; lra).
  unfold H_new, S_INV, GProjection.inv.
  rewrite eqb_false by lra. simpl. rewrite Hdet.
  eexists. split; [reflexivity |]. split.
  - intros [u v]. destruct H as [h00 h01 h02 h10 h11 h12 h20 h21 h22].
    unfold GProjection.perspectiveTransform, scale_point, Mat3.matmul,
      Mat3.mscale, Mat3.adjugate, S, SCALE. cbn [fst snd Mat3.m00 Mat3.m01
      Mat3.m02 Mat3.m10 Mat3.m11 Mat3.m12 Mat3.m20 Mat3.m21 Mat3.m22].
    replace 2.25 with (9 / 4) by lra. replace 1.5 with (3 / 2) by lra.
    match goal with
    | |- (if Py.gtb (Rabs ?w1) eps then (?x1 / ?w1, ?y1 / ?w1) else _)
         = (if Py.gtb (Rabs ?w2) eps then (?x2 / ?w2, ?y2 / ?w2) else _) =>
        replace w1 with w2 by field;
        replace x1 with x2 by field;
        replace y1 with y2 by field
    end.
    reflexivity.
  - intros [[x y] w]. destruct K as [k00 k01 k02 k10 k11 k12 k20 k21 k22].
    unfold SVGParser.mulvec, scale_K, Mat3.matmul, S, SCALE. simpl.
    replace 1.5 with (3 / 2) by lra.
    f_equal; [f_equal |]; field.
Qed.

End UpgradeCalibration.

(** ** More concrete runs *)

Section MoreInstances.

Import TrackSmoother.

Lemma first_run_state :
  fst (run fit_x_axis (__init__ empty_config) [Build_Call (0, 0) 1 1 None])
  = first_state empty_config (0, 0).
Proof. simpl. unfold update_call. simpl. rewrite first_update. reflexivity. Qed.

Lemma speed_output_capped_witness :
  Forall (fun out => speed_kmh out <= 200)
    (snd (run fit_x_axis (__init__ empty_config)
            [Build_Call (0, 0) 1 1 None; Build_Call (3, 4) 1 1 None])).
Proof.
  apply (speed_output_capped fit_x_axis empty_config).
  - simpl. lra.
  - repeat constructor; simpl; lra.
Defined.

Lemma heading_never_lost_witness :
  (exists hv', heading_vec_state
                 (fst (run fit_x_axis parked [Build_Call (0, 0) 1 1 None]))
               = Some hv') /\
  Forall (fun out => heading out <> None /\ default_heading out = false)
    (snd (run fit_x_axis parked [Build_Call (0, 0) 1 1 None])).
Proof.
  apply (heading_never_lost fit_x_axis [Build_Call (0, 0) 1 1 None] parked (1, 0)).
  reflexivity.
Defined.

Lemma default_heading_is_guideline_witness :
  heading_vec_state (__init__ empty_config) = None /\
  Some 90 <> None /\
  heading (snd (update fit_x_axis (__init__ empty_config) (0, 0) 1 1 (Some 90)))
    = Some 90 /\
  heading_vec_state
    (fst (update fit_x_axis (__init__ empty_config) (0, 0) 1 1 (Some 90))) = None.
Proof.
  apply (default_heading_is_guideline fit_x_axis (__init__ empty_config)
           (0, 0) 1 1 (Some 90)).
  rewrite first_update. reflexivity.
Defined.

Lemma nonpositive_dt_is_no_motion_witness :
  gate_rejects parked (5, 5) 0 1 = false /\
  update fit_x_axis parked (5, 5) 0 1 None =
    (set_speed_state
       (set_histories parked (Deque.append (pos_history parked) (5, 5))
          (Deque.append (jitter_hist parked) (5, 5)))
       (Some (_smooth_speed parked 0)),
     Build_Output (Py.or_else (Some (_smooth_speed parked 0)) 0)
       (fst (keep_heading parked None)) (snd (keep_heading parked None))).
Proof.
  apply (nonpositive_dt_is_no_motion fit_x_axis parked (5, 5) 0 1 None). lra.
Defined.

Lemma first_smoothed_heading_is_raw_witness :
  snd (_smooth_heading (__init__ empty_config) 90 36) = 90 /\
  heading_vec_state (fst (_smooth_heading (__init__ empty_config) 90 36))
    = Some (unit_vec 90) /\
  velocity_vec_state (fst (_smooth_heading (__init__ empty_config) 90 36))
    = Some (unit_vec 90).
Proof.
  apply (first_smoothed_heading_is_raw (__init__ empty_config) 90 36);
    [reflexivity | reflexivity | lra].
Defined.

Lemma check_jitter_close_witness :
  Np.norm (Np.sub (0, 0) (0, 0))
  < Py.get (heading_sat_coords_jitter_radius
              (cfg (set_histories parked
                      (Deque.append (pos_history parked) (0, 0))
                      (Deque.append (jitter_hist parked) (0, 0))))) 0.6 * 1.
Proof.
  apply (check_jitter_close
           (set_histories parked (Deque.append (pos_history parked) (0, 0))
              (Deque.append (jitter_hist parked) (0, 0))) 1 (0, 0) (0, 0)).
  - exact (proj2 parked_detects_jitter).
  - simpl. auto.
  - simpl. auto.
Defined.

Lemma stationary_speed_decays_witness :
  speed_state
    (fst (run fit_x_axis
            (fst (run fit_x_axis (__init__ empty_config)
                    [Build_Call (0, 0) 1 1 None]))
            [Build_Call (0, 0) 1 1 None; Build_Call (0, 0) 1 1 None]))
  = Some ((1 - Py.get (speed_ema_alpha empty_config) 0.4)
          ^ length [Build_Call (0, 0) 1 1 None; Build_Call (0, 0) 1 1 None] * 0).
Proof.
  apply (stationary_speed_decays fit_x_axis empty_config
           [Build_Call (0, 0) 1 1 None]
           [Build_Call (0, 0) 1 1 None; Build_Call (0, 0) 1 1 None]
           [] (0, 0) 0).
  - rewrite first_run_state. reflexivity.
  - rewrite first_run_state. reflexivity.
  - repeat constructor; simpl; lra.
Defined.

End MoreInstances.

Section IndexInstances.

Import SVGParser.

Lemma nearest_heading_first_wins_witness :
  exists before seg after,
    orientation_segments one_guideline = before ++ seg :: after /\
    ~ skipped seg /\
    0 = Py.mod_ (angle seg + 360) 360 /\
    (forall s, In s before -> ~ skipped s ->
               distance (5, 3) seg < distance (5, 3) s) /\
    (forall s, In s after -> ~ skipped s ->
               distance (5, 3) seg <= distance (5, 3) s).
Proof.
  apply (nearest_heading_first_wins (5, 3) one_guideline 0).
  exact nearest_heading_example.
Defined.

Lemma closest_point_nearest_witness :
  distance (5, 3) ((0, 0), (10, 0))
  <= Np.norm (Np.sub (5, 3)
                (Np.add (0, 0) (Np.scale 0 (direction ((0, 0), (10, 0)))))).
Proof.
  apply (closest_point_nearest (5, 3) (0, 0) (10, 0) 0).
  - unfold skipped, direction, Np.dot, Np.sub. simpl. lra.
  - lra.
Defined.

Lemma element_segments_spec_witness :
  _process_node Mat3.identity line_element Mat3.identity []
  = ret ([] ++ [(place Mat3.identity (Mat3.matmul Mat3.identity Mat3.identity)
                   (Py.get (Some 0) 0, Py.get (Some 0) 0),
                 place Mat3.identity (Mat3.matmul Mat3.identity Mat3.identity)
                   (Py.get (Some 10) 0, Py.get (Some 0) 0))]).
Proof.
  apply (proj1 (element_segments_spec Mat3.identity Mat3.identity Mat3.identity
                  "line" None [] (Some 0) (Some 0) (Some 10) (Some 0) [] []
                  eq_refl)).
  reflexivity.
Defined.

End IndexInstances.

Section CoreInstances.

Import GProjection.

Lemma default_core_constructed (lu_singular : Mat3.t -> option Mat3.t) :
  __init__ lu_singular default_config None = ret default_core.
Proof.
  assert (Hdet : Mat3.det Mat3.identity = 1)
    by (unfold Mat3.det, Mat3.identity; simpl; ring).
  unfold __init__, _init_matrices, inv, default_config. simpl.
  rewrite eqb_false by (rewrite Hdet; lra). simpl.
  unfold _init_parallax. simpl.
  destruct (Rle_dec 0 0.001); [reflexivity | lra].
Qed.

Lemma constructed_px_per_m_positive_witness :
  0.001 < px_per_m default_core /\
  (forall px, parallax_px_per_meter default_config = Some px -> 0.001 < px ->
     px_per_m default_core = px) /\
  (forall px, parallax_px_per_meter default_config = Some px -> px <= 0.001 ->
     px_per_m default_core = 1) /\
  (parallax_px_per_meter default_config = None -> px_per_m default_core = 1).
Proof.
  apply (constructed_px_per_m_positive exact_lu default_config None
           default_core).
  exact (default_core_constructed exact_lu).
Defined.

Lemma homography_round_trip_witness :
  (forall u v,
     0 < Rabs (Mat3.m20 Mat3.identity * u + Mat3.m21 Mat3.identity * v
               + Mat3.m22 Mat3.identity) ->
     0 < Rabs (/ (Mat3.m20 Mat3.identity * u + Mat3.m21 Mat3.identity * v
                  + Mat3.m22 Mat3.identity)) ->
     exists q, undistorted_to_flat_sat 0 default_core u v = ret q /\
               flat_sat_to_undistorted 0 default_core (fst q) (snd q) = (u, v))
  /\ (forall x y,
        0 < Rabs (Mat3.m20 (H_inv default_core) * x
                  + Mat3.m21 (H_inv default_core) * y
                  + Mat3.m22 (H_inv default_core)) ->
        0 < Rabs (/ (Mat3.m20 (H_inv default_core) * x
                     + Mat3.m21 (H_inv default_core) * y
                     + Mat3.m22 (H_inv default_core))) ->
        undistorted_to_flat_sat 0 default_core
          (fst (flat_sat_to_undistorted 0 default_core x y))
          (snd (flat_sat_to_undistorted 0 default_core x y)) = ret (x, y)).
Proof.
  apply (homography_round_trip 0 exact_lu default_config None default_core
           Mat3.identity).
  - lra.
  - exact (default_core_constructed exact_lu).
  - reflexivity.
  - unfold Mat3.det, Mat3.identity. simpl. lra.
Defined.

Lemma parallax_correct_pulls_to_camera_witness :
  Np.norm (Np.sub (parallax_correct_ground_to_real cam10 (100, 0) 1.6)
             (cam_sat cam10))
    = (z_cam cam10 - 1.6) / z_cam cam10 * Np.norm (Np.sub (100, 0) (cam_sat cam10))
  /\ Np.norm (Np.sub (parallax_correct_ground_to_real cam10 (100, 0) 1.6)
                (cam_sat cam10))
     <= Np.norm (Np.sub (100, 0) (cam_sat cam10)).
Proof.
  apply (parallax_correct_pulls_to_camera cam10 (100, 0) 1.6); simpl; lra.
Defined.

(** With a calibration in place every box has a ground contact. *)
Lemma ground_contact_returns (eps : R)
  (undistortPoints : Mat3.t -> option (list R) -> Mat3.t -> Vec2 -> Vec2)
  (projectPoint : Mat3.t -> option (list R) -> R * R * R -> Vec2)
  (self : GProjection.t) (k p h : Mat3.t) (rect : R * R * R * R) (h_meters : R)
  (ref_method proj_method : string) :
  K self = Some k -> P self = Some p -> H self = Some h ->
  exists gc,
    get_ground_contact_from_box eps undistortPoints projectPoint self rect
      h_meters ref_method proj_method = ret gc.
Proof.
  intros HK HP HH. destruct rect as [[[rx ry] rw] rh].
  unfold get_ground_contact_from_box, cctv_to_sat, cctv_to_undistorted,
    undistorted_to_flat_sat, sat_to_cctv, undistorted_to_cctv.
  rewrite HK, HP, HH. simpl. rewrite eqb_true by reflexivity. simpl.
  eexists. reflexivity.
Qed.

Lemma ground_contact_without_height_witness :
  exists gc,
    get_ground_contact_from_box 0 no_undistortion pinhole default_core
      (100, 50, 40, 80) 0 "center_bottom_side" "down_h" = ret gc /\
    cctv_ref_point gc
      = (100 + 40 / 2,
         if String.eqb "center_bottom_side" "center_bottom_side"
         then 50 + 80 else 50 + 80 / 2) /\
    cctv_to_sat 0 no_undistortion default_core (fst (cctv_ref_point gc))
      (snd (cctv_ref_point gc)) 0 = ret (sat_coords gc).
Proof.
  destruct (ground_contact_returns 0 no_undistortion pinhole default_core
              default_K default_K Mat3.identity (100, 50, 40, 80) 0
              "center_bottom_side" "down_h" eq_refl eq_refl eq_refl)
    as [gc Hgc].
  exists gc. split; [exact Hgc |].
  apply (ground_contact_without_height 0 no_undistortion pinhole default_core
           100 50 40 80 0 "center_bottom_side" "down_h" gc).
  - left. reflexivity.
  - exact Hgc.
Defined.

Lemma cctv_sat_round_trip_witness :
  exists s, cctv_to_sat 0 no_undistortion default_core 700 400 0 = ret s /\
            sat_to_cctv 0 pinhole default_core (fst s) (snd s) 0 = ret (700, 400).
Proof.
  apply (cctv_sat_round_trip 0 no_undistortion pinhole exact_lu default_config
           None default_core default_K Mat3.identity 700 400 0).
  - lra.
  - exact (default_core_constructed exact_lu).
  - reflexivity.
  - reflexivity.
  - unfold Mat3.det, Mat3.identity. simpl. lra.
  - unfold pinhole, normalized_ray, no_undistortion, default_K. simpl.
    apply (f_equal2 pair); field.
  - unfold no_undistortion. simpl.
    replace (0 * 700 + 0 * 400 + 1) with 1 by ring. rewrite Rabs_R1. lra.
  - unfold no_undistortion. simpl.
    replace (0 * 700 + 0 * 400 + 1) with 1 by ring. rewrite Rinv_1, Rabs_R1. lra.
  - left. reflexivity.
Defined.

End CoreInstances.

Section LoopInstances.

Import Engine.

(** The first detection of a track gets through the step. *)
Lemma new_track_step_returns (fitLine : list Vec2 -> Vec2)
  (kinematics : TrackSmoother.Config) (g_engine : GProjection.t)
  (use_svg : bool) (real_fps : R) (tracks : Tracks) (i tid : Z)
  (sat_coords : Vec2) :
  ZMap.mem tid (track_smoothers tracks) = false ->
  real_fps <> 0 ->
  exists tracks' out,
    kinematics_step fitLine kinematics g_engine use_svg real_fps tracks i
      (Some tid) sat_coords = ret (tracks', out).
Proof.
  intros Hnew Hfps. unfold kinematics_step. rewrite Hnew.
  cbn [track_smoothers last_seen_frame].
  rewrite !ZMapFacts.add_eq_o by reflexivity.
  destruct (frame_dt_returns real_fps i (i - 1) Hfps) as [dt ->]. simpl.
  destruct (TrackSmoother.update fitLine _ _ _ _ _) as [sm k].
  eexists. eexists. reflexivity.
Qed.

Lemma tracks_are_independent_witness :
  exists tracks' out,
    kinematics_step fit_x_axis TrackSmoother.empty_config default_core false 25
      no_tracks 0 (Some 1%Z) (0, 0) = ret (tracks', out) /\
    ZMap.find 2%Z (track_smoothers tracks')
      = ZMap.find 2%Z (track_smoothers no_tracks) /\
    ZMap.find 2%Z (last_seen_frame tracks')
      = ZMap.find 2%Z (last_seen_frame no_tracks).
Proof.
  destruct (new_track_step_returns fit_x_axis TrackSmoother.empty_config
              default_core false 25 no_tracks 0 1 (0, 0) eq_refl
              ltac:(lra)) as (tracks' & out & Hstep).
  exists tracks', out. split; [exact Hstep |].
  apply (tracks_are_independent fit_x_axis TrackSmoother.empty_config
           default_core false 25 no_tracks tracks' 0 1 2 (0, 0) out Hstep).
  discriminate.
Defined.

Lemma first_sighting_witness :
  exists tracks',
    kinematics_step fit_x_axis TrackSmoother.empty_config default_core false 25
      no_tracks 0 (Some 1%Z) (0, 0)
    = ret (tracks', Build_Kinematics 0 None false false) /\
    ZMap.find 1%Z (track_smoothers tracks')
      = Some (first_state TrackSmoother.empty_config (0, 0)) /\
    ZMap.find 1%Z (last_seen_frame tracks') = Some 0%Z.
Proof.
  apply (first_sighting fit_x_axis TrackSmoother.empty_config default_core
           false 25 no_tracks 0 1 (0, 0)).
  - reflexivity.
  - lra.
Defined.

Lemma step_output_consistent_witness :
  exists tracks' out,
    kinematics_step fit_x_axis TrackSmoother.empty_config default_core false 25
      no_tracks 0 (Some 1%Z) (0, 0) = ret (tracks', out) /\
    TrackSmoother.compass (heading out) /\
    have_heading out
      = (match heading out with Some _ => true | None => false end) /\
    (heading out = None -> speed out = 0) /\
    (forall t, Some 1%Z = Some t ->
       ZMap.find t (last_seen_frame tracks') = Some 0%Z /\
       exists sm, ZMap.find t (track_smoothers tracks') = Some sm).
Proof.
  destruct (new_track_step_returns fit_x_axis TrackSmoother.empty_config
              default_core false 25 no_tracks 0 1 (0, 0) eq_refl
              ltac:(lra)) as (tracks' & out & Hstep).
  exists tracks', out. split; [exact Hstep |].
  exact (step_output_consistent fit_x_axis TrackSmoother.empty_config
           default_core false 25 no_tracks tracks' 0 (Some 1%Z) (0, 0) out Hstep).
Defined.

Lemma floor_box_is_rectangle_witness :
  exists c0 c1 c2 c3,
    sat_floor_box 30 2 4 10 (100, 100) = [c0; c1; c2; c3] /\
    Np.add c0 c2 = Np.scale 2 (100, 100) /\
    Np.add c1 c3 = Np.scale 2 (100, 100) /\
    Np.norm (Np.sub c0 c1) = 2 * 10 /\
    Np.norm (Np.sub c1 c2) = 4 * 10 /\
    Np.norm (Np.sub c2 c3) = 2 * 10 /\
    Np.norm (Np.sub c3 c0) = 4 * 10 /\
    Np.dot (Np.sub c1 c0) (Np.sub c2 c1) = 0.
Proof.
  apply (floor_box_is_rectangle 30 2 4 10 (100, 100)); lra.
Defined.

End LoopInstances.

Section EmaInstances.

Import TrackSmoother.

Lemma run_cons (fitLine : list Vec2 -> Vec2) (self : t) (c : Call)
  (calls : list Call) :
  snd (run fitLine self (c :: calls))
  = snd (update_call fitLine self c)
      :: snd (run fitLine (fst (update_call fitLine self c)) calls).
Proof.
  simpl. destruct (update_call fitLine self c) as [s1 out]. simpl.
  destruct (run fitLine s1 calls) as [s2 outs]. reflexivity.
Qed.

(** The raw speed of a call with [dt > 0] on a window of two positions or
    more. *)
Lemma raw_motion_speed (fitLine : list Vec2 -> Vec2) (self : t) (pt : Vec2)
  (dt px : R) :
  0 < dt -> (2 <= Deque.len (pos_history self))%nat ->
  fst (raw_motion fitLine self pt dt px)
  = Np.norm (Np.sub pt (Deque.from_end (pos_history self) 2)) / px / dt * 3.6.
Proof.
  intros Hdt Hlen. unfold raw_motion, Py.gtb.
  rewrite ltb_true by exact Hdt.
  apply Nat.leb_le in Hlen. rewrite Hlen. simpl.
  destruct (_compute_regression_heading fitLine self); [reflexivity |].
  destruct (Py.ltb 0.5 _); reflexivity.
Qed.

Lemma norm_10 : Np.norm (Np.sub (10, 0) (0, 0)) = 10.
Proof.
  unfold Np.norm, Np.sub. simpl.
  replace ((10 - 0) * (10 - 0) + (0 - 0) * (0 - 0)) with (10 * 10) by ring.
  apply sqrt_square. lra.
Qed.

(** The second call of the run: 36 km/h raw, smoothed to 54 km/h. *)
Lemma overshoot_second_call :
  let s1 := first_state overshoot_config (0, 0) in
  let r := update fit_x_axis s1 (10, 0) 1 1 None in
  speed_state (fst r) = Some 54 /\ speed_kmh (snd r) = 54 /\
  pos_history (fst r) = Deque.Build 8 [(0, 0); (10, 0)] /\
  cfg (fst r) = overshoot_config /\ max_physics_speed (fst r) = 200.
Proof.
  intros s1 r.
  assert (Hgate : gate_rejects s1 (10, 0) 1 1 = false).
  { unfold gate_rejects, s1. simpl.
    unfold Deque.from_end, Deque.len. simpl. rewrite norm_10.
    unfold Py.gtb at 2. rewrite ltb_false by lra. apply andb_false_r. }
  destruct (update_speed_state fit_x_axis s1 (10, 0) 1 1 None Hgate) as [Hs Ho].
  destruct (update_histories fit_x_axis s1 (10, 0) 1 1 None Hgate) as [Hp _].
  destruct (update_frame fit_x_axis s1 (10, 0) 1 1 None) as [Hc Hm].
  fold r in Hs, Ho, Hp, Hc, Hm.
  rewrite raw_motion_speed in Hs, Ho
    by (simpl; try lra; unfold Deque.len; simpl; lia).
  assert (Hprev : Deque.from_end
                    (pos_history
                       (set_histories s1 (Deque.append (pos_history s1) (10, 0))
                          (Deque.append (jitter_hist s1) (10, 0)))) 2 = (0, 0))
    by reflexivity.
  rewrite Hprev, norm_10 in Hs, Ho.
  assert (Hsm : _smooth_speed s1 (10 / 1 / 1 * 3.6) = 54).
  { unfold _smooth_speed, s1. simpl. lra. }
  rewrite Hsm in Hs, Ho. rewrite or_else_zero in Ho.
  split; [exact Hs |]. split; [exact Ho |].
  split; [rewrite Hp; reflexivity |].
  split; [rewrite Hc; reflexivity | rewrite Hm; reflexivity].
Qed.

(** The third call: no motion, and the smoothed speed swings to -27 km/h. *)
Lemma overshoot_third_call (s2 : t) :
  speed_state s2 = Some 54 ->
  pos_history s2 = Deque.Build 8 [(0, 0); (10, 0)] ->
  cfg s2 = overshoot_config -> max_physics_speed s2 = 200 ->
  speed_kmh (snd (update fit_x_axis s2 (10, 0) 1 1 None)) = -27.
Proof.
  intros Hs Hp Hc Hm.
  assert (Hzero : Np.norm (Np.sub (10, 0) (10, 0)) = 0)
    by (apply (norm_sub_self (10, 0))).
  assert (Hgate : gate_rejects s2 (10, 0) 1 1 = false).
  { unfold gate_rejects. rewrite Hp, Hm. simpl.
    unfold Deque.from_end, Deque.len. simpl. rewrite Hzero.
    unfold Py.gtb at 2. rewrite ltb_false by lra. apply andb_false_r. }
  destruct (update_speed_state fit_x_axis s2 (10, 0) 1 1 None Hgate) as [_ Ho].
  rewrite raw_motion_speed in Ho
    by (simpl; try lra; rewrite Hp; unfold Deque.len; simpl; lia).
  cbn [pos_history set_histories] in Ho. rewrite Hp in Ho.
  assert (Hprev : Deque.from_end
                    (Deque.append (Deque.Build 8 [(0, 0); (10, 0)]) (10, 0)) 2
                  = (10, 0)) by reflexivity.
  rewrite Hprev, Hzero in Ho.
  assert (Hsm : _smooth_speed s2 (0 / 1 / 1 * 3.6) = -27).
  { unfold _smooth_speed. rewrite Hs, Hc. simpl. lra. }
  rewrite Hsm, or_else_zero in Ho. exact Ho.
Qed.

(** C10, as stated, fails: nothing keeps [speed_ema_alpha] within [0, 1],
    and with a larger factor the smoothed speed overshoots below 0.  With
    [speed_ema_alpha = 1.5] a track seen at (0, 0), at (10, 0) and at (10, 0)
    again, one second apart at 1 px per metre, is reported at 0, 54 and
    -27 km/h. *)
Lemma speed_negative_for_alpha_above_one :
  map speed_kmh
    (snd (run fit_x_axis (__init__ overshoot_config) overshoot_calls))
    = [0; 54; -27]
  /\ ~ Forall (fun out => 0 <= speed_kmh out)
        (snd (run fit_x_axis (__init__ overshoot_config) overshoot_calls)).
Proof.
  assert (Hmap : map speed_kmh
            (snd (run fit_x_axis (__init__ overshoot_config) overshoot_calls))
            = [0; 54; -27]).
  { unfold overshoot_calls. rewrite !run_cons. unfold update_call.
    cbn [call_pos call_dt call_px_per_m call_svg_heading].
    rewrite first_update. cbn [fst snd].
    destruct overshoot_second_call as (Hs & Ho & Hp & Hc & Hm).
    cbn [map]. rewrite Ho.
    rewrite (overshoot_third_call _ Hs Hp Hc Hm). reflexivity. }
  split; [exact Hmap |].
  intros Hall. apply (Forall_map speed_kmh (fun x => 0 <= x)) in Hall.
  rewrite Hmap in Hall.
  apply Forall_cons_iff in Hall. destruct Hall as [_ Hall].
  apply Forall_cons_iff in Hall. destruct Hall as [_ Hall].
  apply Forall_cons_iff in Hall. destruct Hall as [Hneg _]. lra.
Qed.

End EmaInstances.
